(** * Inspector Gadget OS: the security kernel of the O-LLaMA server

    A shallow embedding of the Go sources of the sandboxed file system
    ([safefs]), the identity tokens ([auth]), the policy store ([rbac]),
    the gadget runner ([integration]) and the JSON-RPC message core
    ([mcp]), followed by the properties established about them.

    Go strings are byte sequences: they are modelled by [string], whose
    characters are the bytes.  Integers are [Z].  The Go standard library
    functions the sources call are written out next to them. *)

From Stdlib Require Import ZArith List String Ascii Bool Lia.
From Stdlib Require Import Floats.SpecFloat DecimalString.
Import ListNotations.

Local Open Scope string_scope.
Local Open Scope Z_scope.

(** ** Go strings, UTF-8 and the [strings] package *)

(** The Unicode tables of package [unicode] outside the orbits that meet
    ASCII.  They are data of the Go distribution, not of this repository:
    every result below holds for any content of these tables. *)
Class UnicodeTables := {
  (** [unicode.SimpleFold] on the runes that are neither ASCII, nor the
      long s (U+017F), nor the Kelvin sign (U+212A). *)
  simpleFoldOther : Z -> Z;
  (** [unicode.ToLower] on the runes from U+0080 on. *)
  toLowerOther : Z -> Z
}.

Module GoString.

Definition byteZ (c : ascii) : Z := Z.of_N (N_of_ascii c).
Definition zByte (z : Z) : ascii := ascii_of_N (Z.to_N (z mod 256)).

(** [len(s)]: the number of bytes. *)
Definition len (s : string) : Z := Z.of_nat (String.length s).

(** [s[i]] for an index in range. *)
Definition byteAt (s : string) (i : nat) : Z :=
  match String.get i s with Some c => byteZ c | None => 0 end.

(** [s[n:]]. *)
Fixpoint drop (n : nat) (s : string) : string :=
  match n, s with
  | S n', String _ s' => drop n' s'
  | _, _ => s
  end.

(** [s[:n]]. *)
Fixpoint take (n : nat) (s : string) : string :=
  match n, s with
  | S n', String c s' => String c (take n' s')
  | _, _ => EmptyString
  end.

(** [strings.HasPrefix]. *)
Definition HasPrefix (s pre : string) : bool := String.prefix pre s.

(** [strings.Contains]. *)
Fixpoint Contains (s sub : string) : bool :=
  if String.prefix sub s then true
  else match s with
       | EmptyString => false
       | String _ s' => Contains s' sub
       end.

(** [strings.Join]. *)
Fixpoint Join (elems : list string) (sep : string) : string :=
  match elems with
  | [] => ""
  | [e] => e
  | e :: rest => e ++ sep ++ Join rest sep
  end.

(** *** Package [unicode/utf8] *)

Definition RuneError : Z := 0xFFFD.
Definition RuneSelf : Z := 0x80.
Definition MaxRune : Z := 0x10FFFF.

(** The table [first] with its accept ranges: for a leading byte, the
    length of the sequence and the bounds of the second byte; [None]
    for the bytes that start no sequence. *)
Definition first (s0 : Z) : option (nat * Z * Z) :=
  if s0 <? 0xC2 then None
  else if s0 <? 0xE0 then Some (2%nat, 0x80, 0xBF)
  else if s0 =? 0xE0 then Some (3%nat, 0xA0, 0xBF)
  else if s0 <? 0xED then Some (3%nat, 0x80, 0xBF)
  else if s0 =? 0xED then Some (3%nat, 0x80, 0x9F)
  else if s0 <? 0xF0 then Some (3%nat, 0x80, 0xBF)
  else if s0 =? 0xF0 then Some (4%nat, 0x90, 0xBF)
  else if s0 <? 0xF4 then Some (4%nat, 0x80, 0xBF)
  else if s0 =? 0xF4 then Some (4%nat, 0x80, 0x8F)
  else None.

Definition notCont (b : Z) : bool := (b <? 0x80) || (0xBF <? b).

(** [utf8.DecodeRuneInString]: the first rune of [s] and its width. *)
Definition DecodeRuneInString (s : string) : Z * nat :=
  let n := String.length s in
  if (n <? 1)%nat then (RuneError, 0%nat)
  else
    let s0 := byteAt s 0 in
    if s0 <? RuneSelf then (s0, 1%nat)
    else
      match first s0 with
      | None => (RuneError, 1%nat)
      | Some (sz, lo, hi) =>
          if (n <? sz)%nat then (RuneError, 1%nat)
          else
            let s1 := byteAt s 1 in
            if (s1 <? lo) || (hi <? s1) then (RuneError, 1%nat)
            else if (sz <=? 2)%nat then
              (Z.lor (Z.shiftl (Z.land s0 0x1F) 6) (Z.land s1 0x3F), 2%nat)
            else
              let s2 := byteAt s 2 in
              if notCont s2 then (RuneError, 1%nat)
              else if (sz <=? 3)%nat then
                (Z.lor (Z.lor (Z.shiftl (Z.land s0 0x0F) 12)
                              (Z.shiftl (Z.land s1 0x3F) 6))
                       (Z.land s2 0x3F), 3%nat)
              else
                let s3 := byteAt s 3 in
                if notCont s3 then (RuneError, 1%nat)
                else
                  (Z.lor (Z.lor (Z.lor (Z.shiftl (Z.land s0 0x07) 18)
                                       (Z.shiftl (Z.land s1 0x3F) 12))
                                (Z.shiftl (Z.land s2 0x3F) 6))
                         (Z.land s3 0x3F), 4%nat)
      end.

(** [utf8.EncodeRune] / [utf8.AppendRune]. *)
Definition encode3 (r : Z) : string :=
  String (zByte (Z.lor 0xE0 (Z.shiftr r 12)))
    (String (zByte (Z.lor 0x80 (Z.land (Z.shiftr r 6) 0x3F)))
       (String (zByte (Z.lor 0x80 (Z.land r 0x3F))) "")).

Definition EncodeRune (r : Z) : string :=
  if (0 <=? r) && (r <=? 0x7F) then String (zByte r) ""
  else if (0 <=? r) && (r <=? 0x7FF) then
    String (zByte (Z.lor 0xC0 (Z.shiftr r 6)))
      (String (zByte (Z.lor 0x80 (Z.land r 0x3F))) "")
  else if (r <? 0) || (MaxRune <? r) || ((0xD800 <=? r) && (r <=? 0xDFFF))
  then encode3 RuneError
  else if r <=? 0xFFFF then encode3 r
  else
    String (zByte (Z.lor 0xF0 (Z.shiftr r 18)))
      (String (zByte (Z.lor 0x80 (Z.land (Z.shiftr r 12) 0x3F)))
         (String (zByte (Z.lor 0x80 (Z.land (Z.shiftr r 6) 0x3F)))
            (String (zByte (Z.lor 0x80 (Z.land r 0x3F))) ""))).

(** [for i, r := range s]: the runes of [s] with their widths.  Every
    step consumes at least one byte, so [String.length s] steps cover
    the string. *)
Fixpoint rangeFrom (fuel : nat) (s : string) : list (Z * nat) :=
  match fuel with
  | O => []
  | S fuel' =>
      match s with
      | EmptyString => []
      | String _ _ =>
          let rw := DecodeRuneInString s in
          rw :: rangeFrom fuel' (drop (snd rw) s)
      end
  end.

Definition range (s : string) : list (Z * nat) :=
  rangeFrom (String.length s) s.

Definition runes (s : string) : list Z := map fst (range s).

(** [utf8.ValidString]. *)
Definition invalidStep (rw : Z * nat) : bool :=
  (fst rw =? RuneError) && (snd rw =? 1)%nat.

Definition ValidString (s : string) : bool :=
  negb (existsb invalidStep (range s)).

(** *** Case mapping *)

Definition isUpperASCII (r : Z) : bool := (65 <=? r) && (r <=? 90).
Definition isLowerASCII (r : Z) : bool := (97 <=? r) && (r <=? 122).

(** [unicode.SimpleFold]: the next rune of the case orbit of [r], and
    the smallest of the orbit after the largest.  The orbits of the
    ASCII letters are written out: K, k and the Kelvin sign; S, s and
    the long s; two letters each otherwise. *)
Definition SimpleFold `{UnicodeTables} (r : Z) : Z :=
  if r =? 0x4B then 0x6B
  else if r =? 0x6B then 0x212A
  else if r =? 0x212A then 0x4B
  else if r =? 0x53 then 0x73
  else if r =? 0x73 then 0x17F
  else if r =? 0x17F then 0x53
  else if isUpperASCII r then r + 32
  else if isLowerASCII r then r - 32
  else if (0 <=? r) && (r <? RuneSelf) then r
  else simpleFoldOther r.

(** [unicode.ToLower]. *)
Definition unicodeToLower `{UnicodeTables} (r : Z) : Z :=
  if (0 <=? r) && (r <? RuneSelf) then
    (if isUpperASCII r then r + 32 else r)
  else toLowerOther r.

(** [strings.ToLower]: every rune of [s] is mapped and encoded again;
    a byte that starts no rune comes out as the replacement rune.  On
    an ASCII string this is the byte-wise loop of the fast path. *)
Definition ToLower `{UnicodeTables} (s : string) : string :=
  fold_right (fun r acc => EncodeRune (unicodeToLower r) ++ acc) "" (runes s).

(** The loop [for r != sr && r < tr { r = unicode.SimpleFold(r) }] of
    [strings.EqualFold].  The orbits of the Unicode tables have at most
    four runes: the eight steps allowed here are never used up. *)
Fixpoint foldSearch `{UnicodeTables} (fuel : nat) (sr tr r : Z) : Z :=
  match fuel with
  | O => r
  | S fuel' =>
      if negb (r =? sr) && (r <? tr)
      then foldSearch fuel' sr tr (SimpleFold r)
      else r
  end.

(** The body of both loops of [EqualFold] once the two runes differ:
    order them, then compare as ASCII letters or through the orbit. *)
Definition foldMatch `{UnicodeTables} (sr tr : Z) : bool :=
  let lo := if tr <? sr then tr else sr in
  let hi := if tr <? sr then sr else tr in
  if hi <? RuneSelf then
    isUpperASCII lo && (hi =? lo + 32)
  else
    foldSearch 8 lo hi (SimpleFold lo) =? hi.

(** The loop after the label [hasUnicode]: the runes of the rest of
    [s] against the rest of [t]. *)
Fixpoint foldRunes `{UnicodeTables} (srs : list Z) (t : string) : bool :=
  match srs with
  | [] => (String.length t =? 0)%nat
  | sr :: srs' =>
      match t with
      | EmptyString => false
      | String c t1 =>
          let '(tr, t') :=
            if byteZ c <? RuneSelf then (byteZ c, t1)
            else let rw := DecodeRuneInString t in (fst rw, drop (snd rw) t) in
          if tr =? sr then foldRunes srs' t'
          else if foldMatch sr tr then foldRunes srs' t'
          else false
      end
  end.

(** [strings.EqualFold]: the byte loop of the ASCII fast path, which
    hands over to [foldRunes] at the first byte outside ASCII. *)
Fixpoint EqualFold `{UnicodeTables} (s t : string) : bool :=
  match s, t with
  | String sc s', String tc t' =>
      let sr := byteZ sc in
      let tr := byteZ tc in
      if RuneSelf <=? Z.lor sr tr then foldRunes (runes s) t
      else if tr =? sr then EqualFold s' t'
      else
        let lo := if tr <? sr then tr else sr in
        let hi := if tr <? sr then sr else tr in
        if isUpperASCII lo && (hi =? lo + 32) then EqualFold s' t'
        else false
  | _, _ => (String.length s =? String.length t)%nat
  end.

End GoString.

(** ** Package [path/filepath] (Unix) *)

Module Filepath.
Import GoString.

Definition isSep (c : ascii) : bool := Ascii.eqb c "/"%char.

(** The elements of a path between its separators. *)
Fixpoint splitSep (s : string) : list string :=
  match s with
  | EmptyString => [""]
  | String c s' =>
      if isSep c then "" :: splitSep s'
      else match splitSep s' with
           | e :: rest => String c e :: rest
           | [] => [String c ""]
           end
  end.

(** [filepath.IsAbs]. *)
Definition IsAbs (path : string) : bool := HasPrefix path "/".

(** One element of the loop of [Clean].  [out] holds the elements
    written so far, the last one first.  A [..] removes the element
    before it when there is one that is not itself a leading [..]; at
    the root it is dropped, and in a relative path it is kept. *)
Definition cleanStep (rooted : bool) (out : list string) (e : string)
  : list string :=
  if String.eqb e "" then out
  else if String.eqb e "." then out
  else if String.eqb e ".." then
    match out with
    | top :: rest =>
        if String.eqb top ".." then ".." :: out else rest
    | [] => if rooted then out else [".."]
    end
  else e :: out.

(** [filepath.Clean]. *)
Definition Clean (path : string) : string :=
  if String.eqb path "" then "."
  else
    let rooted := IsAbs path in
    let out := fold_left (cleanStep rooted) (splitSep path) [] in
    let body := Join (rev out) "/" in
    if rooted then "/" ++ body
    else if String.eqb body "" then "." else body.

(** [filepath.Join] of two elements. *)
Definition Join2 (a b : string) : string :=
  if negb (String.eqb a "") then Clean (a ++ "/" ++ b)
  else if negb (String.eqb b "") then Clean b
  else "".

(** [filepath.Abs]; [getwd] is the answer of [os.Getwd]. *)
Definition Abs (getwd : string + string) (path : string) : string + string :=
  if IsAbs path then inr (Clean path)
  else match getwd with
       | inl err => inl err
       | inr wd => inr (Join2 wd path)
       end.

Definition elems (p : string) : list string :=
  filter (fun e => negb (String.eqb e "")) (splitSep p).

Fixpoint stripCommon (b t : list string) : list string * list string :=
  match b, t with
  | x :: b', y :: t' =>
      if String.eqb x y then stripCommon b' t' else (b, t)
  | _, _ => (b, t)
  end.

(** [filepath.Rel]; [None] is its error.  The two cleaned paths are
    compared element by element; what is left of the base is climbed
    with [..], then what is left of the target is appended. *)
Definition Rel (basepath targpath : string) : option string :=
  let base := Clean basepath in
  let targ := Clean targpath in
  if String.eqb targ base then Some "."
  else
    let base := if String.eqb base "." then "" else base in
    if negb (Bool.eqb (IsAbs base) (IsAbs targ)) then None
    else
      let '(b', t') := stripCommon (elems base) (elems targ) in
      match b', t' with
      | [], _ => Some (Join t' "/")
      | x :: _, _ :: _ =>
          if String.eqb x ".." then None
          else Some (Join (List.map (fun _ => "..") b' ++ t')%list "/")
      | _ :: _, [] => Some (Join (List.map (fun _ => "..") b') "/")
      end.

Definition hasSep (s : string) : bool := Contains s "/".

(** [path[:i+1]] for the last separator at [i]; empty without one. *)
Fixpoint uptoLastSep (s : string) : string :=
  match s with
  | EmptyString => ""
  | String c s' =>
      if hasSep s' then String c (uptoLastSep s')
      else if isSep c then String c "" else ""
  end.

(** [filepath.Dir]. *)
Definition Dir (path : string) : string := Clean (uptoLastSep path).

Fixpoint lastElem (s : string) : string :=
  match s with
  | EmptyString => ""
  | String c s' =>
      if isSep c then lastElem s'
      else if hasSep s' then lastElem s' else s
  end.

Fixpoint fromLastDot (s : string) : string :=
  match s with
  | EmptyString => ""
  | String c s' =>
      if Contains s' "." then fromLastDot s'
      else if Ascii.eqb c "."%char then s else ""
  end.

(** [filepath.Ext]. *)
Definition Ext (path : string) : string := fromLastDot (lastElem path).

End Filepath.

(** ** Package [safefs] *)

(** The operating system under the sandbox: the answers of the [os]
    calls are those of the host, whatever it is.  An error of the host
    is its message. *)
Class Host (W : Type) := {
  Getwd : W -> string + string;
  Stat : W -> string -> string + Z;
  osReadFile : W -> string -> string + string;
  MkdirAll : W -> string -> Z -> option string * W;
  osWriteFile : W -> string -> string -> Z -> option string * W
}.

Module SafeFS.
Import GoString Filepath.

(** The package errors, and an error of the host under the context
    that [fmt.Errorf("...: %w", err)] puts before it. *)
Inductive Error :=
| ErrPathOutsideBase
| ErrPathTraversal
| ErrFileTooBig
| ErrExtNotAllowed
| ErrPathDenied
| ErrInvalidPath
| ErrWrap (context : string) (cause : string).

Definition errorText (e : Error) : string :=
  match e with
  | ErrPathOutsideBase => "path outside allowed base paths"
  | ErrPathTraversal => "path traversal attempt detected"
  | ErrFileTooBig => "file exceeds maximum size limit"
  | ErrExtNotAllowed => "file extension not allowed"
  | ErrPathDenied => "path explicitly denied"
  | ErrInvalidPath => "invalid or unsafe path"
  | ErrWrap context cause => context ++ ": " ++ cause
  end.

Record Config := {
  BasePaths : list string;
  MaxFileSize : Z;
  AllowedExts : list string;
  DeniedPaths : list string;
  AuditLogger : bool
}.

(** [allowedExts] is the key set of the Go map; [auditLogger] tells
    whether a logger is configured. *)
Record SafeFS := {
  basePaths : list string;
  maxFileSize : Z;
  allowedExts : list string;
  deniedPaths : list string;
  auditLogger : bool
}.

Definition NewSafeFS `{UnicodeTables} (config : Config) : SafeFS :=
  {| basePaths := BasePaths config;
     maxFileSize := MaxFileSize config;
     allowedExts := List.map ToLower (AllowedExts config);
     deniedPaths := DeniedPaths config;
     auditLogger := AuditLogger config |}.

Definition inExts (exts : list string) (ext : string) : bool :=
  existsb (String.eqb ext) exts.

Section WithHost.
Context `{UnicodeTables} {W : Type} `{Host W}.

Definition underBase (w : W) (absPath basePath : string) : bool :=
  match Abs (Getwd w) basePath with
  | inl _ => false
  | inr absBasePath =>
      match Rel absBasePath absPath with
      | Some rel => negb (HasPrefix rel "..")
      | None => false
      end
  end.

Definition underDenied (w : W) (absPath deniedPath : string) : bool :=
  match Abs (Getwd w) deniedPath with
  | inl _ => false
  | inr absDenied => HasPrefix absPath absDenied
  end.

(** [ValidatePath]; [None] is [nil]. *)
Definition ValidatePath (fs : SafeFS) (w : W) (path : string)
  : option Error :=
  let cleanPath := Clean path in
  if Contains cleanPath ".." then Some ErrPathTraversal
  else
    match Abs (Getwd w) cleanPath with
    | inl err => Some (ErrWrap "failed to resolve absolute path" err)
    | inr absPath =>
        if negb (existsb (underBase w absPath) (basePaths fs))
        then Some ErrPathOutsideBase
        else if existsb (underDenied w absPath) (deniedPaths fs)
        then Some ErrPathDenied
        else if (0 <? Z.of_nat (List.length (allowedExts fs)))
                && negb (inExts (allowedExts fs) (ToLower (Ext absPath)))
        then Some ErrExtNotAllowed
        else None
    end.

(** [validatePathForDirectory]: the same without the extension. *)
Definition validatePathForDirectory (fs : SafeFS) (w : W) (path : string)
  : option Error :=
  let cleanPath := Clean path in
  if Contains cleanPath ".." then Some ErrPathTraversal
  else
    match Abs (Getwd w) cleanPath with
    | inl err => Some (ErrWrap "failed to resolve absolute path" err)
    | inr absPath =>
        if negb (existsb (underBase w absPath) (basePaths fs))
        then Some ErrPathOutsideBase
        else if existsb (underDenied w absPath) (deniedPaths fs)
        then Some ErrPathDenied
        else None
    end.

Record AuditRecord := {
  operation : string;
  auditPath : string;
  auditUser : string;
  success : bool;
  details : string
}.

Definition fmtInt (n : Z) : string := NilZero.string_of_int (Z.to_int n).

(** [auditLog]: a record when a logger is configured. *)
Definition auditLog (fs : SafeFS) (op path user : string) (ok : bool)
           (detail : string) : list AuditRecord :=
  if auditLogger fs
  then [ {| operation := op; auditPath := path; auditUser := user;
            success := ok; details := detail |} ]
  else [].

(** [ReadFile]: the result, and the audit records emitted. *)
Definition ReadFile (fs : SafeFS) (w : W) (path user : string)
  : (Error + string) * list AuditRecord :=
  match ValidatePath fs w path with
  | Some err => (inl err, auditLog fs "read" path user false (errorText err))
  | None =>
      match Stat w path with
      | inl err =>
          (inl (ErrWrap "failed to stat file" err),
           auditLog fs "read" path user false ("stat failed: " ++ err))
      | inr size =>
          if (0 <? maxFileSize fs) && (maxFileSize fs <? size) then
            (inl ErrFileTooBig,
             auditLog fs "read" path user false
                      ("file too big: " ++ fmtInt size ++ " bytes"))
          else
            match osReadFile w path with
            | inl err =>
                (inl (ErrWrap "failed to read file" err),
                 auditLog fs "read" path user false ("read failed: " ++ err))
            | inr data =>
                (inr data,
                 auditLog fs "read" path user true
                          ("read " ++ fmtInt (len data) ++ " bytes"))
            end
      end
  end.

(** The end of [WriteFile], after the two checks: the directory is
    made, then the file is written. *)
Definition writeThrough (fs : SafeFS) (w : W) (path user data : string)
           (perm : Z) : option Error * W * list AuditRecord :=
  let dir := Dir path in
  match MkdirAll w dir 493 with
  | (Some err, w1) =>
      (Some (ErrWrap "failed to create directory" err), w1,
       auditLog fs "write" path user false ("mkdir failed: " ++ err))
  | (None, w1) =>
      match osWriteFile w1 path data perm with
      | (Some err, w2) =>
          (Some (ErrWrap "failed to write file" err), w2,
           auditLog fs "write" path user false ("write failed: " ++ err))
      | (None, w2) =>
          (None, w2,
           auditLog fs "write" path user true
                    ("wrote " ++ fmtInt (len data) ++ " bytes"))
      end
  end.

(** [WriteFile]: the result, the host after the call, and the audit
    records emitted. *)
Definition WriteFile (fs : SafeFS) (w : W) (path user data : string)
           (perm : Z) : option Error * W * list AuditRecord :=
  match ValidatePath fs w path with
  | Some err =>
      (Some err, w, auditLog fs "write" path user false (errorText err))
  | None =>
      if (0 <? maxFileSize fs) && (maxFileSize fs <? len data) then
        (Some ErrFileTooBig, w,
         auditLog fs "write" path user false
                  ("data too big: " ++ fmtInt (len data) ++ " bytes"))
      else writeThrough fs w path user data perm
  end.

End WithHost.

End SafeFS.

(** ** Package [encoding/json]: strings *)

Module JSONString.
Import GoString.

(** [json.Marshal] coerces a string to valid UTF-8: a byte that starts
    no rune is written as the replacement rune, every rune that
    decodes is written as it is (escaped or not, it reads back the
    same).  This is the string that a decoder gets. *)
Fixpoint coerceFrom (fuel : nat) (s : string) : string :=
  match fuel with
  | O => ""
  | S fuel' =>
      match s with
      | EmptyString => ""
      | String _ _ =>
          let rw := DecodeRuneInString s in
          (if invalidStep rw then encode3 RuneError else take (snd rw) s)
            ++ coerceFrom fuel' (drop (snd rw) s)
      end
  end.

Definition coerceUTF8 (s : string) : string :=
  coerceFrom (String.length s) s.

End JSONString.

(** ** Package [auth]: identity tokens *)

(** The keyed hash of the HMAC signing methods: for the name of the
    method, the key and the signing input, the signature. *)
Class MAC (Input : Type) := {
  hmac : string -> string -> Input -> string
}.

Module Auth.
Import GoString JSONString.

(** [time.Time] is the number of nanoseconds since the epoch,
    [time.Duration] a number of nanoseconds. *)
Definition Second : Z := 1000000000.
Definition Hour : Z := 3600 * Second.

(** [jwt.NewNumericDate]: the time truncated to [jwt.TimePrecision],
    one second. *)
Definition NewNumericDate (t : Z) : Z := (t / Second) * Second.

Record RegisteredClaims := {
  Issuer : string;
  Subject : string;
  Audience : list string;
  ExpiresAt : option Z;
  NotBefore : option Z;
  IssuedAt : option Z;
  ID : string
}.

Record Claims := {
  UserID : string;
  Username : string;
  Roles : list string;
  Registered : RegisteredClaims
}.

Record JWTManager := {
  secretKey : string;
  tokenExpiry : Z;
  issuer : string;
  allowedRoles : list string
}.

Record JWTConfig := {
  SecretKey : string;
  TokenExpiry : Z;
  ConfigIssuer : string;
  AllowedRoles : list string
}.

Definition NewJWTManager (config : JWTConfig) : JWTManager :=
  {| secretKey := SecretKey config;
     tokenExpiry :=
       if TokenExpiry config =? 0 then 24 * Hour else TokenExpiry config;
     issuer :=
       if String.eqb (ConfigIssuer config) "" then "inspector-gadget-os"
       else ConfigIssuer config;
     allowedRoles := AllowedRoles config |}.

(** The header of a token: [alg] and [typ]. *)
Record Header := { alg : string; typ : string }.

(** A token string.  The compact serialisation (three base64url
    segments of JSON and of the signature) is not spelled out: a token
    string that parses is given by the header and the claims it
    decodes to and by its signature; any other string is malformed. *)
Inductive TokenString :=
| Compact (header : Header) (payload : Claims) (signature : string)
| Malformed (raw : string).

(** The claims as a reader of their JSON form gets them. *)
Definition jsonClaims (c : Claims) : Claims :=
  {| UserID := coerceUTF8 (UserID c);
     Username := coerceUTF8 (Username c);
     Roles := List.map coerceUTF8 (Roles c);
     Registered :=
       {| Issuer := coerceUTF8 (Issuer (Registered c));
          Subject := coerceUTF8 (Subject (Registered c));
          Audience := List.map coerceUTF8 (Audience (Registered c));
          ExpiresAt := ExpiresAt (Registered c);
          NotBefore := NotBefore (Registered c);
          IssuedAt := IssuedAt (Registered c);
          ID := coerceUTF8 (ID (Registered c)) |} |}.

(** The errors of package [jwt] that [ParseWithClaims] returns. *)
Inductive JWTError :=
| ErrTokenMalformed
| ErrTokenUnverifiable
| ErrTokenSignatureInvalid
| ErrTokenExpiredJWT
| ErrTokenNotValidYet
| ErrTokenExpiredAndNotValidYet.

(** The errors of package [auth]; [ErrInvalidTokenBecause] is
    [fmt.Errorf("%w: %v", ErrInvalidToken, err)]. *)
Inductive Error :=
| ErrInvalidToken
| ErrInvalidTokenBecause (cause : JWTError)
| ErrTokenExpired
| ErrMissingToken
| ErrInsufficientRole
| ErrSign (cause : string).

Definition isHMAC (a : string) : bool :=
  String.eqb a "HS256" || String.eqb a "HS384" || String.eqb a "HS512".

(** The signing methods that package [jwt] registers. *)
Definition registeredMethod (a : string) : bool :=
  isHMAC a
  || existsb (String.eqb a)
       ["RS256"; "RS384"; "RS512"; "ES256"; "ES384"; "ES512";
        "PS256"; "PS384"; "PS512"; "EdDSA"; "none"].

Section WithMAC.
Context `{MAC (Header * Claims)}.

(** [GenerateToken] at the instant [now] of [time.Now()].  Signing
    with an HMAC method and a byte key has no error to report. *)
Definition GenerateToken (j : JWTManager) (now : Z)
           (userID username : string) (roles : list string)
  : Error + TokenString :=
  let claims :=
    {| UserID := userID;
       Username := username;
       Roles := roles;
       Registered :=
         {| Issuer := issuer j;
            Subject := userID;
            Audience := [];
            ExpiresAt := Some (NewNumericDate (now + tokenExpiry j));
            NotBefore := Some (NewNumericDate now);
            IssuedAt := Some (NewNumericDate now);
            ID := "" |} |} in
  let header := {| alg := "HS256"; typ := "JWT" |} in
  let payload := jsonClaims claims in
  inr (Compact header payload (hmac "HS256" (secretKey j) (header, payload))).

(** The validator of [jwt] with no option set: [exp] and [nbf] when
    present, nothing else. *)
Definition validateClaims (now : Z) (c : Claims) : option JWTError :=
  let expired :=
    match ExpiresAt (Registered c) with
    | Some exp => negb (now <? exp)
    | None => false
    end in
  let early :=
    match NotBefore (Registered c) with
    | Some nbf => now <? nbf
    | None => false
    end in
  match expired, early with
  | true, true => Some ErrTokenExpiredAndNotValidYet
  | true, false => Some ErrTokenExpiredJWT
  | false, true => Some ErrTokenNotValidYet
  | false, false => None
  end.

(** [jwt.ParseWithClaims] with the key function of [ValidateToken]:
    the method must be registered and of the HMAC family, the
    signature must be the keyed hash of the signing input, the claims
    must be in their validity window. *)
Definition ParseWithClaims (j : JWTManager) (now : Z) (tokenString : TokenString)
  : JWTError + Claims :=
  match tokenString with
  | Malformed _ => inl ErrTokenMalformed
  | Compact header payload signature =>
      if negb (registeredMethod (alg header)) then inl ErrTokenUnverifiable
      else if negb (isHMAC (alg header)) then inl ErrTokenUnverifiable
      else if negb (String.eqb signature
                      (hmac (alg header) (secretKey j) (header, payload)))
      then inl ErrTokenSignatureInvalid
      else match validateClaims now payload with
           | Some err => inl err
           | None => inr payload
           end
  end.

Definition isExpired (e : JWTError) : bool :=
  match e with
  | ErrTokenExpiredJWT | ErrTokenExpiredAndNotValidYet => true
  | _ => false
  end.

(** [ValidateToken] at the instant [now]. *)
Definition ValidateToken (j : JWTManager) (now : Z) (tokenString : TokenString)
  : Error + Claims :=
  match ParseWithClaims j now tokenString with
  | inl err =>
      if isExpired err then inl ErrTokenExpired
      else inl (ErrInvalidTokenBecause err)
  | inr claims => inr claims
  end.

End WithMAC.

(** [CheckRole]. *)
Definition CheckRole (userRoles requiredRoles : list string) : bool :=
  if (Z.of_nat (List.length requiredRoles) =? 0) then true
  else existsb (fun userRole =>
                  existsb (fun requiredRole => String.eqb userRole requiredRole)
                          requiredRoles)
               userRoles.

End Auth.

(** ** Package [rbac]: the policy store *)

(** The storage adapter of the enforcer (a database): a call answers
    with an error or not, and leaves the database as it leaves it. *)
Class Adapter (DB : Type) := {
  adapterAddPolicy : DB -> string * string * string -> option string * DB;
  adapterSavePolicy :
    DB -> list (string * string * string) -> list (string * string)
    -> option string * DB
}.

Module RBAC.

Record Permission := {
  Subject : string;
  Object : string;
  Action : string
}.

Definition perm (s o a : string) : Permission :=
  {| Subject := s; Object := o; Action := a |}.

Definition DefaultPermissions : list Permission :=
  [ perm "role:admin" "filesystem" "read";
    perm "role:admin" "filesystem" "write";
    perm "role:admin" "filesystem" "execute";
    perm "role:admin" "system" "config";
    perm "role:admin" "system" "manage";
    perm "role:admin" "ai" "access";
    perm "role:admin" "ai" "models";
    perm "role:admin" "users" "manage";
    perm "role:admin" "roles" "manage";
    perm "role:admin" "gadgets" "execute";
    perm "role:admin" "gadgets" "manage";
    perm "role:user" "filesystem" "read";
    perm "role:user" "ai" "access";
    perm "role:user" "gadgets" "execute";
    perm "role:readonly" "filesystem" "read";
    perm "role:ai_user" "filesystem" "read";
    perm "role:ai_user" "filesystem" "write";
    perm "role:ai_user" "ai" "access";
    perm "role:ai_user" "gadgets" "execute" ].

Definition Rule : Type := string * string * string.

Definition ruleEqb (a b : Rule) : bool :=
  let '(a1, a2, a3) := a in
  let '(b1, b2, b3) := b in
  String.eqb a1 b1 && String.eqb a2 b2 && String.eqb a3 b3.

Section WithAdapter.
Context {DB : Type} `{Adapter DB}.

(** The Casbin enforcer under [DefaultModelConfig]: the rules [p],
    the role links [g], and the adapter's database. *)
Record Enforcer := {
  policy : list Rule;
  grouping : list (string * string);
  db : DB
}.

(** [enforcer.GetPolicy]. *)
Definition GetPolicy (e : Enforcer) : list Rule := policy e.

(** [enforcer.AddPolicy] with automatic saving, the default: a rule
    the model has is not added; a new rule goes to the adapter
    first, and into the model when the adapter took it. *)
Definition AddPolicy (e : Enforcer) (rule : Rule)
  : bool * option string * Enforcer :=
  if existsb (ruleEqb rule) (policy e) then (false, None, e)
  else
    match adapterAddPolicy (db e) rule with
    | (Some err, db') =>
        (false, Some err,
         {| policy := policy e; grouping := grouping e; db := db' |})
    | (None, db') =>
        (true, None,
         {| policy := (policy e ++ [rule])%list;
            grouping := grouping e; db := db' |})
    end.

(** [enforcer.SavePolicy]. *)
Definition SavePolicy (e : Enforcer) : option string * Enforcer :=
  let '(err, db') := adapterSavePolicy (db e) (policy e) (grouping e) in
  (err, {| policy := policy e; grouping := grouping e; db := db' |}).

(** The role manager: [g(a, b)] holds when [a] is [b] or reaches it
    through role links, ten levels deep at most. *)
Fixpoint hasLink (level : nat) (g : list (string * string)) (a b : string)
  : bool :=
  String.eqb a b
  || match level with
     | O => false
     | S level' =>
         existsb (fun ur => String.eqb (fst ur) a && hasLink level' g (snd ur) b) g
     end.

(** [enforcer.Enforce] under the matcher
    [g(r.sub, p.sub) && r.obj == p.obj && r.act == p.act]. *)
Definition casbinEnforce (e : Enforcer) (sub obj act : string)
  : bool * option string :=
  (existsb (fun p : Rule =>
              let '(psub, pobj, pact) := p in
              hasLink 10 (grouping e) sub psub
              && String.eqb obj pobj && String.eqb act pact)
           (policy e),
   None).

(** The loop of [initializeDefaults] over [DefaultPermissions]. *)
Fixpoint addDefaults (e : Enforcer) (perms : list Permission)
  : option string * Enforcer :=
  match perms with
  | [] => (None, e)
  | p :: rest =>
      match AddPolicy e (Subject p, Object p, Action p) with
      | (_, Some err, e') =>
          (Some ("failed to add default permission: " ++ err), e')
      | (_, None, e') => addDefaults e' rest
      end
  end.

(** [initializeDefaults]. *)
Definition initializeDefaults (e : Enforcer) : option string * Enforcer :=
  let policies := GetPolicy e in
  if 0 <? Z.of_nat (List.length policies) then (None, e)
  else
    match addDefaults e DefaultPermissions with
    | (Some err, e') => (Some err, e')
    | (None, e') =>
        match SavePolicy e' with
        | (Some err, e'') =>
            (Some ("failed to save default policies: " ++ err), e'')
        | (None, e'') => (None, e'')
        end
    end.

(** [CasbinManager.Enforce]. *)
Definition Enforce (e : Enforcer) (subject object action : string)
  : bool * option string :=
  match casbinEnforce e subject object action with
  | (_, Some err) => (false, Some ("failed to enforce policy: " ++ err))
  | (allowed, None) => (allowed, None)
  end.

(** [CasbinManager.CheckUserPermission]. *)
Definition CheckUserPermission (e : Enforcer) (user object action : string)
  : bool * option string :=
  Enforce e user object action.

Definition isNil (err : option string) : bool :=
  match err with None => true | Some _ => false end.

(** [RBACMiddleware.CheckPermission]; [claims] is what
    [auth.GetUserFromContext] finds in the request context. *)
Definition CheckPermission (e : Enforcer) (claims : option Auth.Claims)
           (object action : string) : bool :=
  match claims with
  | None => false
  | Some claims =>
      let '(allowed, err) :=
        CheckUserPermission e (Auth.Username claims) object action in
      if isNil err && allowed then true
      else
        existsb (fun role =>
                   let roleKey := "role:" ++ role in
                   let '(allowed, err) := Enforce e roleKey object action in
                   isNil err && allowed)
                (Auth.Roles claims)
  end.

(** What a middleware does with a request: hand it on, or abort with
    a status. *)
Inductive Decision := Next | Abort (status : Z) (error : string).

Fixpoint roleLoop (e : Enforcer) (roles : list string) (object action : string)
  : Decision :=
  match roles with
  | [] => Abort 403 "insufficient permissions"
  | role :: rest =>
      match Enforce e ("role:" ++ role) object action with
      | (_, Some _) => Abort 500 "role permission check failed"
      | (true, None) => Next
      | (false, None) => roleLoop e rest object action
      end
  end.

(** [RBACMiddleware.RequirePermission]. *)
Definition RequirePermission (e : Enforcer) (object action : string)
           (claims : option Auth.Claims) : Decision :=
  match claims with
  | None => Abort 401 "authentication required"
  | Some claims =>
      match CheckUserPermission e (Auth.Username claims) object action with
      | (_, Some _) => Abort 500 "permission check failed"
      | (true, None) => Next
      | (false, None) => roleLoop e (Auth.Roles claims) object action
      end
  end.

End WithAdapter.

Arguments Enforcer DB : clear implicits.

End RBAC.

(** ** Package [integration]: the gadget runner *)

(** How a command ends: [cmd.CombinedOutput] returns no error, an
    [*exec.ExitError] with the exit code, or another error. *)
Inductive CmdError :=
| NoError
| ExitError (code : Z) (text : string)
| OtherError (text : string).

(** The gadget binary on the host: for the path of the binary and its
    arguments, the combined output and the way the command ended. *)
Class GadgetHost := {
  CombinedOutput : string -> list string -> string * CmdError
}.

Module Integration.
Import GoString.

Record GadgetExecuteRequest := {
  ReqGadgetName : string;
  Args : list string;
  Flags : list string
}.

Record GadgetExecuteResponse := {
  Success : bool;
  Output : string;
  Error : string;
  ExitCode : Z;
  GadgetName : string
}.

Inductive Body :=
| ErrorBody (error : string)
| GadgetErrorBody (error gadget : string)
| ExecBody (response : GadgetExecuteResponse).

Record Response := { status : Z; body : Body }.

(** A request as the handler sees it: the route parameter [name],
    what [c.ShouldBindJSON(&req)] makes of the body (an error, or the
    request it binds), and the claims in the request context. *)
Record Context := {
  paramName : string;
  bound : string + GadgetExecuteRequest;
  userClaims : option Auth.Claims
}.

Definition allowedRune (r : Z) : bool :=
  ((97 <=? r) && (r <=? 122)) || ((65 <=? r) && (r <=? 90))
  || ((48 <=? r) && (r <=? 57)) || (r =? 45) || (r =? 95).

Fixpoint allAllowed (rs : list Z) : bool :=
  match rs with
  | [] => true
  | r :: rs' => if negb (allowedRune r) then false else allAllowed rs'
  end.

(** [isValidGadgetName]. *)
Definition isValidGadgetName (name : string) : bool :=
  if allAllowed (runes name)
  then (0 <? len name) && (len name <=? 50)
  else false.

Definition systemGadgets : list string :=
  ["sysinfo"; "network-scanner"; "process"; "hardware"].

(** [isSystemGadget]. *)
Definition isSystemGadget `{UnicodeTables} (name : string) : bool :=
  existsb (fun sg => EqualFold name sg) systemGadgets.

Section WithHost.
Context `{UnicodeTables} `{GadgetHost} {DB : Type} `{Adapter DB}.

(** [executeGadgetCommand]: the response, and the command spawned. *)
Definition executeGadgetCommand (gadgetBinaryPath gadgetName : string)
           (args : list string) (username : string)
  : GadgetExecuteResponse * list (list string) :=
  let cmdArgs := ("run" :: gadgetName :: args)%list in
  let '(output, err) := CombinedOutput gadgetBinaryPath cmdArgs in
  let response :=
    match err with
    | NoError =>
        {| Success := true; Output := output; Error := "";
           ExitCode := 0; GadgetName := gadgetName |}
    | ExitError code text =>
        {| Success := false; Output := output; Error := text;
           ExitCode := code; GadgetName := gadgetName |}
    | OtherError text =>
        {| Success := false; Output := output; Error := text;
           ExitCode := -1; GadgetName := gadgetName |}
    end in
  (response, [(gadgetBinaryPath :: cmdArgs)%list]).

(** [ExecuteGadget]: the response written, and the commands spawned
    on the way. *)
Definition ExecuteGadget (gadgetBinaryPath : string) (e : RBAC.Enforcer DB)
           (c : Context) : Response * list (list string) :=
  let gadgetName := paramName c in
  if negb (isValidGadgetName gadgetName) then
    ({| status := 400; body := ErrorBody "Invalid gadget name" |}, [])
  else
    match bound c with
    | inl err => ({| status := 400; body := ErrorBody err |}, [])
    | inr req =>
        match userClaims c with
        | None =>
            ({| status := 401; body := ErrorBody "Authentication required" |}, [])
        | Some claims =>
            if isSystemGadget gadgetName
               && negb (RBAC.CheckPermission e (userClaims c) "system" "manage")
            then
              ({| status := 403;
                  body := GadgetErrorBody "System gadgets require admin permissions"
                                          gadgetName |}, [])
            else
              let '(response, spawned) :=
                executeGadgetCommand gadgetBinaryPath gadgetName (Args req)
                                     (Auth.Username claims) in
              if Success response
              then ({| status := 200; body := ExecBody response |}, spawned)
              else ({| status := 500; body := ExecBody response |}, spawned)
        end
    end.

(** The route [POST /gadgets/:name/execute]: the middleware
    [RequirePermission("gadgets", "execute")], then the handler. *)
Definition executeRoute (gadgetBinaryPath : string) (e : RBAC.Enforcer DB)
           (c : Context) : Response * list (list string) :=
  match RBAC.RequirePermission e "gadgets" "execute" (userClaims c) with
  | RBAC.Abort status error =>
      ({| status := status; body := ErrorBody error |}, [])
  | RBAC.Next => ExecuteGadget gadgetBinaryPath e c
  end.

End WithHost.

End Integration.

(** ** Package [mcp]: the JSON-RPC message core *)

Module MCP.
Import GoString JSONString.

(** The dynamic values held by the [interface{}] fields of a message:
    [nil], the values a JSON decoder produces ([bool], [float64],
    [string], [[]interface{}], [map[string]interface{}]) and the
    integers that the clients of this package put there (the
    identifiers of [MessageIDGenerator] are [uint64]).  A map is the
    list of its entries by increasing key. *)
#[local] Unset Elimination Schemes.
Inductive GoValue :=
| GNil
| GBool (b : bool)
| GInt (n : Z)
| GUint64 (n : Z)
| GFloat64 (f : spec_float)
| GString (s : string)
| GSlice (items : list GoValue)
| GMap (entries : list (string * GoValue)).

(** A JSON text, by its syntax tree.  Strings are the decoded ones.  A
    number is the numeral of an integer, or the shortest numeral that
    reads back as a given [float64] (what [strconv] writes for it). *)
Inductive JSON :=
| JNull
| JBool (b : bool)
| JInt (n : Z)
| JFloat (f : spec_float)
| JString (s : string)
| JArray (items : list JSON)
| JObject (members : list (string * JSON)).
#[local] Set Elimination Schemes.

Definition isFinite (f : spec_float) : bool :=
  match f with
  | S754_zero _ | S754_finite _ _ _ => true
  | S754_infinity _ | S754_nan => false
  end.

(** The [float64] nearest to an integer ([strconv.ParseFloat] on its
    numeral). *)
Definition float64OfInt (n : Z) : spec_float :=
  binary_normalize 53 1024 n 0 false.

(** [json.Marshal] of a dynamic value; [None] is its error
    ([UnsupportedValueError] for a NaN or an infinity). *)
Fixpoint marshalValue (v : GoValue) : option JSON :=
  match v with
  | GNil => Some JNull
  | GBool b => Some (JBool b)
  | GInt n => Some (JInt n)
  | GUint64 n => Some (JInt n)
  | GFloat64 f => if isFinite f then Some (JFloat f) else None
  | GString s => Some (JString (coerceUTF8 s))
  | GSlice items =>
      option_map JArray
        ((fix each (l : list GoValue) : option (list JSON) :=
            match l with
            | [] => Some []
            | x :: rest =>
                match marshalValue x, each rest with
                | Some jx, Some jrest => Some (jx :: jrest)
                | _, _ => None
                end
            end) items)
  | GMap entries =>
      option_map JObject
        ((fix each (l : list (string * GoValue)) : option (list (string * JSON)) :=
            match l with
            | [] => Some []
            | (k, x) :: rest =>
                match marshalValue x, each rest with
                | Some jx, Some jrest => Some ((coerceUTF8 k, jx) :: jrest)
                | _, _ => None
                end
            end) entries)
  end.

(** Assignment [m[k] = v] on a map held by increasing key. *)
Fixpoint mapInsert (k : string) (v : GoValue) (m : list (string * GoValue))
  : list (string * GoValue) :=
  match m with
  | [] => [(k, v)]
  | (k', v') :: rest =>
      match String.compare k k' with
      | Eq => (k, v) :: rest
      | Lt => (k, v) :: m
      | Gt => (k', v') :: mapInsert k v rest
      end
  end.

(** [json.Unmarshal] into an [interface{}]: every number becomes a
    [float64], every array a [[]interface{}], every object a
    [map[string]interface{}].  [None] is its error (a numeral out of
    the range of [float64]). *)
Fixpoint toGo (j : JSON) : option GoValue :=
  match j with
  | JNull => Some GNil
  | JBool b => Some (GBool b)
  | JInt n =>
      let f := float64OfInt n in
      if isFinite f then Some (GFloat64 f) else None
  | JFloat f => if isFinite f then Some (GFloat64 f) else None
  | JString s => Some (GString s)
  | JArray items =>
      option_map GSlice
        ((fix each (l : list JSON) : option (list GoValue) :=
            match l with
            | [] => Some []
            | x :: rest =>
                match toGo x, each rest with
                | Some vx, Some vrest => Some (vx :: vrest)
                | _, _ => None
                end
            end) items)
  | JObject members =>
      option_map GMap
        ((fix each (l : list (string * JSON)) (acc : list (string * GoValue))
            : option (list (string * GoValue)) :=
            match l with
            | [] => Some acc
            | (k, x) :: rest =>
                match toGo x with
                | Some vx => each rest (mapInsert k vx acc)
                | None => None
                end
            end) members [])
  end.

(** [RPCError]. *)
Record RPCError := {
  Code : Z;
  ErrMessage : string;
  Data : GoValue
}.

(** [Message]; [Error] is a pointer, [None] when [nil]. *)
Record Message := {
  JSONRPC : string;
  ID : GoValue;
  Method : string;
  Params : GoValue;
  Result : GoValue;
  Error : option RPCError
}.

Record MCPError := {
  MCPCode : Z;
  MCPMessage : string
}.

Definition ParseError : Z := -32700.
Definition InvalidRequest : Z := -32600.
Definition MethodNotFound : Z := -32601.
Definition InvalidParams : Z := -32602.
Definition InternalError : Z := -32603.

Definition isNil (v : GoValue) : bool :=
  match v with GNil => true | _ => false end.

Definition isNilError (e : option RPCError) : bool :=
  match e with None => true | Some _ => false end.

(** [MessageIDGenerator.Next]: the counter is a [uint64]. *)
Definition Next (counter : Z) : Z * Z :=
  let counter' := (counter + 1) mod 2 ^ 64 in
  (counter', counter').

Definition CreateRequest (id : GoValue) (method : string) (params : GoValue)
  : Message :=
  {| JSONRPC := "2.0"; ID := id; Method := method; Params := params;
     Result := GNil; Error := None |}.

Definition CreateResponse (id result : GoValue) : Message :=
  {| JSONRPC := "2.0"; ID := id; Method := ""; Params := GNil;
     Result := result; Error := None |}.

Definition CreateErrorResponse (id : GoValue) (code : Z) (message : string)
           (data : GoValue) : Message :=
  {| JSONRPC := "2.0"; ID := id; Method := ""; Params := GNil;
     Result := GNil;
     Error := Some {| Code := code; ErrMessage := message; Data := data |} |}.

Definition CreateNotification (method : string) (params : GoValue) : Message :=
  {| JSONRPC := "2.0"; ID := GNil; Method := method; Params := params;
     Result := GNil; Error := None |}.

(** [IsRequest]. *)
Definition IsRequest (m : Message) : bool :=
  negb (String.eqb (Method m) "") && negb (isNil (ID m)).

(** [IsResponse]. *)
Definition IsResponse (m : Message) : bool :=
  negb (isNil (ID m)) && String.eqb (Method m) ""
  && (negb (isNil (Result m)) || negb (isNilError (Error m))).

(** [IsNotification]. *)
Definition IsNotification (m : Message) : bool :=
  negb (String.eqb (Method m) "") && isNil (ID m).

(** [IsError]. *)
Definition IsError (m : Message) : bool := negb (isNilError (Error m)).

Definition mcpError (code : Z) (message : string) : MCPError :=
  {| MCPCode := code; MCPMessage := message |}.

Definition validateRequest (msg : Message) : option MCPError :=
  if IsRequest msg then
    if String.eqb (Method msg) "" then
      Some (mcpError InvalidRequest "Request missing method")
    else if isNil (ID msg) then
      Some (mcpError InvalidRequest "Request missing ID")
    else None
  else None.

Definition validateResponse (msg : Message) : option MCPError :=
  if IsResponse msg then
    if isNil (ID msg) then
      Some (mcpError InvalidRequest "Response missing ID")
    else if isNil (Result msg) && isNilError (Error msg) then
      Some (mcpError InvalidRequest "Response missing result or error")
    else None
  else None.

(** [ValidateMessage]; [None] is [nil]. *)
Definition ValidateMessage (msg : Message) : option MCPError :=
  if negb (String.eqb (JSONRPC msg) "2.0") then
    Some (mcpError InvalidRequest "Invalid JSON-RPC version")
  else
    match validateRequest msg with
    | Some err => Some err
    | None => validateResponse msg
    end.

(** A field with [omitempty]. *)
Definition omitempty (empty : bool) (name : string) (j : JSON)
  : list (string * JSON) :=
  if empty then [] else [(name, j)].

Definition marshalRPCError (e : RPCError) : option JSON :=
  match marshalValue (Data e) with
  | None => None
  | Some jdata =>
      Some (JObject ([("code", JInt (Code e));
                      ("message", JString (coerceUTF8 (ErrMessage e)))]
                     ++ omitempty (isNil (Data e)) "data" jdata)%list)
  end.

(** [MarshalMessage]: [json.Marshal] of the message, the fields in the
    order of the struct; [None] is its error. *)
Definition MarshalMessage (msg : Message) : option JSON :=
  match marshalValue (ID msg), marshalValue (Params msg),
        marshalValue (Result msg),
        match Error msg with
        | None => Some JNull
        | Some e => marshalRPCError e
        end
  with
  | Some jid, Some jparams, Some jresult, Some jerror =>
      Some (JObject
              ([("jsonrpc", JString (coerceUTF8 (JSONRPC msg)))]
               ++ omitempty (isNil (ID msg)) "id" jid
               ++ omitempty (String.eqb (Method msg) "") "method"
                            (JString (coerceUTF8 (Method msg)))
               ++ omitempty (isNil (Params msg)) "params" jparams
               ++ omitempty (isNil (Result msg)) "result" jresult
               ++ omitempty (isNilError (Error msg)) "error" jerror)%list)
  | _, _, _, _ => None
  end.

Definition zeroRPCError : RPCError :=
  {| Code := 0; ErrMessage := ""; Data := GNil |}.

Definition zeroMessage : Message :=
  {| JSONRPC := ""; ID := GNil; Method := ""; Params := GNil;
     Result := GNil; Error := None |}.

Section Decoding.
Context `{UnicodeTables}.

(** The field that a key of the JSON object names: the decoder
    matches the names of the fields without regard to case. *)
Definition fieldOf (names : list string) (key : string) : option string :=
  List.find (fun name => EqualFold key name) names.

(** One member of the object of an [RPCError]; the flag tells
    whether the value fitted the field. *)
Definition setErrorField (e : RPCError) (key : string) (j : JSON)
  : RPCError * bool :=
  match fieldOf ["code"; "message"; "data"] key with
  | Some "code" =>
      match j with
      | JNull => (e, true)
      | JInt n =>
          if (- 2 ^ 63 <=? n) && (n <? 2 ^ 63)
          then ({| Code := n; ErrMessage := ErrMessage e; Data := Data e |}, true)
          else (e, false)
      | _ => (e, false)
      end
  | Some "message" =>
      match j with
      | JNull => (e, true)
      | JString s => ({| Code := Code e; ErrMessage := s; Data := Data e |}, true)
      | _ => (e, false)
      end
  | Some "data" =>
      match toGo j with
      | Some v => ({| Code := Code e; ErrMessage := ErrMessage e; Data := v |}, true)
      | None => (e, false)
      end
  | _ => (e, true)
  end.

Fixpoint setErrorFields (e : RPCError) (members : list (string * JSON))
  : RPCError * bool :=
  match members with
  | [] => (e, true)
  | (k, j) :: rest =>
      let '(e1, ok1) := setErrorField e k j in
      let '(e2, ok2) := setErrorFields e1 rest in
      (e2, ok1 && ok2)
  end.

(** One member of the object of a [Message]. *)
Definition setField (m : Message) (key : string) (j : JSON) : Message * bool :=
  match fieldOf ["jsonrpc"; "id"; "method"; "params"; "result"; "error"] key with
  | Some "jsonrpc" =>
      match j with
      | JNull => (m, true)
      | JString s =>
          ({| JSONRPC := s; ID := ID m; Method := Method m; Params := Params m;
              Result := Result m; Error := Error m |}, true)
      | _ => (m, false)
      end
  | Some "id" =>
      match toGo j with
      | Some v =>
          ({| JSONRPC := JSONRPC m; ID := v; Method := Method m;
              Params := Params m; Result := Result m; Error := Error m |}, true)
      | None => (m, false)
      end
  | Some "method" =>
      match j with
      | JNull => (m, true)
      | JString s =>
          ({| JSONRPC := JSONRPC m; ID := ID m; Method := s; Params := Params m;
              Result := Result m; Error := Error m |}, true)
      | _ => (m, false)
      end
  | Some "params" =>
      match toGo j with
      | Some v =>
          ({| JSONRPC := JSONRPC m; ID := ID m; Method := Method m;
              Params := v; Result := Result m; Error := Error m |}, true)
      | None => (m, false)
      end
  | Some "result" =>
      match toGo j with
      | Some v =>
          ({| JSONRPC := JSONRPC m; ID := ID m; Method := Method m;
              Params := Params m; Result := v; Error := Error m |}, true)
      | None => (m, false)
      end
  | Some "error" =>
      match j with
      | JNull =>
          ({| JSONRPC := JSONRPC m; ID := ID m; Method := Method m;
              Params := Params m; Result := Result m; Error := None |}, true)
      | JObject members =>
          let e0 := match Error m with Some e => e | None => zeroRPCError end in
          let '(e, ok) := setErrorFields e0 members in
          ({| JSONRPC := JSONRPC m; ID := ID m; Method := Method m;
              Params := Params m; Result := Result m; Error := Some e |}, ok)
      | _ => (m, false)
      end
  | _ => (m, true)
  end.

Fixpoint setFields (m : Message) (members : list (string * JSON))
  : Message * bool :=
  match members with
  | [] => (m, true)
  | (k, j) :: rest =>
      let '(m1, ok1) := setField m k j in
      let '(m2, ok2) := setFields m1 rest in
      (m2, ok1 && ok2)
  end.

(** [UnmarshalMessage]: [json.Unmarshal] into a fresh [Message];
    [None] is its error.  A member that does not fit its field is
    skipped and makes the call fail at the end. *)
Definition UnmarshalMessage (data : JSON) : option Message :=
  match data with
  | JNull => Some zeroMessage
  | JObject members =>
      let '(m, ok) := setFields zeroMessage members in
      if ok then Some m else None
  | _ => None
  end.

End Decoding.

End MCP.

(** ** Package [mcp]: the client and its transports *)

Module MCPClient.
Import GoString MCP.

(** The types that a map with [interface{}] keys can hash: a slice or a
    map as key makes the access panic. *)
Definition hashable (v : GoValue) : bool :=
  match v with
  | GSlice _ | GMap _ => false
  | _ => true
  end.

(** [==] on two interface values that can be hashed: the same dynamic
    type and the same value. *)
Definition ifaceEq (a b : GoValue) : bool :=
  match a, b with
  | GNil, GNil => true
  | GBool x, GBool y => Bool.eqb x y
  | GInt x, GInt y => x =? y
  | GUint64 x, GUint64 y => x =? y
  | GFloat64 x, GFloat64 y => SFeqb x y
  | GString x, GString y => String.eqb x y
  | _, _ => false
  end.

(** [pendingRequests]: for the id of a request, its response channel.
    The channel has room for one message: it is given by what it
    holds. *)
Definition Pending : Type := list (GoValue * option Message).

(** [c.pendingRequests[id] = respChan] with a channel just made. *)
Fixpoint register (pending : Pending) (id : GoValue) : Pending :=
  match pending with
  | [] => [(id, None)]
  | (k, ch) :: rest =>
      if ifaceEq k id then (id, None) :: rest
      else (k, ch) :: register rest id
  end.

(** The part of [sendRequest] before the wait: the id is drawn from
    the generator, the channel is registered under it, and the request
    is handed to the transport.  The result is the counter of the
    generator, the pending requests and the request sent. *)
Definition sendRequest (counter : Z) (pending : Pending) (method : string)
           (params : GoValue) : Z * Pending * Message :=
  let '(counter', id) := Next counter in
  (counter', register pending (GUint64 id),
   CreateRequest (GUint64 id) method params).

(** What [handleResponse] does with a message. *)
Inductive Delivery :=
| Delivered (pending : Pending)
| ChannelFull
| UnknownRequest
| Panic.

Fixpoint deliver (pending : Pending) (message : Message) : Delivery :=
  match pending with
  | [] => UnknownRequest
  | (k, ch) :: rest =>
      if ifaceEq k (ID message) then
        match ch with
        | None => Delivered ((k, Some message) :: rest)
        | Some _ => ChannelFull
        end
      else
        match deliver rest message with
        | Delivered rest' => Delivered ((k, ch) :: rest')
        | other => other
        end
  end.

(** [handleResponse]: the channel registered under the id of the
    message gets the message when it has room for it. *)
Definition handleResponse (pending : Pending) (message : Message) : Delivery :=
  if negb (hashable (ID message)) then Panic
  else deliver pending message.

(** What [processMessage] does with a message that was received. *)
Inductive Handling :=
| Response (delivery : Delivery)
| Notification (method : string)
| Request (reply : Message)
| Dropped.

(** [processMessage], with the reply of [handleRequest]. *)
Definition processMessage (pending : Pending) (message : Message) : Handling :=
  if IsResponse message then Response (handleResponse pending message)
  else if IsNotification message then Notification (Method message)
  else if IsRequest message then
    Request (CreateErrorResponse (ID message) MethodNotFound
                                 "Method not implemented" GNil)
  else Dropped.

(** One turn of the loop of [handleMessages] on a message that the
    transport received: a message that is not valid is dropped. *)
Definition handleMessage (pending : Pending) (message : Message) : Handling :=
  match ValidateMessage message with
  | Some _ => Dropped
  | None => processMessage pending message
  end.

End MCPClient.


Module Transport.
Import GoString MCP.

(** What a call gives back: a value, an error, or a panic of the
    runtime. *)
Inductive Outcome (A : Type) :=
| Ok (a : A)
| Err (e : string)
| Panics.

Arguments Ok {A} a.
Arguments Err {A} e.
Arguments Panics {A}.

(** [InMemoryTransport]: the two channels by the messages they hold,
    the oldest first, and whether they were closed. *)
Record InMemoryTransport := {
  incoming : list Message;
  outgoing : list Message;
  connected : bool;
  closed : bool
}.

(** The capacity of the two channels. *)
Definition capacity : Z := 100.

Definition hasRoom (channel : list Message) : bool :=
  Z.of_nat (List.length channel) <? capacity.

Definition NewInMemoryTransport : InMemoryTransport :=
  {| incoming := []; outgoing := []; connected := false; closed := false |}.

(** [Connect]. *)
Definition Connect (t : InMemoryTransport) : Outcome unit * InMemoryTransport :=
  if connected t then (Err "transport already connected", t)
  else (Ok tt, {| incoming := incoming t; outgoing := outgoing t;
                  connected := true; closed := closed t |}).

(** [Send]: a send on a closed channel panics, a send on a full one
    takes the [default] branch of the [select]. *)
Definition Send (t : InMemoryTransport) (message : Message)
  : Outcome unit * InMemoryTransport :=
  if negb (connected t) then (Err "transport not connected", t)
  else if closed t then (Panics, t)
  else if hasRoom (outgoing t) then
    (Ok tt, {| incoming := incoming t;
               outgoing := (outgoing t ++ [message])%list;
               connected := connected t; closed := closed t |})
  else (Err "outgoing channel full", t).

(** [Receive]: the oldest message of the incoming channel; a closed
    channel that is empty gives the [nil] message, with no error. *)
Definition Receive (t : InMemoryTransport)
  : Outcome (option Message) * InMemoryTransport :=
  if negb (connected t) then (Err "transport not connected", t)
  else
    match incoming t with
    | message :: rest =>
        (Ok (Some message),
         {| incoming := rest; outgoing := outgoing t;
            connected := connected t; closed := closed t |})
    | [] => if closed t then (Ok None, t)
            else (Err "no messages available", t)
    end.

(** [SendToIncoming]. *)
Definition SendToIncoming (t : InMemoryTransport) (message : Message)
  : Outcome unit * InMemoryTransport :=
  if negb (connected t) then (Err "transport not connected", t)
  else if closed t then (Panics, t)
  else if hasRoom (incoming t) then
    (Ok tt, {| incoming := (incoming t ++ [message])%list;
               outgoing := outgoing t;
               connected := connected t; closed := closed t |})
  else (Err "incoming channel full", t).

(** [ReceiveFromOutgoing]. *)
Definition ReceiveFromOutgoing (t : InMemoryTransport)
  : Outcome (option Message) * InMemoryTransport :=
  if negb (connected t) then (Err "transport not connected", t)
  else
    match outgoing t with
    | message :: rest =>
        (Ok (Some message),
         {| incoming := incoming t; outgoing := rest;
            connected := connected t; closed := closed t |})
    | [] => if closed t then (Ok None, t)
            else (Err "no messages available", t)
    end.

(** [IsConnected]. *)
Definition IsConnected (t : InMemoryTransport) : bool := connected t.

(** [Close]: closing a channel a second time panics. *)
Definition Close (t : InMemoryTransport) : Outcome unit * InMemoryTransport :=
  if negb (connected t) then (Ok tt, t)
  else if closed t then (Panics, t)
  else (Ok tt, {| incoming := incoming t; outgoing := outgoing t;
                  connected := false; closed := true |}).

(** The transports that [TransportFactory] makes, by the arguments of
    their constructors. *)
Inductive Made :=
| Stdio (command : string) (args : list string)
| Socket (network address : string)
| InMemory.

(** [config[key]] on a map held by its entries. *)
Definition index (config : list (string * GoValue)) (key : string)
  : option GoValue :=
  option_map snd (List.find (fun kv => String.eqb (fst kv) key) config).

(** The loop over [config["args"]]: the items that are strings. *)
Fixpoint stringItems (items : list GoValue) : list string :=
  match items with
  | [] => []
  | GString argStr :: rest => argStr :: stringItems rest
  | _ :: rest => stringItems rest
  end.

(** [CreateTransport]. *)
Definition CreateTransport (config : list (string * GoValue)) : string + Made :=
  match index config "type" with
  | Some (GString transportType) =>
      if String.eqb transportType "stdio" then
        match index config "command" with
        | Some (GString command) =>
            let args :=
              match index config "args" with
              | Some (GSlice argsSlice) => stringItems argsSlice
              | _ => []
              end in
            inr (Stdio command args)
        | _ => inl "stdio transport requires command"
        end
      else if String.eqb transportType "unix" then
        match index config "path" with
        | Some (GString path) => inr (Socket "unix" path)
        | _ => inl "unix transport requires path"
        end
      else if String.eqb transportType "tcp" then
        match index config "host" with
        | Some (GString host) =>
            match index config "port" with
            | Some (GInt port) =>
                inr (Socket "tcp" (host ++ ":" ++ SafeFS.fmtInt port))
            | _ => inl "tcp transport requires port"
            end
        | _ => inl "tcp transport requires host"
        end
      else if String.eqb transportType "memory" then inr InMemory
      else inl ("unsupported transport type: " ++ transportType)
  | _ => inl "transport type not specified"
  end.

End Transport.


(** ** Package [rbac]: roles, the middlewares and the start of the server *)

(** The other calls of the storage adapter. *)
Class RoleAdapter (DB : Type) := {
  adapterRemovePolicy : DB -> string * string * string -> option string * DB;
  adapterAddGrouping : DB -> string * string -> option string * DB;
  adapterRemoveGrouping : DB -> string * string -> option string * DB
}.

Module RBACManager.
Import GoString RBAC.

Record Role := {
  Name : string;
  Description : string;
  Permissions : list string
}.

Record User := {
  ID : string;
  Username : string;
  Roles : list string
}.

Definition linkEqb (a b : string * string) : bool :=
  String.eqb (fst a) (fst b) && String.eqb (snd a) (snd b).

(** The first rule that [eqb] finds is taken out. *)
Fixpoint removeFirst {A : Type} (eqb : A -> bool) (l : list A) : list A :=
  match l with
  | [] => []
  | x :: rest => if eqb x then rest else x :: removeFirst eqb rest
  end.

(** The role key without its prefix [role:]. *)
Definition cleanRole (role : string) : string :=
  if (5 <? len role) && String.eqb (take 5 role) "role:"
  then drop 5 role else role.

(** [getRoleDescription]. *)
Definition getRoleDescription (roleName : string) : string * bool :=
  if String.eqb roleName "admin"
  then ("Full system administrator with all permissions", true)
  else if String.eqb roleName "user"
  then ("Regular user with basic file and AI access", true)
  else if String.eqb roleName "readonly"
  then ("Read-only access to filesystem", true)
  else if String.eqb roleName "ai_user"
  then ("User with AI and limited file system access", true)
  else ("", false).

(** The update of [userMap] for one role link.  A Go map has no
    order: the users are kept in the order in which they come up. *)
Fixpoint addUserRole (users : list User) (username role : string) : list User :=
  match users with
  | [] => [ {| ID := username; Username := username; Roles := [role] |} ]
  | user :: rest =>
      if String.eqb (Username user) username
      then {| ID := ID user; Username := Username user;
              Roles := (Roles user ++ [role])%list |} :: rest
      else user :: addUserRole rest username role
  end.

(** The update of [roleMap] for one rule of a role. *)
Fixpoint addRolePermission (roles : list Role) (roleName permission : string)
  : list Role :=
  match roles with
  | [] =>
      let '(desc, ok) := getRoleDescription roleName in
      [ {| Name := roleName;
           Description := if ok then desc else "";
           Permissions := [permission] |} ]
  | role :: rest =>
      if String.eqb (Name role) roleName
      then {| Name := Name role; Description := Description role;
              Permissions := (Permissions role ++ [permission])%list |} :: rest
      else role :: addRolePermission rest roleName permission
  end.

(** [set[name] = true] on a set held in the order of arrival. *)
Definition setAdd (set : list string) (name : string) : list string :=
  if existsb (String.eqb name) set then set else (set ++ [name])%list.

Section WithAdapter.
Context {DB : Type} `{Adapter DB} `{RoleAdapter DB}.

(** [enforcer.RemovePolicy] with automatic saving: the adapter is
    called first, then the rule is taken out of the model when it is
    there. *)
Definition RemovePolicy (e : Enforcer DB) (rule : Rule)
  : bool * option string * Enforcer DB :=
  match adapterRemovePolicy (db e) rule with
  | (Some err, db') =>
      (false, Some err,
       {| policy := policy e; grouping := grouping e; db := db' |})
  | (None, db') =>
      (existsb (ruleEqb rule) (policy e), None,
       {| policy := removeFirst (ruleEqb rule) (policy e);
          grouping := grouping e; db := db' |})
  end.

(** [enforcer.AddRoleForUser], that is [AddGroupingPolicy]. *)
Definition AddRoleForUser (e : Enforcer DB) (user role : string)
  : bool * option string * Enforcer DB :=
  if existsb (linkEqb (user, role)) (grouping e) then (false, None, e)
  else
    match adapterAddGrouping (db e) (user, role) with
    | (Some err, db') =>
        (false, Some err,
         {| policy := policy e; grouping := grouping e; db := db' |})
    | (None, db') =>
        (true, None,
         {| policy := policy e;
            grouping := (grouping e ++ [(user, role)])%list; db := db' |})
    end.

(** [enforcer.DeleteRoleForUser], that is [RemoveGroupingPolicy]. *)
Definition DeleteRoleForUser (e : Enforcer DB) (user role : string)
  : bool * option string * Enforcer DB :=
  match adapterRemoveGrouping (db e) (user, role) with
  | (Some err, db') =>
      (false, Some err,
       {| policy := policy e; grouping := grouping e; db := db' |})
  | (None, db') =>
      (existsb (linkEqb (user, role)) (grouping e), None,
       {| policy := policy e;
          grouping := removeFirst (linkEqb (user, role)) (grouping e);
          db := db' |})
  end.

(** [enforcer.GetRolesForUser]: the roles that the user is linked to
    directly. *)
Definition GetRolesForUser (e : Enforcer DB) (user : string)
  : list string * option string :=
  (List.map snd (filter (fun g => String.eqb (fst g) user) (grouping e)), None).

(** [enforcer.GetFilteredPolicy(0, value)]: the rules whose subject is
    [value]; an empty [value] selects them all. *)
Definition GetFilteredPolicy (e : Enforcer DB) (value : string) : list Rule :=
  filter (fun p : Rule =>
            let '(psub, _, _) := p in
            String.eqb value "" || String.eqb psub value)
         (policy e).

(** [enforcer.GetGroupingPolicy]. *)
Definition GetGroupingPolicy (e : Enforcer DB) : list (string * string) :=
  grouping e.

(** [AddPermission]. *)
Definition AddPermission (e : Enforcer DB) (subject object action : string)
  : option string * Enforcer DB :=
  match AddPolicy e (subject, object, action) with
  | (_, Some err, e') => (Some ("failed to add permission: " ++ err), e')
  | (false, None, e') =>
      (Some ("permission already exists: "
             ++ subject ++ " " ++ object ++ " " ++ action), e')
  | (true, None, e') => (None, e')
  end.

(** [RemovePermission]. *)
Definition RemovePermission (e : Enforcer DB) (subject object action : string)
  : option string * Enforcer DB :=
  match RemovePolicy e (subject, object, action) with
  | (_, Some err, e') => (Some ("failed to remove permission: " ++ err), e')
  | (false, None, e') =>
      (Some ("permission not found: "
             ++ subject ++ " " ++ object ++ " " ++ action), e')
  | (true, None, e') => (None, e')
  end.

(** [AssignRole]. *)
Definition AssignRole (e : Enforcer DB) (user role : string)
  : option string * Enforcer DB :=
  match AddRoleForUser e user ("role:" ++ role) with
  | (_, Some err, e') => (Some ("failed to assign role: " ++ err), e')
  | (false, None, e') =>
      (Some ("role already assigned: user " ++ user
             ++ " already has role " ++ role), e')
  | (true, None, e') => (None, e')
  end.

(** [RemoveRole]. *)
Definition RemoveRole (e : Enforcer DB) (user role : string)
  : option string * Enforcer DB :=
  match DeleteRoleForUser e user ("role:" ++ role) with
  | (_, Some err, e') => (Some ("failed to remove role: " ++ err), e')
  | (false, None, e') =>
      (Some ("role not found: user " ++ user
             ++ " does not have role " ++ role), e')
  | (true, None, e') => (None, e')
  end.

(** [GetUserRoles]. *)
Definition GetUserRoles (e : Enforcer DB) (user : string)
  : list string * option string :=
  match GetRolesForUser e user with
  | (_, Some err) => ([], Some ("failed to get user roles: " ++ err))
  | (roles, None) => (List.map cleanRole roles, None)
  end.

(** [GetRolePermissions]. *)
Definition GetRolePermissions (e : Enforcer DB) (role : string)
  : list Permission * option string :=
  let roleKey := "role:" ++ role in
  let policies := GetFilteredPolicy e roleKey in
  (List.map (fun p : Rule => let '(s, o, a) := p in perm s o a) policies, None).

(** [GetAllUsers]. *)
Definition GetAllUsers (e : Enforcer DB) : list User * option string :=
  (fold_left (fun users g => addUserRole users (fst g) (cleanRole (snd g)))
             (GetGroupingPolicy e) [],
   None).

Definition isRoleKey (subject : string) : bool :=
  (5 <? len subject) && String.eqb (take 5 subject) "role:".

(** [GetAllRoles]. *)
Definition GetAllRoles (e : Enforcer DB) : list Role * option string :=
  (fold_left (fun roles (p : Rule) =>
                let '(psub, pobj, pact) := p in
                if isRoleKey psub
                then addRolePermission roles (drop 5 psub) (pobj ++ ":" ++ pact)
                else roles)
             (GetPolicy e) [],
   None).

(** [CheckUserRole]. *)
Definition CheckUserRole (e : Enforcer DB) (user role : string)
  : bool * option string :=
  match GetUserRoles e user with
  | (_, Some err) => (false, Some err)
  | (roles, None) => (existsb (fun userRole => String.eqb userRole role) roles, None)
  end.

(** [getRoleNames]. *)
Definition getRoleNames (e : Enforcer DB) : list string :=
  fold_left (fun roleSet (p : Rule) =>
               let '(psub, _, _) := p in
               if isRoleKey psub then setAdd roleSet (drop 5 psub) else roleSet)
            (GetPolicy e) [].

(** [getUserNames]. *)
Definition getUserNames (e : Enforcer DB) : list string :=
  fold_left (fun userSet g => setAdd userSet (fst g)) (GetGroupingPolicy e) [].

Record PolicyStats := {
  policies : Z;
  groupings : Z;
  roles : Z;
  users : Z
}.

(** [GetPolicyStats]. *)
Definition GetPolicyStats (e : Enforcer DB) : PolicyStats :=
  {| policies := Z.of_nat (List.length (GetPolicy e));
     groupings := Z.of_nat (List.length (GetGroupingPolicy e));
     roles := Z.of_nat (List.length (getRoleNames e));
     users := Z.of_nat (List.length (getUserNames e)) |}.

(** [RBACMiddleware.RequireRole]. *)
Definition RequireRole (e : Enforcer DB) (requiredRole : string)
           (claims : option Auth.Claims) : Decision :=
  match claims with
  | None => Abort 401 "authentication required"
  | Some claims =>
      match CheckUserRole e (Auth.Username claims) requiredRole with
      | (_, Some _) => Abort 500 "role check failed"
      | (false, None) => Abort 403 "insufficient role"
      | (true, None) => Next
      end
  end.

Fixpoint anyRoleLoop (e : Enforcer DB) (username : string) (roles : list string)
  : Decision :=
  match roles with
  | [] => Abort 403 "insufficient role"
  | requiredRole :: rest =>
      match CheckUserRole e username requiredRole with
      | (_, Some _) => anyRoleLoop e username rest
      | (true, None) => Next
      | (false, None) => anyRoleLoop e username rest
      end
  end.

(** [RBACMiddleware.RequireAnyRole]. *)
Definition RequireAnyRole (e : Enforcer DB) (roles : list string)
           (claims : option Auth.Claims) : Decision :=
  match claims with
  | None => Abort 401 "authentication required"
  | Some claims => anyRoleLoop e (Auth.Username claims) roles
  end.

Fixpoint allRolesLoop (e : Enforcer DB) (username : string) (roles : list string)
  : Decision :=
  match roles with
  | [] => Next
  | requiredRole :: rest =>
      match CheckUserRole e username requiredRole with
      | (true, None) => allRolesLoop e username rest
      | _ => Abort 403 "insufficient roles"
      end
  end.

(** [RBACMiddleware.RequireAllRoles]. *)
Definition RequireAllRoles (e : Enforcer DB) (roles : list string)
           (claims : option Auth.Claims) : Decision :=
  match claims with
  | None => Abort 401 "authentication required"
  | Some claims => allRolesLoop e (Auth.Username claims) roles
  end.

(** [RBACMiddleware.GetUserPermissions]; [inl] is the error of
    [auth.GetUserFromContext]. *)
Definition GetUserPermissions (e : Enforcer DB) (claims : option Auth.Claims)
  : string + list Permission :=
  match claims with
  | None => inl "user claims not found in context"
  | Some claims =>
      inr (fold_left
             (fun allPermissions role =>
                match GetRolePermissions e role with
                | (_, Some _) => allPermissions
                | (rolePerms, None) => (allPermissions ++ rolePerms)%list
                end)
             (Auth.Roles claims) [])
  end.

(** The handler [GetRole]: the role that it writes. *)
Definition GetRole (e : Enforcer DB) (roleName : string) : Role :=
  let '(permissions, _) := GetRolePermissions e roleName in
  let '(desc, ok) := getRoleDescription roleName in
  {| Name := roleName;
     Description := if ok then desc else "";
     Permissions :=
       List.map (fun perm => Object perm ++ ":" ++ Action perm) permissions |}.

(** The named middlewares. *)
Definition AdminOnly (e : Enforcer DB) := RequireRole e "admin".
Definition UserOrAdmin (e : Enforcer DB) := RequireAnyRole e ["user"; "admin"].
Definition FileSystemRead (e : Enforcer DB) := RequirePermission e "filesystem" "read".
Definition FileSystemWrite (e : Enforcer DB) := RequirePermission e "filesystem" "write".
Definition AIAccess (e : Enforcer DB) := RequirePermission e "ai" "access".
Definition SystemManage (e : Enforcer DB) := RequirePermission e "system" "manage".

(** [createDefaultAdmin] of the server. *)
Definition createDefaultAdmin (e : Enforcer DB) : option string * Enforcer DB :=
  match GetAllUsers e with
  | (_, Some err) => (Some err, e)
  | (users, None) =>
      if existsb (fun user => existsb (fun role => String.eqb role "admin")
                                      (Roles user))
                 users
      then (None, e)
      else AssignRole e "admin" "admin"
  end.

End WithAdapter.

End RBACManager.


(** ** Package [auth]: the middlewares *)

Module AuthHTTP.
Import GoString Auth.

(** What the middleware reads of a request: the value of the header
    [Authorization] and of the query parameter [token], each empty when
    the request has none. *)
Record Request := {
  Authorization : string;
  QueryToken : string
}.

(** [strings.TrimPrefix]. *)
Definition TrimPrefix (s prefix : string) : string :=
  if HasPrefix s prefix then drop (String.length prefix) s else s.

(** [extractToken]. *)
Definition extractToken (r : Request) : string :=
  let authHeader := Authorization r in
  if negb (String.eqb authHeader "") && HasPrefix authHeader "Bearer "
  then TrimPrefix authHeader "Bearer "
  else QueryToken r.

(** The keys that the middleware sets in the context of the request. *)
Record Keys := {
  user_claims : Claims;
  user_id : string;
  username : string;
  user_roles : list string
}.

(** What the middleware does with the request: it goes on with the
    keys set, or it is aborted with a status and an error. *)
Inductive Outcome :=
| Continue (keys : Keys)
| Aborted (status : Z) (error : Error).

Section WithMAC.
Context `{MAC (Header * Claims)}.

(** The reading of a token string by package [jwt]: its three
    segments decoded. *)
Variable parse : string -> TokenString.

(** [Middleware] at the instant [now]. *)
Definition Middleware (j : JWTManager) (now : Z) (r : Request) : Outcome :=
  let tokenString := extractToken r in
  if String.eqb tokenString "" then Aborted 401 ErrMissingToken
  else
    match ValidateToken j now (parse tokenString) with
    | inl err => Aborted 401 err
    | inr claims =>
        Continue {| user_claims := claims;
                    user_id := UserID claims;
                    username := Username claims;
                    user_roles := Roles claims |}
    end.

(** [RefreshToken]: the token is validated at [now], the new one is
    made at [now']. *)
Definition RefreshToken (j : JWTManager) (now now' : Z)
           (tokenString : TokenString) : Error + TokenString :=
  match ValidateToken j now tokenString with
  | inl err => inl err
  | inr claims =>
      GenerateToken j now' (UserID claims) (Username claims) (Roles claims)
  end.

End WithMAC.

(** [GetUserFromContext]; [keys] is [None] when the middleware did
    not run or did not let the request through. *)
Definition GetUserFromContext (keys : option Keys) : string + Claims :=
  match keys with
  | None => inl "user claims not found in context"
  | Some keys => inr (user_claims keys)
  end.

(** [JWTManager.RequireRole]. *)
Definition RequireRole (requiredRoles : list string) (keys : option Keys)
  : RBAC.Decision :=
  match keys with
  | None => RBAC.Abort 401 "authentication required"
  | Some keys =>
      if negb (CheckRole (Roles (user_claims keys)) requiredRoles)
      then RBAC.Abort 403 "insufficient role permissions"
      else RBAC.Next
  end.

End AuthHTTP.


(** ** Package [safefs]: directories and copies; the file routes of the server *)

(** The other calls of the operating system: the entries of a
    directory, each with the answer of its [Info()], and the files that
    [CopyFile] opens, creates and copies. *)
Class HostFiles (W Info File : Type) := {
  ReadDir : W -> string -> string + list (string + Info);
  osOpen : W -> string -> string + File;
  fileStat : W -> File -> string + Z;
  osCreate : W -> string -> (string + File) * W;
  ioCopy : W -> File -> File -> (string + Z) * W
}.

Module SafeFSOps.
Import GoString Filepath SafeFS.

(** The loop of [ListDir]: the entries whose [Info()] fails are
    skipped. *)
Fixpoint fileInfos {Info : Type} (entries : list (string + Info)) : list Info :=
  match entries with
  | [] => []
  | inl _ :: rest => fileInfos rest
  | inr info :: rest => info :: fileInfos rest
  end.

(** An error of [CopyFile]: a package error or an error of the host
    as [SafeFS.Error] has them, or the error of a validation under the
    context that [fmt.Errorf("...: %w", err)] puts before it. *)
Inductive CopyError :=
| Plain (err : Error)
| Validation (context : string) (cause : Error).

Definition copyErrorText (e : CopyError) : string :=
  match e with
  | Plain err => errorText err
  | Validation context cause => context ++ ": " ++ errorText cause
  end.

Section WithHost.
Context `{UnicodeTables} {W Info File : Type} `{Host W} `{HostFiles W Info File}.

(** [ListDir]: the result and the audit records emitted. *)
Definition ListDir (fs : SafeFS) (w : W) (path user : string)
  : (Error + list Info) * list AuditRecord :=
  match validatePathForDirectory fs w path with
  | Some err => (inl err, auditLog fs "list" path user false (errorText err))
  | None =>
      match ReadDir w path with
      | inl err =>
          (inl (ErrWrap "failed to read directory" err),
           auditLog fs "list" path user false ("readdir failed: " ++ err))
      | inr entries =>
          let infos := fileInfos entries in
          (inr infos,
           auditLog fs "list" path user true
                    ("listed " ++ fmtInt (Z.of_nat (List.length infos))
                     ++ " entries"))
      end
  end.

(** [CopyFile]: the result, the host after the call, and the audit
    records emitted. *)
Definition CopyFile (fs : SafeFS) (w : W) (srcPath dstPath user : string)
  : option CopyError * W * list AuditRecord :=
  let arrow := srcPath ++ " -> " ++ dstPath in
  match ValidatePath fs w srcPath with
  | Some err =>
      (Some (Validation "source path validation failed" err), w,
       auditLog fs "copy" arrow user false
                ("src validation failed: " ++ errorText err))
  | None =>
      match ValidatePath fs w dstPath with
      | Some err =>
          (Some (Validation "destination path validation failed" err), w,
           auditLog fs "copy" arrow user false
                    ("dst validation failed: " ++ errorText err))
      | None =>
          match osOpen w srcPath with
          | inl err =>
              (Some (Plain (ErrWrap "failed to open source file" err)), w,
               auditLog fs "copy" arrow user false ("open src failed: " ++ err))
          | inr srcFile =>
              match fileStat w srcFile with
              | inl err =>
                  (Some (Plain (ErrWrap "failed to stat source file" err)), w,
                   auditLog fs "copy" arrow user false
                            ("stat src failed: " ++ err))
              | inr size =>
                  if (0 <? maxFileSize fs) && (maxFileSize fs <? size) then
                    (Some (Plain ErrFileTooBig), w,
                     auditLog fs "copy" arrow user false
                              ("src file too big: " ++ fmtInt size ++ " bytes"))
                  else
                    match MkdirAll w (Dir dstPath) 493 with
                    | (Some err, w1) =>
                        (Some (Plain (ErrWrap
                                        "failed to create destination directory"
                                        err)), w1,
                         auditLog fs "copy" arrow user false
                                  ("mkdir dst failed: " ++ err))
                    | (None, w1) =>
                        match osCreate w1 dstPath with
                        | (inl err, w2) =>
                            (Some (Plain (ErrWrap
                                            "failed to create destination file"
                                            err)), w2,
                             auditLog fs "copy" arrow user false
                                      ("create dst failed: " ++ err))
                        | (inr dstFile, w2) =>
                            match ioCopy w2 dstFile srcFile with
                            | (inl err, w3) =>
                                (Some (Plain (ErrWrap
                                                "failed to copy file contents"
                                                err)), w3,
                                 auditLog fs "copy" arrow user false
                                          ("copy failed: " ++ err))
                            | (inr written, w3) =>
                                (None, w3,
                                 auditLog fs "copy" arrow user true
                                          ("copied " ++ fmtInt written
                                           ++ " bytes"))
                            end
                        end
                    end
              end
          end
      end
  end.

End WithHost.

(** What a handler of the server writes, when it does not panic. *)
Inductive Written :=
| FileRead (path content : string) (size : Z)
| FileWritten (path : string) (size : Z)
| Refused (status : Z) (error : string)
| NilClaims.

Section Routes.
Context `{UnicodeTables} {W : Type} `{Host W} {DB : Type} `{Adapter DB}.

(** The handler of [createFileReadHandler]; the query parameter
    [path] is empty when the request has none.  The user name is read
    through the claims without a test: without claims the handler
    panics. *)
Definition fileReadHandler (fs : SafeFS) (w : W) (path : string)
           (claims : option Auth.Claims) : Written * list AuditRecord :=
  if String.eqb path "" then (Refused 400 "path parameter required", [])
  else
    match claims with
    | None => (NilClaims, [])
    | Some claims =>
        match ReadFile fs w path (Auth.Username claims) with
        | (inl err, audit) => (Refused 400 (errorText err), audit)
        | (inr data, audit) => (FileRead path data (len data), audit)
        end
    end.

(** The route [GET /api/fs/read]: the middleware [FileSystemRead],
    then the handler. *)
Definition fileReadRoute (e : RBAC.Enforcer DB) (fs : SafeFS) (w : W)
           (path : string) (claims : option Auth.Claims)
  : Written * list AuditRecord :=
  match RBAC.RequirePermission e "filesystem" "read" claims with
  | RBAC.Abort status error => (Refused status error, [])
  | RBAC.Next => fileReadHandler fs w path claims
  end.

(** The handler of [createFileWriteHandler]; [bound] is what
    [c.ShouldBindJSON(&req)] makes of the body: an error, or the path
    and the content.  The file is written with the mode 0644. *)
Definition fileWriteHandler (fs : SafeFS) (w : W)
           (bound : string + string * string) (claims : option Auth.Claims)
  : Written * W * list AuditRecord :=
  match bound with
  | inl err => (Refused 400 err, w, [])
  | inr (path, content) =>
      match claims with
      | None => (NilClaims, w, [])
      | Some claims =>
          match WriteFile fs w path (Auth.Username claims) content 420 with
          | (Some err, w', audit) => (Refused 400 (errorText err), w', audit)
          | (None, w', audit) => (FileWritten path (len content), w', audit)
          end
      end
  end.

(** The route [POST /api/fs/write]: the middleware [FileSystemWrite],
    then the handler. *)
Definition fileWriteRoute (e : RBAC.Enforcer DB) (fs : SafeFS) (w : W)
           (bound : string + string * string) (claims : option Auth.Claims)
  : Written * W * list AuditRecord :=
  match RBAC.RequirePermission e "filesystem" "write" claims with
  | RBAC.Abort status error => (Refused status error, w, [])
  | RBAC.Next => fileWriteHandler fs w bound claims
  end.

End Routes.

End SafeFSOps.


(** ** The gadget framework: the manager, the command line and the binary *)

Module Gadget.
Import GoString.

(** A gadget, by what its methods return: [Run] prints a text and
    returns an error or none. *)
Record Gadget := {
  Name : string;
  Description : string;
  Install : option string;
  Run : list string -> string * option string;
  Uninstall : option string
}.

Record Info := {
  InfoName : string;
  InfoDescription : string
}.

(** [Manager]: the map [nameToGadget] by its entries. *)
Definition Manager : Type := list (string * Gadget).

Definition NewManager : Manager := [].

Inductive RegisterError :=
| GadgetIsNil
| NameIsEmpty
| AlreadyRegistered (name : string).

(** [Get]. *)
Definition Get (m : Manager) (name : string) : option Gadget :=
  option_map snd (List.find (fun kg => String.eqb (fst kg) name) m).

(** [Register]; [None] is the [nil] gadget. *)
Definition Register (m : Manager) (g : option Gadget)
  : option RegisterError * Manager :=
  match g with
  | None => (Some GadgetIsNil, m)
  | Some g =>
      let name := Name g in
      if String.eqb name "" then (Some NameIsEmpty, m)
      else
        match Get m name with
        | Some _ => (Some (AlreadyRegistered name), m)
        | None => (None, (name, g) :: m)
        end
  end.

(** The sort of [List], by increasing name.  The names of the infos
    of a manager differ, so that their order by name is the only one
    that [sort.Slice] can produce. *)
Fixpoint insertInfo (info : Info) (sorted : list Info) : list Info :=
  match sorted with
  | [] => [info]
  | first :: rest =>
      if String.ltb (InfoName info) (InfoName first)
      then info :: sorted
      else first :: insertInfo info rest
  end.

Definition sortInfos (infos : list Info) : list Info :=
  fold_right insertInfo [] infos.

(** [List]. *)
Definition List (m : Manager) : list Info :=
  sortInfos
    (List.map (fun kg => {| InfoName := Name (snd kg);
                            InfoDescription := Description (snd kg) |}) m).

Definition unknownGadget (name : string) : string := "unknown gadget: " ++ name.

(** [Manager.Install]. *)
Definition ManagerInstall (m : Manager) (name : string) : option string :=
  match Get m name with
  | None => Some (unknownGadget name)
  | Some g => Install g
  end.

(** [Manager.Run]: what is printed, and the error. *)
Definition ManagerRun (m : Manager) (name : string) (args : list string)
  : string * option string :=
  match Get m name with
  | None => ("", Some (unknownGadget name))
  | Some g => Run g args
  end.

(** [Manager.Uninstall]. *)
Definition ManagerUninstall (m : Manager) (name : string) : option string :=
  match Get m name with
  | None => Some (unknownGadget name)
  | Some g => Uninstall g
  end.

End Gadget.

Module Command.
Import GoString Gadget.

Definition newline : string := String (ascii_of_nat 10) "".

(** [fmt.Println] of one text. *)
Definition Println (s : string) : string := s ++ newline.

(** What [printHelp] prints. *)
Definition helpText : string :=
  Println "Go Go Gadget CLI"
  ++ Println ""
  ++ Println "Usage:"
  ++ Println "  go-go-gadget <command> [args...]"
  ++ Println ""
  ++ Println "Commands:"
  ++ Println "  list                       List registered gadgets"
  ++ Println "  info <name>               Show gadget details"
  ++ Println "  install <name>            Install gadget"
  ++ Println "  run <name> [args...]      Run gadget with optional args"
  ++ Println "  uninstall <name>          Uninstall gadget"
  ++ Println "  help                      Show this help"
  ++ Println ""
  ++ Println "Tip: Use 'list' to discover available gadgets.".

Fixpoint spaces (n : nat) : string :=
  match n with
  | O => ""
  | S n' => String " " (spaces n')
  end.

(** The verb [%-16s]: the text, then spaces up to 16 runes. *)
Definition padRight16 (s : string) : string :=
  s ++ spaces (16 - List.length (runes s)).

(** The line that [list] prints for a gadget. *)
Definition listLine (info : Info) : string :=
  padRight16 (InfoName info) ++ " " ++ InfoDescription info ++ newline.

(** [Execute]: what is printed, and the error; [None] is the [nil]
    manager. *)
Definition Execute (mgr : option Manager) (args : list string)
  : string * option string :=
  match mgr with
  | None => ("", Some "manager is nil")
  | Some mgr =>
      match args with
      | [] => (helpText, None)
      | cmd :: rest =>
          if String.eqb cmd "list" then
            match List mgr with
            | [] => (Println "No gadgets registered.", None)
            | infos => (String.concat "" (List.map listLine infos), None)
            end
          else if String.eqb cmd "info" then
            match rest with
            | [] => ("", Some "usage: info <name>")
            | name :: _ =>
                match Get mgr name with
                | None => ("", Some (unknownGadget name))
                | Some g =>
                    ("Name: " ++ Name g ++ newline
                     ++ "Description: " ++ Description g ++ newline, None)
                end
            end
          else if String.eqb cmd "install" then
            match rest with
            | [] => ("", Some "usage: install <name>")
            | name :: _ => ("", ManagerInstall mgr name)
            end
          else if String.eqb cmd "run" then
            match rest with
            | [] => ("", Some "usage: run <name> [args...]")
            | name :: runArgs => ManagerRun mgr name runArgs
            end
          else if String.eqb cmd "uninstall" then
            match rest with
            | [] => ("", Some "usage: uninstall <name>")
            | name :: _ => ("", ManagerUninstall mgr name)
            end
          else if String.eqb cmd "help" || String.eqb cmd "-h"
                  || String.eqb cmd "--help" then
            (helpText, None)
          else
            ("Unknown command: " ++ cmd ++ newline ++ newline ++ helpText,
             Some ("unknown command: " ++ cmd))
      end
  end.

End Command.

Module GoGoGadget.
Import GoString Gadget Command.

(** [echoGadget]. *)
Definition echoGadget : Gadget :=
  {| Name := "echo";
     Description := "Echoes provided arguments back to the console";
     Install := None;
     Run := fun args =>
       match args with
       | [] => (Println "(nothing to echo)", None)
       | _ => (String.concat "" (List.map Println args), None)
       end;
     Uninstall := None |}.

(** What the operating system makes of a command of the runner.  The
    process runs to its end; or it is not started, as for a binary that
    is missing or an argument that holds a NUL byte, and [os/exec]
    gives the error; or it is killed when the 30 seconds of the context
    of the runner are over, and the runner has what the process wrote
    until then and the error of [Wait], whose exit code is -1. *)
Inductive Launch :=
| Ran
| NotStarted (err : string)
| Killed (output err : string).

Section Binary.

(** What the gadget [sysinfo] prints: the version of Go, the system,
    the number of processors and the time of the machine it runs on. *)
Variable sysinfoText : string.

(** The operating system, for the path of the binary and the
    arguments. *)
Variable launch : string -> list string -> Launch.

(** [sysInfoGadget]. *)
Definition sysInfoGadget : Gadget :=
  {| Name := "sysinfo";
     Description := "Prints basic system information";
     Install := None;
     Run := fun _ => (sysinfoText, None);
     Uninstall := None |}.

(** [registerBuiltins]: the errors of [Register] are dropped. *)
Definition registerBuiltins (mgr : Manager) : Manager :=
  let mgr := snd (Register mgr (Some echoGadget)) in
  snd (Register mgr (Some sysInfoGadget)).

(** [main] on the arguments after the name of the binary: what the
    process prints.  The error of [Execute] is dropped, so that the
    process ends with the status 0 whatever the command did. *)
Definition main (args : list string) : string :=
  let mgr := registerBuiltins NewManager in
  fst (Execute (Some mgr) args).

(** The binary as the runner of the server sees it: the output of the
    command and the way it ended.  A process that runs to its end
    prints what [main] prints and ends with the status 0. *)
Definition binary : GadgetHost :=
  {| CombinedOutput := fun path args =>
       match launch path args with
       | Ran => (main args, NoError)
       | NotStarted err => ("", OtherError err)
       | Killed output err => (output, ExitError (-1) err)
       end |}.

End Binary.

End GoGoGadget.


(** ** Package [strings]: white space *)

Module GoSpace.
Import GoString.

(** The table [asciiSpace]. *)
Definition asciiSpace (c : Z) : bool :=
  (c =? 9) || (c =? 10) || (c =? 11) || (c =? 12) || (c =? 13) || (c =? 32).

(** [unicode.IsSpace]: the Latin-1 cases, then the table
    [White_Space]. *)
Definition IsSpace (r : Z) : bool :=
  if (0 <=? r) && (r <=? 0xFF) then
    asciiSpace r || (r =? 0x85) || (r =? 0xA0)
  else
    (r =? 0x1680) || ((0x2000 <=? r) && (r <=? 0x200A))
    || (r =? 0x2028) || (r =? 0x2029) || (r =? 0x202F)
    || (r =? 0x205F) || (r =? 0x3000).

(** [utf8.RuneStart]. *)
Definition RuneStart (b : Z) : bool := negb (Z.land b 0xC0 =? 0x80).

(** The loop of [DecodeLastRuneInString] that walks back to the start
    of a rune, [lim] at the lowest. *)
Fixpoint backToStart (fuel : nat) (s : string) (lim start : Z) : Z :=
  match fuel with
  | O => start
  | S fuel' =>
      if start <? lim then start
      else if RuneStart (byteAt s (Z.to_nat start)) then start
      else backToStart fuel' s lim (start - 1)
  end.

(** [utf8.DecodeLastRuneInString]. *)
Definition DecodeLastRuneInString (s : string) : Z * nat :=
  let endZ := len s in
  if endZ =? 0 then (RuneError, 0%nat)
  else
    let r := byteAt s (Z.to_nat (endZ - 1)) in
    if r <? RuneSelf then (r, 1%nat)
    else
      let lim := if endZ - 4 <? 0 then 0 else endZ - 4 in
      let start := backToStart 4 s lim (endZ - 2) in
      let start := if start <? 0 then 0 else start in
      let '(r, size) := DecodeRuneInString (drop (Z.to_nat start) s) in
      if start + Z.of_nat size =? endZ then (r, size) else (RuneError, 1%nat).

(** [strings.TrimLeftFunc(s, unicode.IsSpace)]. *)
Fixpoint trimLeftFrom (fuel : nat) (s : string) : string :=
  match fuel with
  | O => s
  | S fuel' =>
      match s with
      | EmptyString => ""
      | String _ _ =>
          let '(r, w) := DecodeRuneInString s in
          if IsSpace r then trimLeftFrom fuel' (drop w s) else s
      end
  end.

Definition TrimLeftSpace (s : string) : string :=
  trimLeftFrom (String.length s) s.

(** The loop of [lastIndexFunc(s, unicode.IsSpace, false)] on
    [s[0:i]]: the index of the last rune that is no space, or -1. *)
Fixpoint lastNonSpace (fuel : nat) (s : string) : Z :=
  match fuel with
  | O => -1
  | S fuel' =>
      match s with
      | EmptyString => -1
      | String _ _ =>
          let '(r, size) := DecodeLastRuneInString s in
          let i := len s - Z.of_nat size in
          if negb (IsSpace r) then i
          else lastNonSpace fuel' (take (Z.to_nat i) s)
      end
  end.

(** [strings.TrimRightFunc(s, unicode.IsSpace)]. *)
Definition TrimRightSpace (s : string) : string :=
  let i := lastNonSpace (String.length s) s in
  let stop :=
    if (0 <=? i) && (RuneSelf <=? byteAt s (Z.to_nat i))
    then i + Z.of_nat (snd (DecodeRuneInString (drop (Z.to_nat i) s)))
    else i + 1 in
  take (Z.to_nat stop) s.

(** The second loop of [TrimSpace], from the end of a string whose
    front was trimmed. *)
Fixpoint trimBack (fuel : nat) (s : string) : string :=
  match fuel with
  | O => s
  | S fuel' =>
      match s with
      | EmptyString => ""
      | String _ _ =>
          let c := byteAt s (String.length s - 1) in
          if RuneSelf <=? c then TrimRightSpace s
          else if asciiSpace c
          then trimBack fuel' (take (String.length s - 1) s)
          else s
      end
  end.

(** The first loop of [TrimSpace], from the front. *)
Fixpoint trimFront (s : string) : string :=
  match s with
  | EmptyString => ""
  | String c rest =>
      if RuneSelf <=? byteZ c then TrimRightSpace (TrimLeftSpace s)
      else if asciiSpace (byteZ c) then trimFront rest
      else trimBack (String.length s) s
  end.

(** [strings.TrimSpace]. *)
Definition TrimSpace (s : string) : string := trimFront s.

(** [strings.Split(s, sep)] for a separator of one byte. *)
Fixpoint Split (s : string) (sep : ascii) : list string :=
  match s with
  | EmptyString => [""]
  | String c rest =>
      if Ascii.eqb c sep then "" :: Split rest sep
      else match Split rest sep with
           | piece :: pieces => String c piece :: pieces
           | [] => [String c ""]
           end
  end.

(** The loop of [strings.FieldsFunc(s, unicode.IsSpace)]: [current]
    holds the bytes of the field that is open. *)
Fixpoint fieldsFrom (fuel : nat) (s : string) (current : option string)
  : list string :=
  match fuel, s with
  | S fuel', String _ _ =>
      let '(r, w) := DecodeRuneInString s in
      if IsSpace r then
        match current with
        | Some field => field :: fieldsFrom fuel' (drop w s) None
        | None => fieldsFrom fuel' (drop w s) None
        end
      else
        fieldsFrom fuel' (drop w s)
                   (Some (match current with
                          | Some field => field ++ take w s
                          | None => take w s
                          end))
  | _, _ => match current with Some field => [field] | None => [] end
  end.

(** [strings.Fields]: the runs of runes that are no spaces.  On a
    string of ASCII the loop on bytes of the source finds the same
    runs. *)
Definition Fields (s : string) : list string :=
  fieldsFrom (String.length s) s None.

End GoSpace.


(** ** Package [integration]: the other handlers *)

(** [cmd.Output()] of the gadget binary: what it prints on its
    standard output, and the way it ended. *)
Class GadgetOutput := {
  cmdOutput : string -> list string -> string * CmdError
}.

Module GadgetAPI.
Import GoString GoSpace Integration.

Record GadgetInfo := {
  Name : string;
  Description : string;
  Category : string;
  Version : string;
  Author : string
}.

Record GadgetListResponse := {
  Gadgets : list GadgetInfo;
  Count : Z
}.

Definition newline : ascii := ascii_of_nat 10.

(** The body of the loop of [parseGadgetList] for one line. *)
Definition parseLine (line : string) : list GadgetInfo :=
  let line := TrimSpace line in
  if String.eqb line "" || HasPrefix line "Go Go Gadget" then []
  else
    match Fields line with
    | [] => []
    | name :: rest =>
        [ {| Name := name; Description := Join rest " ";
             Category := ""; Version := ""; Author := "" |} ]
    end.

(** [parseGadgetList]. *)
Definition parseGadgetList (output : string) : list GadgetInfo :=
  let lines := Split (TrimSpace output) newline in
  List.flat_map parseLine lines.


(** What the handlers write. *)
Inductive Body :=
| ErrorBody (error : string)
| ErrorDetails (error details : string)
| GadgetErrorBody (error gadget : string)
| ListBody (response : GadgetListResponse)
| InfoBody (info : GadgetInfo)
| ExecBody (response : GadgetExecuteResponse).

Inductive Written :=
| Responded (status : Z) (body : Body)
| NilClaims.

Definition cmdErrorText (err : CmdError) : string :=
  match err with
  | NoError => ""
  | ExitError _ text => text
  | OtherError text => text
  end.

Definition failed (err : CmdError) : bool :=
  match err with NoError => false | _ => true end.

Section WithHost.
Context `{UnicodeTables} `{GadgetHost} `{GadgetOutput}.

(** [ListGadgets]: the response, and the commands spawned. *)
Definition ListGadgets (gadgetBinaryPath : string)
  : Written * list (list string) :=
  let '(output, err) := cmdOutput gadgetBinaryPath ["list"] in
  let spawned := [[gadgetBinaryPath; "list"]] in
  if failed err then
    (Responded 500 (ErrorDetails "Failed to list gadgets" (cmdErrorText err)),
     spawned)
  else
    let gadgets := parseGadgetList output in
    (Responded 200 (ListBody {| Gadgets := gadgets;
                                Count := Z.of_nat (List.length gadgets) |}),
     spawned).




(** The function [list_gadgets] of [GetGadgetsBridge]. *)
Definition bridgeList (gadgetBinaryPath : string)
  : CmdError + list GadgetInfo :=
  let '(output, err) := cmdOutput gadgetBinaryPath ["list"] in
  if failed err then inl err else inr (parseGadgetList output).

(** [HealthCheck]. *)
Definition HealthCheck (gadgetBinaryPath : string) : CmdError :=
  snd (cmdOutput gadgetBinaryPath ["list"]).

End WithHost.

End GadgetAPI.

(** ** Hosts on which the definitions are evaluated *)

(** Unicode tables that leave every rune outside ASCII alone. *)
Definition asciiTables : UnicodeTables :=
  {| simpleFoldOther := fun r => r; toLowerOther := fun r => r |}.

(** A host whose file system is the list of its files, with [/srv] as
    working directory and no failing call but on a missing file. *)
Definition lookupFile (w : list (string * string)) (path : string)
  : string + string :=
  match List.find (fun f => String.eqb (fst f) path) w with
  | Some f => inr (snd f)
  | None => inl "no such file or directory"
  end.

Definition memoryHost : Host (list (string * string)) :=
  {| Getwd := fun _ => inr "/srv";
     Stat := fun w path =>
       match lookupFile w path with
       | inr data => inr (GoString.len data)
       | inl err => inl err
       end;
     osReadFile := lookupFile;
     MkdirAll := fun w _ _ => (None, w);
     osWriteFile := fun w path data _ => (None, (path, data) :: w) |}.

(** A keyed hash for the evaluation of tokens: the method, the key and
    the text claims side by side. *)
Definition plainMAC : MAC (Auth.Header * Auth.Claims) :=
  {| hmac := fun method key input =>
       method ++ "." ++ key ++ "."
       ++ Auth.UserID (snd input) ++ "."
       ++ Auth.Issuer (Auth.Registered (snd input)) |}.

(** An adapter that keeps the rules in a list and never fails. *)
Definition listAdapter : Adapter (list (string * string * string)) :=
  {| adapterAddPolicy := fun db rule => (None, (db ++ [rule])%list);
     adapterSavePolicy := fun db rules _ => (None, rules) |}.

(** A gadget binary that prints its arguments and exits with 0. *)
Definition echoHost : GadgetHost :=
  {| CombinedOutput := fun _ args => (GoString.Join args " ", NoError) |}.

(** ** Notions of the specification and inputs of the examples *)

Section SafeFSInputs.
Import GoString Filepath SafeFS.

Definition tmpSandbox : SafeFS :=
  @NewSafeFS asciiTables
    {| BasePaths := ["/tmp"]; MaxFileSize := 10; AllowedExts := [];
       DeniedPaths := []; AuditLogger := true |}.

End SafeFSInputs.

Section AuthInputs.
Import GoString Auth.

Definition serverJWT : JWTManager :=
  NewJWTManager {| SecretKey := "server-secret"; TokenExpiry := 0;
                   ConfigIssuer := ""; AllowedRoles := ["admin"; "user"] |}.

Definition hs256 : Header := {| alg := "HS256"; typ := "JWT" |}.

Definition foreignClaims : Claims :=
  {| UserID := "mallory"; Username := "mallory"; Roles := ["admin"];
     Registered :=
       {| Issuer := "someone-else"; Subject := "mallory"; Audience := [];
          ExpiresAt := Some (2000 * Second); NotBefore := None;
          IssuedAt := None; ID := "" |} |}.

Definition foreignToken : TokenString :=
  Compact hs256 foreignClaims
          (@hmac _ plainMAC "HS256" (secretKey serverJWT) (hs256, foreignClaims)).

(** A user id that is not valid UTF-8, the byte 0xFF before [bob], and
    the same with U+FFFD, in its three bytes, for that byte. *)
Definition brokenName : string := String (ascii_of_nat 255) "bob".

Definition replacedName : string :=
  String (ascii_of_nat 239)
         (String (ascii_of_nat 191) (String (ascii_of_nat 189) "bob")).

End AuthInputs.

Section RBACNotions.
Import RBAC.

Definition ruleOf (p : Permission) : Rule := (Subject p, Object p, Action p).

(** The rules that a run of [AddPolicy] over [rules] leaves in the
    model when the adapter takes them all. *)
Definition addAll (start rules : list Rule) : list Rule :=
  fold_left (fun acc rule =>
               if existsb (ruleEqb rule) acc then acc else (acc ++ [rule])%list)
            rules start.

End RBACNotions.

Section RBACInputs.
Import RBAC.

Definition emptyStore : Enforcer (list Rule) :=
  {| policy := []; grouping := [("alice", "role:admin")]; db := [] |}.

Definition seededStore : Enforcer (list Rule) :=
  snd (@initializeDefaults _ listAdapter emptyStore).

End RBACInputs.

(** The alphabet of gadget names, as the specification gives it. *)
Definition nameAlphabet : string :=
  "ABCDEFGHIJKLMNOPQRSTUVWXYZabcdefghijklmnopqrstuvwxyz0123456789_-".

Definition nameChar (c : ascii) : bool :=
  existsb (Ascii.eqb c) (list_ascii_of_string nameAlphabet).

(** A name of 1 to 50 characters of the alphabet. *)
Definition nameAccepted (name : string) : bool :=
  (1 <=? String.length name)%nat && (String.length name <=? 50)%nat
  && forallb nameChar (list_ascii_of_string name).

(** The runes that are equal, up to case, to an ASCII character that is
    not an upper-case letter: the character, its upper-case form, and
    for k and s the Kelvin sign and the long s. *)
Definition foldClass (c : Z) : list Z :=
  if c =? 0x6B then [0x6B; 0x4B; 0x212A]
  else if c =? 0x73 then [0x73; 0x53; 0x17F]
  else if GoString.isLowerASCII c then [c; c - 32]
  else [c].

Definition inClass (r c : Z) : bool := existsb (Z.eqb r) (foldClass c).

Fixpoint sameFolded (rs : list Z) (t : string) : bool :=
  match rs, t with
  | [], EmptyString => true
  | r :: rs', String c t' => inClass r (GoString.byteZ c) && sameFolded rs' t'
  | _, _ => false
  end.

Definition plainByte (c : Z) : bool := GoString.isLowerASCII c || (c =? 45).

(** The name of a system gadget: lower-case letters and hyphens. *)
Definition plainName (t : string) : bool :=
  forallb (fun c => plainByte (GoString.byteZ c)) (list_ascii_of_string t).

Ltac split_cmp :=
  match goal with
  | |- context [?a <? ?b] => destruct (Z.ltb_spec a b)
  | |- context [?a <=? ?b] => destruct (Z.leb_spec a b)
  | |- context [?a =? ?b] => destruct (Z.eqb_spec a b)
  end; try lia.

Ltac bool_steps :=
  repeat (cbv beta iota delta [GoString.isUpperASCII GoString.isLowerASCII
                                 inClass foldClass existsb GoString.RuneSelf
                                 andb orb negb plainByte];
          try reflexivity; split_cmp).

(** The lower-case form of a name, letter by letter in ASCII: [name] is
    a case variant of [sg] when its lower-case form is [sg]. *)
Definition asciiLowerByte (c : ascii) : ascii :=
  if GoString.isUpperASCII (GoString.byteZ c)
  then GoString.zByte (GoString.byteZ c + 32) else c.

Fixpoint asciiLower (s : string) : string :=
  match s with
  | EmptyString => EmptyString
  | String c s' => String (asciiLowerByte c) (asciiLower s')
  end.

(** Equality of a name with the name of a system gadget without regard
    to case, rune by rune. *)
Definition equalIgnoringCase (name sg : string) : bool :=
  sameFolded (GoString.runes name) sg.

(** The values that a JSON decoder produces for an [interface{}]:
    [nil], [bool], finite [float64], [string] in valid UTF-8, and slices
    and maps of such values, the keys of a map in valid UTF-8 and
    strictly increasing. *)
Fixpoint sortedKeys (ks : list string) : bool :=
  match ks with
  | [] => true
  | k :: rest => forallb (fun k' => String.ltb k k') rest && sortedKeys rest
  end.

Fixpoint native (v : MCP.GoValue) : bool :=
  match v with
  | MCP.GNil => true
  | MCP.GBool _ => true
  | MCP.GInt _ => false
  | MCP.GUint64 _ => false
  | MCP.GFloat64 f => MCP.isFinite f
  | MCP.GString s => GoString.ValidString s
  | MCP.GSlice items => forallb native items
  | MCP.GMap entries =>
      forallb (fun kv => GoString.ValidString (fst kv) && native (snd kv)) entries
      && sortedKeys (List.map fst entries)
  end.

Definition nativeError (e : option MCP.RPCError) : bool :=
  match e with
  | None => true
  | Some e =>
      (- 2 ^ 63 <=? MCP.Code e) && (MCP.Code e <? 2 ^ 63)
      && GoString.ValidString (MCP.ErrMessage e) && native (MCP.Data e)
  end.

(** A frame made of such values, its strings in valid UTF-8. *)
Definition nativeMessage (m : MCP.Message) : bool :=
  GoString.ValidString (MCP.JSONRPC m) && native (MCP.ID m)
  && GoString.ValidString (MCP.Method m) && native (MCP.Params m)
  && native (MCP.Result m) && nativeError (MCP.Error m).

(** The loops of [marshalValue] and [toGo] over the items of a slice
    and the entries of a map. *)
Definition marshalItems : list MCP.GoValue -> option (list MCP.JSON) :=
  fix each (l : list MCP.GoValue) : option (list MCP.JSON) :=
    match l with
    | [] => Some []
    | x :: rest =>
        match MCP.marshalValue x, each rest with
        | Some jx, Some jrest => Some (jx :: jrest)
        | _, _ => None
        end
    end.

Definition marshalEntries
  : list (string * MCP.GoValue) -> option (list (string * MCP.JSON)) :=
  fix each (l : list (string * MCP.GoValue)) : option (list (string * MCP.JSON)) :=
    match l with
    | [] => Some []
    | (k, x) :: rest =>
        match MCP.marshalValue x, each rest with
        | Some jx, Some jrest => Some ((JSONString.coerceUTF8 k, jx) :: jrest)
        | _, _ => None
        end
    end.

Definition toGoItems : list MCP.JSON -> option (list MCP.GoValue) :=
  fix each (l : list MCP.JSON) : option (list MCP.GoValue) :=
    match l with
    | [] => Some []
    | x :: rest =>
        match MCP.toGo x, each rest with
        | Some vx, Some vrest => Some (vx :: vrest)
        | _, _ => None
        end
    end.

Definition toGoMembers
  : list (string * MCP.JSON) -> list (string * MCP.GoValue)
    -> option (list (string * MCP.GoValue)) :=
  fix each (l : list (string * MCP.JSON)) (acc : list (string * MCP.GoValue))
    : option (list (string * MCP.GoValue)) :=
    match l with
    | [] => Some acc
    | (k, x) :: rest =>
        match MCP.toGo x with
        | Some vx => each rest (MCP.mapInsert k vx acc)
        | None => None
        end
    end.

Section GoValueInduction.
Import MCP.
Variable P : GoValue -> Prop.
Hypothesis HNil : P GNil.
Hypothesis HBool : forall b, P (GBool b).
Hypothesis HInt : forall n, P (GInt n).
Hypothesis HUint64 : forall n, P (GUint64 n).
Hypothesis HFloat64 : forall f, P (GFloat64 f).
Hypothesis HString : forall s, P (GString s).
Hypothesis HSlice : forall items, Forall P items -> P (GSlice items).
Hypothesis HMap :
  forall entries, Forall (fun kv => P (snd kv)) entries -> P (GMap entries).

Fixpoint GoValue_induction (v : GoValue) : P v :=
  match v with
  | GNil => HNil
  | GBool b => HBool b
  | GInt n => HInt n
  | GUint64 n => HUint64 n
  | GFloat64 f => HFloat64 f
  | GString s => HString s
  | GSlice items =>
      HSlice items
        ((fix all (l : list GoValue) : Forall P l :=
            match l with
            | [] => Forall_nil P
            | x :: rest => Forall_cons x (GoValue_induction x) (all rest)
            end) items)
  | GMap entries =>
      HMap entries
        ((fix all (l : list (string * GoValue))
            : Forall (fun kv => P (snd kv)) l :=
            match l with
            | [] => Forall_nil _
            | kv :: rest =>
                Forall_cons kv (GoValue_induction (snd kv)) (all rest)
            end) entries)
  end.

End GoValueInduction.

Section FrameInputs.
Import GoString MCP.

(** The first request of a client: its id comes from the generator. *)
Definition listToolsRequest : Message :=
  CreateRequest (GUint64 (fst (Next 0))) "tools/list" GNil.

Definition bothResultAndError : Message :=
  {| JSONRPC := "2.0"; ID := GString "req-1"; Method := ""; Params := GNil;
     Result := GString "ok";
     Error := Some {| Code := InternalError; ErrMessage := "failed";
                      Data := GNil |} |}.

Definition toolResponse : Message :=
  CreateResponse (GString "req-1")
                 (GMap [("content", GSlice [GString "hi"]);
                        ("isError", GBool false)]).

End FrameInputs.

Section GadgetInputs.
Import GoString Integration.

Definition bobClaims : Auth.Claims :=
  {| Auth.UserID := "u-2"; Auth.Username := "bob"; Auth.Roles := ["user"];
     Auth.Registered :=
       {| Auth.Issuer := "inspector-gadget-os"; Auth.Subject := "u-2";
          Auth.Audience := []; Auth.ExpiresAt := None; Auth.NotBefore := None;
          Auth.IssuedAt := None; Auth.ID := "" |} |}.

Definition gadgetBinary : string := "/usr/local/bin/go-go-gadget".

Definition helloRequest : GadgetExecuteRequest :=
  {| ReqGadgetName := "echo"; Args := ["hi"]; Flags := [] |}.

(** Requests of bob on the route [POST /gadgets/:name/execute]:
    [process] with a body that does not bind, [SysInfo] and [echo] with
    one that does, and a name that is not valid.  (The name [sysinfo],
    in lower case, has a route of its own in [RegisterRoutes].) *)
Definition processUnbound : Context :=
  {| paramName := "process"; bound := inl "EOF"; userClaims := Some bobClaims |}.

Definition sysinfoBound : Context :=
  {| paramName := "SysInfo"; bound := inr helloRequest;
     userClaims := Some bobClaims |}.

Definition echoBound : Context :=
  {| paramName := "echo"; bound := inr helloRequest;
     userClaims := Some bobClaims |}.

Definition shellBound : Context :=
  {| paramName := "echo;ls"; bound := inr helloRequest;
     userClaims := Some bobClaims |}.

Definition forbidden (name : string) : Response :=
  {| status := 403;
     body := GadgetErrorBody "System gadgets require admin permissions" name |}.

End GadgetInputs.


(** ** Further notions and inputs *)

Section JSONInduction.
Import MCP.
Variable P : JSON -> Prop.
Hypothesis HNull : P JNull.
Hypothesis HBool : forall b, P (JBool b).
Hypothesis HInt : forall n, P (JInt n).
Hypothesis HFloat : forall f, P (JFloat f).
Hypothesis HString : forall s, P (JString s).
Hypothesis HArray : forall items, Forall P items -> P (JArray items).
Hypothesis HObject :
  forall members, Forall (fun kj => P (snd kj)) members -> P (JObject members).

Fixpoint JSON_induction (j : JSON) : P j :=
  match j with
  | JNull => HNull
  | JBool b => HBool b
  | JInt n => HInt n
  | JFloat f => HFloat f
  | JString s => HString s
  | JArray items =>
      HArray items
        ((fix all (l : list JSON) : Forall P l :=
            match l with
            | [] => Forall_nil P
            | x :: rest => Forall_cons x (JSON_induction x) (all rest)
            end) items)
  | JObject members =>
      HObject members
        ((fix all (l : list (string * JSON))
            : Forall (fun kj => P (snd kj)) l :=
            match l with
            | [] => Forall_nil _
            | kj :: rest =>
                Forall_cons kj (JSON_induction (snd kj)) (all rest)
            end) members)
  end.

End JSONInduction.

Section FrameNotions.
Import MCP MCPClient Transport.

(** The dynamic values that hold no Go integer, and no float that
    JSON cannot write. *)
Fixpoint fromJSON (v : GoValue) : bool :=
  match v with
  | GNil | GBool _ | GString _ => true
  | GInt _ | GUint64 _ => false
  | GFloat64 f => isFinite f
  | GSlice items => forallb fromJSON items
  | GMap entries => forallb (fun kv => fromJSON (snd kv)) entries
  end.

Definition fromJSONError (e : option RPCError) : bool :=
  match e with
  | None => true
  | Some e => fromJSON (Data e)
  end.

Definition fromJSONMessage (m : Message) : bool :=
  fromJSON (ID m) && fromJSON (Params m) && fromJSON (Result m)
  && fromJSONError (Error m).

Definition isUint64 (v : GoValue) : bool :=
  match v with GUint64 _ => true | _ => false end.

(** The pending requests of a client: [sendRequest] is the one place
    that writes to them, under the ids of the generator. *)
Definition registeredByClient (pending : Pending) : bool :=
  forallb (fun kc => isUint64 (fst kc)) pending.

(** The first [n] ids of a generator whose counter is [counter]. *)
Fixpoint ids (n : nat) (counter : Z) : list Z :=
  match n with
  | O => []
  | S n' => let '(counter', id) := Next counter in id :: ids n' counter'
  end.

(** The messages sent one after the other; the first failure stops
    the run. *)
Fixpoint sendAll (t : InMemoryTransport) (messages : list Message)
  : Outcome unit * InMemoryTransport :=
  match messages with
  | [] => (Ok tt, t)
  | message :: rest =>
      match Send t message with
      | (Ok _, t') => sendAll t' rest
      | failure => failure
      end
  end.

(** [n] calls of [ReceiveFromOutgoing]: the messages they return. *)
Fixpoint drain (n : nat) (t : InMemoryTransport) : list (option Message) :=
  match n with
  | O => []
  | S n' =>
      match ReceiveFromOutgoing t with
      | (Ok message, t') => message :: drain n' t'
      | _ => []
      end
  end.

End FrameNotions.

Section PermissionNotions.
Import RBAC.

(** A rule that grants [(sub, obj, act)] under the role links of the
    enforcer: its subject is [sub] or a role that [sub] reaches, its
    object and its action are the ones asked for. *)
Definition grants {DB : Type} (e : Enforcer DB) (sub obj act : string)
           (p : Rule) : bool :=
  let '(psub, pobj, pact) := p in
  hasLink 10 (grouping e) sub psub && String.eqb obj pobj && String.eqb act pact.

(** The subjects under which a caller is checked: the user name, and
    every role of the token behind the prefix [role:]. *)
Definition subjectsOf (claims : Auth.Claims) : list string :=
  Auth.Username claims
  :: List.map (fun role => "role:" ++ role) (Auth.Roles claims).

(** The permissions of a role as texts [object:action], from the
    rules of its key in their order. *)
Definition permissionTexts (rules : list Rule) (name : string) : list string :=
  List.map (fun p : Rule => let '(_, o, a) := p in o ++ ":" ++ a)
           (filter (fun p : Rule =>
                      let '(s, _, _) := p in String.eqb s ("role:" ++ name))
                   rules).

(** A role as [GetAllRoles] has to show it when the rules [seen] are
    the policy. *)
Definition roleRead (seen : list Rule) (role : RBACManager.Role) : Prop :=
  RBACManager.Name role <> ""
  /\ RBACManager.Permissions role = permissionTexts seen (RBACManager.Name role)
  /\ RBACManager.Description role
     = (let '(desc, ok) := RBACManager.getRoleDescription (RBACManager.Name role) in
        if ok then desc else "").

(** A store in which a role link gives the role [admin]. *)
Definition hasAdmin {DB : Type} (e : Enforcer DB) : bool :=
  existsb (fun g => String.eqb (RBACManager.cleanRole (snd g)) "admin")
          (grouping e).

End PermissionNotions.

Section SafeFSNotions.
Import GoString Filepath SafeFS.

(** The audit trail of one call: with a logger, one record, of the
    operation, the path and the user of the call, that says whether the
    call succeeded; without one, nothing. *)
Definition auditedOnce (fs : SafeFS) (op path user : string) (ok : bool)
           (records : list AuditRecord) : Prop :=
  if auditLogger fs
  then exists detail,
         records = [ {| operation := op; auditPath := path; auditUser := user;
                        success := ok; details := detail |} ]
  else records = [].

Definition succeeded {E A : Type} (result : E + A) : bool :=
  match result with inl _ => false | inr _ => true end.

Definition noError {E : Type} (err : option E) : bool :=
  match err with None => true | Some _ => false end.

End SafeFSNotions.

Section GadgetNotions.
Import Gadget.

(** A manager as [Register] builds it: every gadget stands under its
    name, and no name stands twice. *)
Definition wellKeyed (m : Manager) : Prop :=
  NoDup (List.map fst m)
  /\ forall key g, In (key, g) m -> Name g = key /\ key <> "".

Definition infoOf (g : Gadget) : Info :=
  {| InfoName := Name g; InfoDescription := Description g |}.

End GadgetNotions.

(** ** Further hosts and inputs of the examples *)

(** An adapter of role links that takes every call. *)
Definition listRoleAdapter : RoleAdapter (list (string * string * string)) :=
  {| adapterRemovePolicy := fun db rule =>
       (None, RBACManager.removeFirst (RBAC.ruleEqb rule) db);
     adapterAddGrouping := fun db _ => (None, db);
     adapterRemoveGrouping := fun db _ => (None, db) |}.

(** The files of [memoryHost] as a directory and as files to copy: an
    entry is a name and a size, an open file is its path. *)
Definition memoryFiles
  : HostFiles (list (string * string)) (string * Z) string :=
  {| ReadDir := fun w _ =>
       inr (List.map (fun f => inr (fst f, GoString.len (snd f))) w);
     osOpen := fun w path =>
       match lookupFile w path with
       | inr _ => inr path
       | inl err => inl err
       end;
     fileStat := fun w file =>
       match lookupFile w file with
       | inr data => inr (GoString.len data)
       | inl err => inl err
       end;
     osCreate := fun w path => (inr path, (path, "") :: w);
     ioCopy := fun w dst src =>
       match lookupFile w src with
       | inr data => (inr (GoString.len data), (dst, data) :: w)
       | inl err => (inl err, w)
       end |}.

(** An operating system that starts every command but those with a
    NUL byte in the path or in an argument, and kills none. *)
Definition holdsNUL (s : string) : bool :=
  existsb (Ascii.eqb Ascii.zero) (list_ascii_of_string s).

Definition strictLaunch (path : string) (args : list string)
  : GoGoGadget.Launch :=
  if existsb holdsNUL (path :: args)
  then GoGoGadget.NotStarted ("fork/exec " ++ path ++ ": invalid argument")
  else GoGoGadget.Ran.

(** The binary of the framework, as [cmd.Output()] sees it when the
    process runs to its end, on a machine that [sysinfo] describes by
    [machine]. *)
Definition frameworkOutput (machine : string) : GadgetOutput :=
  {| cmdOutput := fun _ args => (GoGoGadget.main machine args, NoError) |}.

Section FurtherInputs.
Import GoString MCP MCPClient Transport RBAC RBACManager.

(** A response as a server writes it on the wire. *)
Definition wireResponse : JSON :=
  JObject [("jsonrpc", JString "2.0"); ("id", JInt 1);
           ("result", JObject [("tools", JArray [])])].

(** The configuration of a TCP transport as a JSON file gives it. *)
Definition tcpConfigJSON : JSON :=
  JObject [("type", JString "tcp"); ("host", JString "localhost");
           ("port", JInt 8080)].

Definition pingNotification : Message :=
  CreateNotification "notifications/ping" GNil.

Definition openTransport : InMemoryTransport :=
  snd (Connect NewInMemoryTransport).

(** The store of a server before and after its first start. *)
Definition freshStore : Enforcer (list Rule) :=
  snd (@initializeDefaults _ listAdapter
         {| policy := []; grouping := []; db := [] |}).

Definition startedStore : Enforcer (list Rule) :=
  snd (@createDefaultAdmin _ listRoleAdapter freshStore).

End FurtherInputs.

(** * Properties *)

(** ** The sandboxed file system *)

Section SafeFSProperties.
Import GoString Filepath SafeFS.
Context `{UnicodeTables} {W : Type} `{Host W}.

Lemma ValidatePath_traversal_iff (fs : SafeFS) (w : W) (path : string) :
  ValidatePath fs w path = Some ErrPathTraversal
  <-> Contains (Clean path) ".." = true.
Proof.
  unfold ValidatePath.
  destruct (Contains (Clean path) "..") eqn:Hdots.
  - split; reflexivity.
  - split; [| discriminate].
    destruct (Abs (Getwd w) (Clean path)); [discriminate |].
    destruct (negb (existsb _ (basePaths fs))); [discriminate |].
    destruct (existsb _ (deniedPaths fs)); [discriminate |].
    destruct (_ && _); discriminate.
Qed.

Lemma ValidatePath_never_too_big (fs : SafeFS) (w : W) (path : string) :
  ValidatePath fs w path <> Some ErrFileTooBig.
Proof.
  unfold ValidatePath.
  destruct (Contains (Clean path) ".."); [discriminate |].
  destruct (Abs (Getwd w) (Clean path)); [discriminate |].
  destruct (negb (existsb _ (basePaths fs))); [discriminate |].
  destruct (existsb _ (deniedPaths fs)); [discriminate |].
  destruct (_ && _); discriminate.
Qed.

Lemma writeThrough_never_too_big fs (w : W) path user data perm :
  fst (fst (writeThrough fs w path user data perm)) <> Some ErrFileTooBig.
Proof.
  unfold writeThrough.
  destruct (MkdirAll w (Dir path) 493) as [[err |] w1]; [discriminate |].
  destruct (osWriteFile w1 path data perm) as [[err |] w2]; discriminate.
Qed.

(** C1, as the code has it: [ValidatePath] answers with the traversal
    denial exactly when the path still contains [..] after
    [filepath.Clean], whatever the base roots, the deny-list, the
    extensions and the host are.  The test is on the cleaned text and
    comes before the path is made absolute. *)
Theorem C1_traversal_after_clean (fs : SafeFS) (w : W) (path : string) :
  (ValidatePath fs w path = Some ErrPathTraversal
   <-> Contains (Clean path) ".." = true)
  /\ (validatePathForDirectory fs w path = Some ErrPathTraversal
      <-> Contains (Clean path) ".." = true).
Proof.
  split; [apply ValidatePath_traversal_iff |].
  unfold validatePathForDirectory.
  destruct (Contains (Clean path) "..") eqn:Hdots.
  - split; reflexivity.
  - split; [| discriminate].
    destruct (Abs (Getwd w) (Clean path)); [discriminate |].
    destruct (negb (existsb _ (basePaths fs))); [discriminate |].
    destruct (existsb _ (deniedPaths fs)); discriminate.
Qed.

(** C7: with a positive cap, data longer than the cap written to a
    valid path gets the too-large error, the host is left as it was and
    no call of the host is made; data as long as the cap goes on to the
    directory and the file; with a cap of zero neither [WriteFile] nor
    [ReadFile] ever answers too-large. *)
Theorem C7_write_size_cap (fs : SafeFS) (w : W) (path user data : string)
        (perm : Z) :
  (0 < maxFileSize fs ->
   ValidatePath fs w path = None ->
   maxFileSize fs < len data ->
   WriteFile fs w path user data perm
   = (Some ErrFileTooBig, w,
      auditLog fs "write" path user false
               ("data too big: " ++ fmtInt (len data) ++ " bytes")))
  /\ (ValidatePath fs w path = None ->
      len data = maxFileSize fs ->
      WriteFile fs w path user data perm
      = writeThrough fs w path user data perm
      /\ fst (fst (WriteFile fs w path user data perm)) <> Some ErrFileTooBig)
  /\ (maxFileSize fs = 0 ->
      fst (fst (WriteFile fs w path user data perm)) <> Some ErrFileTooBig
      /\ fst (ReadFile fs w path user) <> inl ErrFileTooBig
      /\ (ValidatePath fs w path = None ->
          WriteFile fs w path user data perm
          = writeThrough fs w path user data perm)).
Proof.
  split; [| split].
  - intros Hcap Hvalid Hlen. unfold WriteFile. rewrite Hvalid.
    replace (0 <? maxFileSize fs) with true by (symmetry; apply Z.ltb_lt; lia).
    replace (maxFileSize fs <? len data) with true
      by (symmetry; apply Z.ltb_lt; lia).
    reflexivity.
  - intros Hvalid Hlen.
    assert (Hgo : WriteFile fs w path user data perm
                  = writeThrough fs w path user data perm).
    { unfold WriteFile. rewrite Hvalid.
      replace (maxFileSize fs <? len data) with false
        by (symmetry; apply Z.ltb_ge; lia).
      rewrite andb_false_r. reflexivity. }
    split; [exact Hgo |]. rewrite Hgo. apply writeThrough_never_too_big.
  - intros Hzero. split; [| split].
    + unfold WriteFile.
      destruct (ValidatePath fs w path) as [err |] eqn:Hvalid.
      * simpl. rewrite <- Hvalid. apply ValidatePath_never_too_big.
      * rewrite Hzero. simpl. apply writeThrough_never_too_big.
    + unfold ReadFile.
      destruct (ValidatePath fs w path) as [err |] eqn:Hvalid.
      * simpl. intros Heq. apply (ValidatePath_never_too_big fs w path).
        rewrite Hvalid. congruence.
      * destruct (Stat w path) as [err | size]; [discriminate |].
        rewrite Hzero. simpl.
        destruct (osReadFile w path); discriminate.
    + intros Hvalid. unfold WriteFile. rewrite Hvalid, Hzero. reflexivity.
Qed.

End SafeFSProperties.

Section SafeFSExamples.
Import GoString Filepath SafeFS.

(** C1 as stated fails: [/tmp/a/../b] contains [..], and with [/tmp]
    as base root it is a valid path, since [filepath.Clean] resolves it
    to [/tmp/b] before the test. *)
Lemma C1_dotdot_resolved_counterexample :
  Contains "/tmp/a/../b" ".." = true
  /\ @ValidatePath asciiTables _ memoryHost tmpSandbox [] "/tmp/a/../b" = None
  /\ @ValidatePath asciiTables _ memoryHost tmpSandbox [] "/tmp/a/../b"
     <> Some ErrPathTraversal.
Proof.
  split; [reflexivity |]. split; [vm_compute; reflexivity |].
  vm_compute. discriminate.
Qed.

Example traversal_outside_base :
  @ValidatePath asciiTables _ memoryHost tmpSandbox [] "/tmp/../etc/passwd"
  = Some ErrPathOutsideBase.
Proof. vm_compute. reflexivity. Qed.

Example traversal_relative :
  @ValidatePath asciiTables _ memoryHost tmpSandbox [] "../etc/passwd"
  = Some ErrPathTraversal.
Proof. vm_compute. reflexivity. Qed.

(** C7 at a cap of ten bytes: eleven bytes are refused and the host
    keeps no file, ten bytes are written. *)
Lemma C7_write_size_cap_witness :
  @WriteFile asciiTables _ memoryHost tmpSandbox [] "/tmp/a.txt" "bob"
             "01234567890" 420
  = (Some ErrFileTooBig, [],
     @auditLog tmpSandbox "write" "/tmp/a.txt" "bob" false
               "data too big: 11 bytes")
  /\ fst (fst (@WriteFile asciiTables _ memoryHost tmpSandbox []
                          "/tmp/a.txt" "bob" "0123456789" 420))
     <> Some ErrFileTooBig.
Proof.
  split.
  - apply (proj1 (@C7_write_size_cap asciiTables _ memoryHost tmpSandbox []
                    "/tmp/a.txt" "bob" "01234567890" 420)).
    + vm_compute. reflexivity.
    + vm_compute. reflexivity.
    + vm_compute. reflexivity.
  - apply (proj1 (proj2 (@C7_write_size_cap asciiTables _ memoryHost tmpSandbox []
                           "/tmp/a.txt" "bob" "0123456789" 420))).
    + vm_compute. reflexivity.
    + vm_compute. reflexivity.
Defined.

End SafeFSExamples.

(** ** UTF-8 *)

Section UTF8Properties.
Import GoString JSONString.

Lemma take_drop (n : nat) (s : string) : take n s ++ drop n s = s.
Proof.
  revert s. induction n as [| n IH]; intros s; [reflexivity |].
  destruct s as [| c s]; [reflexivity |]. simpl. now rewrite IH.
Qed.

Lemma length_drop (n : nat) (s : string) :
  String.length (drop n s) = (String.length s - n)%nat.
Proof.
  revert s. induction n as [| n IH]; intros s; simpl.
  - lia.
  - destruct s as [| c s]; simpl; [reflexivity | apply IH].
Qed.

Lemma first_width (s0 : Z) (sz : nat) (lo hi : Z) :
  first s0 = Some (sz, lo, hi) -> (2 <= sz <= 4)%nat.
Proof.
  unfold first.
  repeat match goal with
         | |- context [if ?b then _ else _] => destruct b
         end; intros Heq; inversion Heq; lia.
Qed.

(** A step of [range] over a string that is not empty is one to four
    bytes wide. *)
Lemma DecodeRune_width (c : ascii) (s : string) :
  (1 <= snd (DecodeRuneInString (String c s)) <= 4)%nat.
Proof.
  unfold DecodeRuneInString.
  change (String.length (String c s) <? 1)%nat with false. cbv iota.
  destruct (byteAt (String c s) 0 <? RuneSelf); [simpl; lia |].
  destruct (first (byteAt (String c s) 0)) as [[[sz lo] hi] |]; [| simpl; lia].
  repeat match goal with
         | |- context [if ?b then _ else _] => destruct b
         end; simpl; lia.
Qed.

(** A byte below [0x80] is a rune of its own. *)
Lemma DecodeRune_ascii (c : ascii) (s : string) :
  byteZ c < RuneSelf ->
  DecodeRuneInString (String c s) = (byteZ c, 1%nat).
Proof.
  intros Hlt. unfold DecodeRuneInString.
  change (String.length (String c s) <? 1)%nat with false. cbv iota.
  change (byteAt (String c s) 0) with (byteZ c).
  now apply Z.ltb_lt in Hlt; rewrite Hlt.
Qed.

Lemma rangeFrom_enough (fuel1 fuel2 : nat) (s : string) :
  (String.length s <= fuel1)%nat -> (String.length s <= fuel2)%nat ->
  rangeFrom fuel1 s = rangeFrom fuel2 s.
Proof.
  revert fuel2 s. induction fuel1 as [| fuel1 IH]; intros fuel2 s H1 H2.
  - destruct s; [| simpl in H1; lia]. destruct fuel2; reflexivity.
  - destruct s as [| c s]; [destruct fuel2; reflexivity |].
    destruct fuel2 as [| fuel2]; [simpl in H2; lia |].
    simpl rangeFrom. f_equal.
    pose proof (DecodeRune_width c s) as Hw.
    apply IH; rewrite length_drop; cbn [String.length] in *; lia.
Qed.

(** The unfolding of [range] at a string that is not empty. *)
Lemma range_cons (c : ascii) (s : string) :
  range (String c s)
  = DecodeRuneInString (String c s)
      :: range (drop (snd (DecodeRuneInString (String c s))) (String c s)).
Proof.
  unfold range at 1. simpl rangeFrom. f_equal.
  unfold range. apply rangeFrom_enough; [| lia].
  pose proof (DecodeRune_width c s) as Hw.
  rewrite length_drop. cbn [String.length]. lia.
Qed.

Lemma runes_ascii (c : ascii) (s : string) :
  byteZ c < RuneSelf -> runes (String c s) = byteZ c :: runes s.
Proof.
  intros Hlt. unfold runes. rewrite range_cons.
  rewrite (DecodeRune_ascii c s Hlt). reflexivity.
Qed.

Lemma coerceFrom_valid (fuel : nat) (s : string) :
  (String.length s <= fuel)%nat ->
  existsb invalidStep (rangeFrom fuel s) = false ->
  coerceFrom fuel s = s.
Proof.
  revert s. induction fuel as [| fuel IH]; intros s Hlen Hvalid.
  - destruct s; [reflexivity | simpl in Hlen; lia].
  - destruct s as [| c s]; [reflexivity |].
    simpl rangeFrom in Hvalid. simpl existsb in Hvalid.
    apply orb_false_iff in Hvalid. destruct Hvalid as [Hstep Hrest].
    simpl coerceFrom. rewrite Hstep.
    pose proof (DecodeRune_width c s) as Hw.
    rewrite IH; [apply take_drop | | exact Hrest].
    rewrite length_drop. cbn [String.length] in *. lia.
Qed.

(** The coercion of [encoding/json] leaves valid UTF-8 as it is. *)
Lemma coerceUTF8_valid (s : string) :
  ValidString s = true -> coerceUTF8 s = s.
Proof.
  unfold ValidString, coerceUTF8, range. intros Hvalid.
  apply coerceFrom_valid; [lia |]. now apply negb_true_iff in Hvalid.
Qed.

Lemma map_coerceUTF8_valid (l : list string) :
  forallb ValidString l = true -> List.map coerceUTF8 l = l.
Proof.
  induction l as [| s l IH]; [reflexivity |]. simpl.
  intros Hvalid. apply andb_true_iff in Hvalid. destruct Hvalid as [Hs Hl].
  now rewrite (coerceUTF8_valid s Hs), IH.
Qed.

End UTF8Properties.

(** ** Identity tokens *)

Section AuthProperties.
Import GoString JSONString Auth.
Context `{MAC (Header * Claims)}.

Lemma NewNumericDate_le (t : Z) : NewNumericDate t <= t.
Proof.
  unfold NewNumericDate, Second.
  pose proof (Z.mul_div_le t 1000000000). lia.
Qed.

(** C3, as the code has it: a token signed under the secret with an
    HMAC method and inside its validity window is accepted, and its
    claims are returned, whatever its issuer is: the issuer claim is
    not compared with the configured issuer. *)
Theorem C3_issuer_not_checked (j : JWTManager) (now : Z) (header : Header)
        (payload : Claims) (signature : string) :
  isHMAC (alg header) = true ->
  signature = hmac (alg header) (secretKey j) (header, payload) ->
  match ExpiresAt (Registered payload) with
  | Some exp => now < exp
  | None => True
  end ->
  match NotBefore (Registered payload) with
  | Some nbf => nbf <= now
  | None => True
  end ->
  ValidateToken j now (Compact header payload signature) = inr payload.
Proof.
  intros Hmethod Hsig Hexp Hnbf.
  unfold ValidateToken, ParseWithClaims, registeredMethod.
  rewrite Hmethod. simpl.
  rewrite Hsig, String.eqb_refl. simpl.
  unfold validateClaims.
  destruct (ExpiresAt (Registered payload)) as [exp |];
    destruct (NotBefore (Registered payload)) as [nbf |].
  - replace (now <? exp) with true by (symmetry; apply Z.ltb_lt; lia).
    replace (now <? nbf) with false by (symmetry; apply Z.ltb_ge; lia).
    reflexivity.
  - replace (now <? exp) with true by (symmetry; apply Z.ltb_lt; lia).
    reflexivity.
  - replace (now <? nbf) with false by (symmetry; apply Z.ltb_ge; lia).
    reflexivity.
  - reflexivity.
Qed.

(** C9, as the code has it: a token minted for [(u, d, r)] and
    verified between the instant of minting and its expiry is accepted,
    and the claims returned carry [u], [d] and [r], the configured
    issuer, and the three dates of the validity window, when the
    identity and the issuer are texts in valid UTF-8, which the JSON
    form of the claims leaves as they are. *)
Theorem C9_verify_mint (j : JWTManager) (now now' : Z) (u d : string)
        (r : list string) :
  ValidString u = true ->
  ValidString d = true ->
  forallb ValidString r = true ->
  ValidString (issuer j) = true ->
  now <= now' ->
  now' < NewNumericDate (now + tokenExpiry j) ->
  exists token,
    GenerateToken j now u d r = inr token
    /\ ValidateToken j now' token
       = inr {| UserID := u;
                Username := d;
                Roles := r;
                Registered :=
                  {| Issuer := issuer j;
                     Subject := u;
                     Audience := [];
                     ExpiresAt := Some (NewNumericDate (now + tokenExpiry j));
                     NotBefore := Some (NewNumericDate now);
                     IssuedAt := Some (NewNumericDate now);
                     ID := "" |} |}.
Proof.
  intros Hu Hd Hr Hiss Hafter Hbefore.
  eexists. split; [reflexivity |].
  unfold jsonClaims. simpl.
  rewrite (coerceUTF8_valid u Hu), (coerceUTF8_valid d Hd),
    (map_coerceUTF8_valid r Hr), (coerceUTF8_valid (issuer j) Hiss).
  change (coerceUTF8 "") with "".
  unfold ValidateToken, ParseWithClaims. simpl.
  rewrite String.eqb_refl. simpl.
  unfold validateClaims. simpl.
  pose proof (NewNumericDate_le now) as Hnbf.
  replace (now' <? NewNumericDate (now + tokenExpiry j)) with true
    by (symmetry; apply Z.ltb_lt; lia).
  replace (now' <? NewNumericDate now) with false
    by (symmetry; apply Z.ltb_ge; lia).
  reflexivity.
Qed.

End AuthProperties.

Section AuthExamples.
Import GoString Auth.

(** C3 as stated fails: a token signed under the secret of the server,
    not expired, whose issuer is not the configured one, is accepted and
    its identity returned. *)
Lemma C3_foreign_issuer_counterexample :
  Issuer (Registered foreignClaims) <> issuer serverJWT
  /\ @ValidateToken plainMAC serverJWT (1000 * Second) foreignToken
     = inr foreignClaims.
Proof.
  split; [vm_compute; discriminate | vm_compute; reflexivity].
Qed.

Lemma C3_issuer_not_checked_witness :
  @ValidateToken plainMAC serverJWT (1000 * Second)
    (Compact hs256 foreignClaims
       (@hmac _ plainMAC (alg hs256) (secretKey serverJWT) (hs256, foreignClaims)))
  = inr foreignClaims.
Proof.
  apply (@C3_issuer_not_checked plainMAC serverJWT (1000 * Second) hs256
           foreignClaims).
  - reflexivity.
  - reflexivity.
  - vm_compute. reflexivity.
  - exact I.
Defined.

(** C9 as stated fails: the token minted for a user id that is not
    valid UTF-8 is accepted, and the user id and the subject that
    [ValidateToken] returns are not the ones the token was minted for:
    [json.Marshal] has put U+FFFD for the byte 0xFF. *)
Lemma C9_invalid_utf8_counterexample :
  ValidString brokenName = false
  /\ exists token claims,
       @GenerateToken plainMAC serverJWT (1000 * Second) brokenName "bob" ["user"]
       = inr token
       /\ @ValidateToken plainMAC serverJWT (1000 * Second + 1) token = inr claims
       /\ UserID claims = replacedName
       /\ Subject (Registered claims) = replacedName
       /\ UserID claims <> brokenName.
Proof.
  split; [vm_compute; reflexivity |].
  eexists. eexists.
  split; [vm_compute; reflexivity |].
  split; [vm_compute; reflexivity |].
  split; [vm_compute; reflexivity |].
  split; [vm_compute; reflexivity |].
  vm_compute. discriminate.
Qed.

Lemma C9_verify_mint_witness :
  exists token,
    @GenerateToken plainMAC serverJWT (1000 * Second + 5) "u-17" "alice" ["user"]
    = inr token
    /\ @ValidateToken plainMAC serverJWT (1000 * Second + 7) token
       = inr {| UserID := "u-17";
                Username := "alice";
                Roles := ["user"];
                Registered :=
                  {| Issuer := issuer serverJWT;
                     Subject := "u-17";
                     Audience := [];
                     ExpiresAt :=
                       Some (NewNumericDate
                               (1000 * Second + 5 + tokenExpiry serverJWT));
                     NotBefore := Some (NewNumericDate (1000 * Second + 5));
                     IssuedAt := Some (NewNumericDate (1000 * Second + 5));
                     ID := "" |} |}.
Proof.
  apply (@C9_verify_mint plainMAC serverJWT (1000 * Second + 5)
           (1000 * Second + 7) "u-17" "alice" ["user"]).
  - vm_compute. reflexivity.
  - vm_compute. reflexivity.
  - vm_compute. reflexivity.
  - vm_compute. reflexivity.
  - vm_compute. discriminate.
  - vm_compute. reflexivity.
Defined.

(** The test of the repository with a negative lifetime: the token is
    expired from the start. *)
Example expired_from_the_start :
  let j := NewJWTManager {| SecretKey := "test-secret-key-12345";
                            TokenExpiry := - Hour; ConfigIssuer := "";
                            AllowedRoles := [] |} in
  match @GenerateToken plainMAC j (1000 * Second) "user123" "testuser" ["user"] with
  | inr token => @ValidateToken plainMAC j (1000 * Second) token
  | inl err => inl err
  end = inl ErrTokenExpired.
Proof. vm_compute. reflexivity. Qed.

End AuthExamples.

(** ** The policy store *)

Section RBACProperties.
Import RBAC.
Context {DB : Type} `{Adapter DB}.

Lemma addDefaults_policy (perms : list Permission) (e e' : Enforcer DB) :
  addDefaults e perms = (None, e') ->
  policy e' = addAll (policy e) (List.map ruleOf perms)
  /\ grouping e' = grouping e.
Proof.
  revert e. induction perms as [| p perms IH]; intros e Hrun.
  - simpl in Hrun. inversion Hrun. split; reflexivity.
  - simpl in Hrun. unfold AddPolicy in Hrun. unfold addAll. simpl.
    fold (ruleOf p).
    change (Subject p, Object p, Action p) with (ruleOf p) in Hrun.
    destruct (existsb (ruleEqb (ruleOf p)) (policy e)) eqn:Hhas.
    + apply IH in Hrun. exact Hrun.
    + destruct (adapterAddPolicy (db e) (ruleOf p)) as [[err |] db'];
        [discriminate |].
      apply IH in Hrun. simpl in Hrun. exact Hrun.
Qed.

Lemma initializeDefaults_seeded (e : Enforcer DB) :
  (0 < Z.of_nat (List.length (policy e))) ->
  initializeDefaults e = (None, e).
Proof.
  intros Hlen. unfold initializeDefaults, GetPolicy.
  apply Z.ltb_lt in Hlen. now rewrite Hlen.
Qed.

(** C8: the defaults are seeded exactly when the enforcer holds no
    rule: with a rule in it nothing is done, not even a call of the
    adapter; with none, a run that reports no error leaves the nineteen
    default rules, in their order.  After such a run a second one changes
    nothing. *)
Theorem C8_seed_defaults_idempotent (e e1 : Enforcer DB) :
  initializeDefaults e = (None, e1) ->
  (policy e <> [] -> e1 = e)
  /\ (policy e = [] -> policy e1 = List.map ruleOf DefaultPermissions)
  /\ initializeDefaults e1 = (None, e1).
Proof.
  intros Hrun.
  destruct (policy e) as [| rule rules] eqn:Hpolicy.
  - assert (Hseeded : policy e1 = List.map ruleOf DefaultPermissions).
    { unfold initializeDefaults, GetPolicy in Hrun. rewrite Hpolicy in Hrun.
      change (0 <? Z.of_nat (@List.length Rule [])) with false in Hrun.
      cbv iota in Hrun.
      destruct (addDefaults e DefaultPermissions) as [[err |] e'] eqn:Hadd;
        [discriminate |].
      apply addDefaults_policy in Hadd. destruct Hadd as [Hadd _].
      rewrite Hpolicy in Hadd.
      unfold SavePolicy in Hrun.
      destruct (adapterSavePolicy (db e') (policy e') (grouping e'))
        as [[err |] db'']; [discriminate |].
      inversion Hrun. simpl. rewrite Hadd. vm_compute. reflexivity. }
    split; [intros Hne; now elim Hne |]. split; [intros _; exact Hseeded |].
    apply initializeDefaults_seeded. rewrite Hseeded. vm_compute. reflexivity.
  - assert (Hsame : e1 = e).
    { rewrite initializeDefaults_seeded in Hrun.
      - now inversion Hrun.
      - rewrite Hpolicy. simpl List.length. lia. }
    split; [intros _; exact Hsame |]. split; [discriminate |].
    rewrite Hsame. apply initializeDefaults_seeded.
    rewrite Hpolicy. simpl List.length. lia.
Qed.

End RBACProperties.

Section RBACExamples.
Import RBAC.

Lemma C8_seed_defaults_idempotent_witness :
  (policy emptyStore <> [] -> seededStore = emptyStore)
  /\ (policy emptyStore = []
      -> policy seededStore = List.map ruleOf DefaultPermissions)
  /\ @initializeDefaults _ listAdapter seededStore = (None, seededStore).
Proof.
  apply (@C8_seed_defaults_idempotent _ listAdapter emptyStore seededStore).
  vm_compute. reflexivity.
Defined.

End RBACExamples.

(** ** Runes outside ASCII *)

Section RuneBounds.
Import GoString.

Lemma lor_add_ldiff (a b : Z) : Z.lor a b = a + Z.ldiff b a.
Proof.
  rewrite Z.add_nocarry_lxor.
  - apply Z.bits_inj'. intros n _.
    rewrite Z.lxor_spec, Z.lor_spec, Z.ldiff_spec.
    destruct (Z.testbit a n), (Z.testbit b n); reflexivity.
  - apply Z.bits_inj'. intros n _.
    rewrite Z.land_spec, Z.ldiff_spec, Z.bits_0.
    destruct (Z.testbit a n), (Z.testbit b n); reflexivity.
Qed.

Lemma lor_ge_l (a b : Z) : 0 <= b -> a <= Z.lor a b.
Proof.
  intros Hb. rewrite lor_add_ldiff.
  assert (0 <= Z.ldiff b a) by (apply Z.ldiff_nonneg; left; exact Hb). lia.
Qed.

Lemma lor_ge_r (a b : Z) : 0 <= a -> b <= Z.lor a b.
Proof. intros Ha. rewrite Z.lor_comm. now apply lor_ge_l. Qed.

Lemma masked_nonneg (x mask : Z) : 0 <= mask -> 0 <= Z.land x mask.
Proof. intros Hm. apply Z.land_nonneg. now right. Qed.

Lemma shifted_nonneg (x mask n : Z) :
  0 <= mask -> 0 <= Z.shiftl (Z.land x mask) n.
Proof. intros Hm. apply Z.shiftl_nonneg. now apply masked_nonneg. Qed.

Lemma shifted_mask (x bits n : Z) :
  0 <= bits -> 0 <= n ->
  Z.shiftl (Z.land x (Z.ones bits)) n = (x mod 2 ^ bits) * 2 ^ n.
Proof.
  intros Hbits Hn. now rewrite Z.land_ones, Z.shiftl_mul_pow2.
Qed.

Lemma rune2_high (s0 s1 : Z) :
  0xC2 <= s0 < 0xE0 ->
  RuneSelf <= Z.lor (Z.shiftl (Z.land s0 0x1F) 6) (Z.land s1 0x3F).
Proof.
  intros Hs0. unfold RuneSelf.
  apply Z.le_trans with (Z.shiftl (Z.land s0 0x1F) 6);
    [| apply lor_ge_l, masked_nonneg; lia].
  change 0x1F with (Z.ones 5). rewrite shifted_mask by lia.
  change (2 ^ 5) with 32. change (2 ^ 6) with 64.
  Z.to_euclidean_division_equations. lia.
Qed.

Lemma rune3_high (s0 s1 s2 : Z) :
  0xE0 <= s0 < 0xF0 ->
  (s0 = 0xE0 -> 0xA0 <= s1 <= 0xBF) ->
  RuneSelf <= Z.lor (Z.lor (Z.shiftl (Z.land s0 0x0F) 12)
                           (Z.shiftl (Z.land s1 0x3F) 6))
                    (Z.land s2 0x3F).
Proof.
  intros Hs0 Hs1. unfold RuneSelf.
  apply Z.le_trans with (Z.lor (Z.shiftl (Z.land s0 0x0F) 12)
                               (Z.shiftl (Z.land s1 0x3F) 6));
    [| apply lor_ge_l, masked_nonneg; lia].
  destruct (Z.eq_dec s0 0xE0) as [Heq | Hne].
  - apply Z.le_trans with (Z.shiftl (Z.land s1 0x3F) 6);
      [| apply lor_ge_r, shifted_nonneg; lia].
    specialize (Hs1 Heq).
    change 0x3F with (Z.ones 6). rewrite shifted_mask by lia.
    change (2 ^ 6) with 64.
    Z.to_euclidean_division_equations. lia.
  - apply Z.le_trans with (Z.shiftl (Z.land s0 0x0F) 12);
      [| apply lor_ge_l, shifted_nonneg; lia].
    change 0x0F with (Z.ones 4). rewrite shifted_mask by lia.
    change (2 ^ 4) with 16. change (2 ^ 12) with 4096.
    Z.to_euclidean_division_equations. lia.
Qed.

Lemma rune4_high (s0 s1 s2 s3 : Z) :
  0xF0 <= s0 <= 0xF4 ->
  (s0 = 0xF0 -> 0x90 <= s1 <= 0xBF) ->
  RuneSelf <= Z.lor (Z.lor (Z.lor (Z.shiftl (Z.land s0 0x07) 18)
                                  (Z.shiftl (Z.land s1 0x3F) 12))
                           (Z.shiftl (Z.land s2 0x3F) 6))
                    (Z.land s3 0x3F).
Proof.
  intros Hs0 Hs1. unfold RuneSelf.
  apply Z.le_trans with (Z.lor (Z.lor (Z.shiftl (Z.land s0 0x07) 18)
                                      (Z.shiftl (Z.land s1 0x3F) 12))
                               (Z.shiftl (Z.land s2 0x3F) 6));
    [| apply lor_ge_l, masked_nonneg; lia].
  apply Z.le_trans with (Z.lor (Z.shiftl (Z.land s0 0x07) 18)
                               (Z.shiftl (Z.land s1 0x3F) 12));
    [| apply lor_ge_l, shifted_nonneg; lia].
  destruct (Z.eq_dec s0 0xF0) as [Heq | Hne].
  - apply Z.le_trans with (Z.shiftl (Z.land s1 0x3F) 12);
      [| apply lor_ge_r, shifted_nonneg; lia].
    specialize (Hs1 Heq).
    change 0x3F with (Z.ones 6). rewrite shifted_mask by lia.
    change (2 ^ 6) with 64. change (2 ^ 12) with 4096.
    Z.to_euclidean_division_equations. lia.
  - apply Z.le_trans with (Z.shiftl (Z.land s0 0x07) 18);
      [| apply lor_ge_l, shifted_nonneg; lia].
    change 0x07 with (Z.ones 3). rewrite shifted_mask by lia.
    change (2 ^ 3) with 8. change (2 ^ 18) with 262144.
    Z.to_euclidean_division_equations. lia.
Qed.

(** A leading byte outside ASCII gives a rune outside ASCII: a rune of
    several bytes, or the replacement rune. *)
Lemma DecodeRune_high (c : ascii) (s : string) :
  RuneSelf <= byteZ c ->
  RuneSelf <= fst (DecodeRuneInString (String c s)).
Proof.
  intros Hhigh. unfold DecodeRuneInString. cbv zeta.
  change (String.length (String c s) <? 1)%nat with false. cbv iota.
  change (byteAt (String c s) 0) with (byteZ c).
  destruct (Z.ltb_spec (byteZ c) RuneSelf) as [Hlt | _]; [lia |].
  assert (Herr : RuneSelf <= fst (RuneError, 1%nat))
    by (unfold RuneSelf, RuneError; simpl; lia).
  generalize dependent (byteZ c). intros s0 Hhigh.
  generalize (byteAt (String c s) 1) (byteAt (String c s) 2)
             (byteAt (String c s) 3) (String.length (String c s)).
  intros s1 s2 s3 n.
  unfold first.
  repeat match goal with
         | |- context [if ?a <? ?b then _ else _] =>
             destruct (Z.ltb_spec a b); cbv iota beta
         | |- context [if ?a =? ?b then _ else _] =>
             destruct (Z.eqb_spec a b); cbv iota beta
         end; try exact Herr.
  all: match goal with
       | |- context [if (?a <? ?b)%nat then _ else _] =>
           is_var a; destruct (a <? b)%nat; [exact Herr |]
       end.
  all: cbn [Nat.leb].
  all: repeat match goal with
           | |- context [if (?a <? ?b) || (?c <? ?d) then _ else _] =>
               destruct (Z.ltb_spec a b); [exact Herr |];
               destruct (Z.ltb_spec c d); [exact Herr |]; cbn [orb]
           | |- context [if notCont ?x then _ else _] =>
               destruct (notCont x); [exact Herr |]
           end.
  all: cbn [fst];
    lazymatch goal with
    | |- _ <= Z.lor (Z.shiftl _ 6) _ => apply rune2_high
    | |- _ <= Z.lor (Z.lor (Z.shiftl _ 12) _) _ => apply rune3_high
    | |- _ <= Z.lor (Z.lor (Z.lor (Z.shiftl _ 18) _) _) _ => apply rune4_high
    end; lia.
Qed.

End RuneBounds.

(** ** The gadget runner *)

Section GadgetNames.
Import GoString Integration.

Lemma allowedRune_nameChar (c : ascii) : allowedRune (byteZ c) = nameChar c.
Proof.
  destruct c as [b0 b1 b2 b3 b4 b5 b6 b7].
  destruct b0, b1, b2, b3, b4, b5, b6, b7; vm_compute; reflexivity.
Qed.

Lemma allowedRune_ascii (r : Z) : allowedRune r = true -> r < RuneSelf.
Proof.
  unfold allowedRune, RuneSelf. intros Hallowed.
  repeat match goal with
         | H : (_ || _) = true |- _ => apply orb_true_iff in H; destruct H
         | H : (_ && _) = true |- _ => apply andb_true_iff in H; destruct H
         | H : (_ <=? _) = true |- _ => apply Z.leb_le in H
         | H : (_ =? _) = true |- _ => apply Z.eqb_eq in H
         end; lia.
Qed.

(** The loop of [isValidGadgetName] over the runes is a test of the
    bytes: a byte outside ASCII starts a rune that is refused. *)
Lemma allAllowed_bytes (name : string) :
  allAllowed (runes name) = forallb nameChar (list_ascii_of_string name).
Proof.
  induction name as [| c s IH]; [reflexivity |].
  simpl forallb. rewrite <- allowedRune_nameChar.
  destruct (Z.lt_ge_cases (byteZ c) RuneSelf) as [Hlow | Hhigh].
  - rewrite (runes_ascii c s Hlow). simpl allAllowed. rewrite IH.
    now destruct (allowedRune (byteZ c)).
  - unfold runes. rewrite range_cons. simpl map. simpl allAllowed.
    pose proof (DecodeRune_high c s Hhigh) as Hrune.
    destruct (allowedRune (fst (DecodeRuneInString (String c s)))) eqn:Ha;
      [apply allowedRune_ascii in Ha; lia |].
    destruct (allowedRune (byteZ c)) eqn:Hb;
      [apply allowedRune_ascii in Hb; lia |].
    reflexivity.
Qed.

Lemma isValidGadgetName_accepted (name : string) :
  isValidGadgetName name = nameAccepted name.
Proof.
  unfold isValidGadgetName, nameAccepted, len.
  rewrite allAllowed_bytes.
  destruct (forallb nameChar (list_ascii_of_string name));
    [| now rewrite andb_false_r].
  rewrite andb_true_r.
  destruct (Nat.leb_spec 1 (String.length name));
    destruct (Nat.leb_spec (String.length name) 50);
    destruct (Z.ltb_spec 0 (Z.of_nat (String.length name)));
    destruct (Z.leb_spec (Z.of_nat (String.length name)) 50);
    simpl; try reflexivity; lia.
Qed.

End GadgetNames.

(** ** Equality up to case *)

Section CaseFolding.
Import GoString.
Context `{UnicodeTables}.

Lemma foldSearch_step (fuel : nat) (sr tr r : Z) :
  foldSearch (S fuel) sr tr r
  = if negb (r =? sr) && (r <? tr)
    then foldSearch fuel sr tr (SimpleFold r) else r.
Proof. reflexivity. Qed.

Lemma foldSearch_stop (fuel : nat) (sr tr : Z) : foldSearch fuel sr tr sr = sr.
Proof.
  destruct fuel; [reflexivity |].
  now rewrite foldSearch_step, Z.eqb_refl.
Qed.

Lemma foldSearch_reached (fuel : nat) (sr tr r : Z) :
  tr <= r -> foldSearch fuel sr tr r = r.
Proof.
  intros Hle. destruct fuel; [reflexivity |]. rewrite foldSearch_step.
  replace (r <? tr) with false by (symmetry; apply Z.ltb_ge; lia).
  now rewrite andb_false_r.
Qed.

Lemma foldSearch_next (fuel : nat) (sr tr r : Z) :
  r <> sr -> r < tr ->
  foldSearch (S fuel) sr tr r = foldSearch fuel sr tr (SimpleFold r).
Proof.
  intros Hne Hlt. rewrite foldSearch_step.
  replace (r =? sr) with false by (symmetry; apply Z.eqb_neq; lia).
  replace (r <? tr) with true by (symmetry; apply Z.ltb_lt; lia).
  reflexivity.
Qed.

Lemma SimpleFold_lower (c : Z) :
  97 <= c <= 122 -> c <> 107 -> c <> 115 -> SimpleFold c = c - 32.
Proof.
  intros Hc Hk Hs. unfold SimpleFold.
  repeat (cbv beta iota delta [isUpperASCII isLowerASCII andb];
          try reflexivity; split_cmp).
Qed.

Lemma SimpleFold_upper (c : Z) :
  65 <= c <= 90 -> c <> 75 -> c <> 83 -> SimpleFold c = c + 32.
Proof.
  intros Hc Hk Hs. unfold SimpleFold.
  repeat (cbv beta iota delta [isUpperASCII isLowerASCII andb];
          try reflexivity; split_cmp).
Qed.

Lemma foldSearch_high (sr c : Z) :
  plainByte c = true -> RuneSelf <= sr ->
  (foldSearch 8 c sr (SimpleFold c) =? sr) = inClass sr c.
Proof.
  intros Hplain Hhigh. unfold RuneSelf in Hhigh.
  assert (Hc : c = 107 \/ c = 115 \/ c = 45
               \/ (97 <= c <= 122 /\ c <> 107 /\ c <> 115)).
  { unfold plainByte, isLowerASCII in Hplain.
    apply orb_true_iff in Hplain. destruct Hplain as [Hl | He].
    - apply andb_true_iff in Hl. destruct Hl as [H1 H2].
      apply Z.leb_le in H1, H2. lia.
    - apply Z.eqb_eq in He. lia. }
  clear Hplain.
  destruct Hc as [-> | [-> | [-> | (Hc & Hk & Hs)]]].
  - change (SimpleFold 107) with 8490.
    destruct (Z.le_gt_cases sr 8490) as [Hle | Hgt].
    + rewrite foldSearch_reached by lia. bool_steps.
    + rewrite foldSearch_next by lia. change (SimpleFold 8490) with 75.
      rewrite foldSearch_next by lia. change (SimpleFold 75) with 107.
      rewrite foldSearch_stop. bool_steps.
  - change (SimpleFold 115) with 383.
    destruct (Z.le_gt_cases sr 383) as [Hle | Hgt].
    + rewrite foldSearch_reached by lia. bool_steps.
    + rewrite foldSearch_next by lia. change (SimpleFold 383) with 83.
      rewrite foldSearch_next by lia. change (SimpleFold 83) with 115.
      rewrite foldSearch_stop. bool_steps.
  - change (SimpleFold 45) with 45. rewrite foldSearch_stop. bool_steps.
  - rewrite SimpleFold_lower by lia.
    rewrite foldSearch_next by lia.
    rewrite SimpleFold_upper by lia.
    replace (c - 32 + 32) with c by lia.
    rewrite foldSearch_stop. bool_steps.
Qed.

Lemma foldMatch_class (sr c : Z) :
  plainByte c = true -> sr <> c -> foldMatch sr c = inClass sr c.
Proof.
  intros Hplain Hne. unfold foldMatch.
  destruct (Z.ltb_spec c sr) as [Hlt | Hge].
  - destruct (Z.ltb_spec sr RuneSelf) as [Hlow | Hhigh].
    + unfold plainByte in Hplain. unfold RuneSelf in Hlow.
      revert Hplain. bool_steps; discriminate.
    + now apply foldSearch_high.
  - unfold plainByte in Hplain. revert Hplain. bool_steps; discriminate.
Qed.

Lemma byteZ_nonneg (c : ascii) : 0 <= byteZ c.
Proof. unfold byteZ. lia. Qed.

Lemma plainByte_ascii (c : Z) : plainByte c = true -> c < RuneSelf.
Proof.
  unfold plainByte, isLowerASCII, RuneSelf. intros Hplain.
  apply orb_true_iff in Hplain. destruct Hplain as [Hl | He].
  - apply andb_true_iff in Hl. destruct Hl as [H1 H2].
    apply Z.leb_le in H1, H2. lia.
  - apply Z.eqb_eq in He. lia.
Qed.

Lemma inClass_self (c : Z) : inClass c c = true.
Proof. bool_steps. Qed.

Lemma foldRunes_sameFolded (rs : list Z) (t : string) :
  plainName t = true -> foldRunes rs t = sameFolded rs t.
Proof.
  revert t. induction rs as [| sr rs IH]; intros t Hplain.
  - destruct t; reflexivity.
  - destruct t as [| c t]; [reflexivity |].
    unfold plainName in Hplain. simpl in Hplain.
    apply andb_true_iff in Hplain. destruct Hplain as [Hc Ht].
    simpl foldRunes. simpl sameFolded.
    pose proof (plainByte_ascii _ Hc) as Hlow.
    apply Z.ltb_lt in Hlow. rewrite Hlow.
    destruct (Z.eqb_spec (byteZ c) sr) as [Heq | Hne].
    + rewrite <- Heq, inClass_self. now apply IH.
    + rewrite foldMatch_class by (auto; congruence).
      destruct (inClass sr (byteZ c)); [now apply IH | reflexivity].
Qed.

Lemma lor_ascii (a b : Z) :
  0 <= a < RuneSelf -> 0 <= b < RuneSelf -> Z.lor a b < RuneSelf.
Proof.
  unfold RuneSelf. intros Ha Hb.
  assert (Hnn : 0 <= Z.lor a b) by (apply Z.lor_nonneg; lia).
  destruct (Z.eq_dec (Z.lor a b) 0) as [Hz | Hnz]; [lia |].
  change 128 with (2 ^ 7). apply Z.log2_lt_pow2; [lia |].
  rewrite Z.log2_lor by lia.
  assert (Hla : Z.log2 a < 7).
  { destruct (Z.eq_dec a 0) as [-> | Hane]; [reflexivity |].
    apply Z.log2_lt_pow2; [lia |]. change (2 ^ 7) with 128. lia. }
  assert (Hlb : Z.log2 b < 7).
  { destruct (Z.eq_dec b 0) as [-> | Hbne]; [reflexivity |].
    apply Z.log2_lt_pow2; [lia |]. change (2 ^ 7) with 128. lia. }
  lia.
Qed.

Lemma asciiFold_class (r c : Z) :
  plainByte c = true -> 0 <= r < 128 /\ c <> r ->
  isUpperASCII (if c <? r then c else r)
  && ((if c <? r then r else c) =? (if c <? r then c else r) + 32)
  = inClass r c.
Proof.
  intros Hplain [Hr Hne]. unfold plainByte in Hplain. revert Hplain.
  bool_steps; discriminate.
Qed.

Lemma runes_nonempty (c : ascii) (s : string) : runes (String c s) <> [].
Proof. unfold runes. rewrite range_cons. discriminate. Qed.

Lemma EqualFold_cons (sc : ascii) (s : string) (tc : ascii) (t : string) :
  EqualFold (String sc s) (String tc t)
  = if RuneSelf <=? Z.lor (byteZ sc) (byteZ tc)
    then foldRunes (runes (String sc s)) (String tc t)
    else if byteZ tc =? byteZ sc then EqualFold s t
    else if isUpperASCII (if byteZ tc <? byteZ sc then byteZ tc else byteZ sc)
            && ((if byteZ tc <? byteZ sc then byteZ sc else byteZ tc)
                =? (if byteZ tc <? byteZ sc then byteZ tc else byteZ sc) + 32)
    then EqualFold s t
    else false.
Proof. reflexivity. Qed.

(** [EqualFold] against the name of a system gadget compares rune by
    rune, up to the case orbit of each letter. *)
Lemma EqualFold_sameFolded (s t : string) :
  plainName t = true -> EqualFold s t = sameFolded (runes s) t.
Proof.
  revert t. induction s as [| sc s IH]; intros t Hplain.
  - destruct t; reflexivity.
  - destruct t as [| tc t].
    + simpl EqualFold.
      destruct (runes (String sc s)) eqn:Hr; [| reflexivity].
      now apply runes_nonempty in Hr.
    + pose proof Hplain as Hplain'.
      unfold plainName in Hplain. simpl in Hplain.
      apply andb_true_iff in Hplain. destruct Hplain as [Hc Ht].
      pose proof (plainByte_ascii _ Hc) as Htlow.
      pose proof (byteZ_nonneg sc) as Hsnn.
      pose proof (byteZ_nonneg tc) as Htnn.
      rewrite EqualFold_cons.
      destruct (Z.lt_ge_cases (byteZ sc) RuneSelf) as [Hlow | Hhigh].
      * pose proof (lor_ascii (byteZ sc) (byteZ tc)) as Hlor.
        replace (RuneSelf <=? Z.lor (byteZ sc) (byteZ tc)) with false
          by (symmetry; apply Z.leb_gt; apply Hlor; lia).
        rewrite (runes_ascii sc s Hlow). simpl sameFolded.
        destruct (Z.eqb_spec (byteZ tc) (byteZ sc)) as [Heq | Hne].
        -- rewrite <- Heq, inClass_self. now apply IH.
        -- pose proof (asciiFold_class (byteZ sc) (byteZ tc) Hc) as Hhead.
           unfold RuneSelf in Hlow.
           rewrite Hhead by (split; [lia | congruence]).
           destruct (inClass (byteZ sc) (byteZ tc)); [now apply IH | reflexivity].
      * pose proof (lor_ge_l (byteZ sc) (byteZ tc) Htnn) as Hlor.
        replace (RuneSelf <=? Z.lor (byteZ sc) (byteZ tc)) with true
          by (symmetry; apply Z.leb_le; lia).
        now apply foldRunes_sameFolded.
Qed.

End CaseFolding.

(** ** System gadgets *)

Section SystemGadgets.
Import GoString Integration.
Context `{UnicodeTables}.

Lemma lowered_byte (c : ascii) :
  plainByte (byteZ (asciiLowerByte c)) = true ->
  (byteZ c <? RuneSelf) && inClass (byteZ c) (byteZ (asciiLowerByte c))
  && nameChar c = true.
Proof.
  destruct c as [b0 b1 b2 b3 b4 b5 b6 b7].
  destruct b0, b1, b2, b3, b4, b5, b6, b7; vm_compute; intros Hplain;
    first [reflexivity | discriminate Hplain].
Qed.

Lemma asciiLower_variant (name t : string) :
  asciiLower name = t -> plainName t = true ->
  sameFolded (runes name) t = true
  /\ forallb nameChar (list_ascii_of_string name) = true
  /\ String.length name = String.length t.
Proof.
  revert t. induction name as [| c s IH]; intros t Hlower Hplain.
  - simpl in Hlower. subst t. repeat split.
  - simpl in Hlower. subst t.
    unfold plainName in Hplain. simpl in Hplain.
    apply andb_true_iff in Hplain. destruct Hplain as [Hc Ht].
    apply lowered_byte in Hc.
    apply andb_true_iff in Hc. destruct Hc as [Hc Hname].
    apply andb_true_iff in Hc. destruct Hc as [Hlow Hclass].
    apply Z.ltb_lt in Hlow.
    destruct (IH (asciiLower s) eq_refl Ht) as (Hfold & Hchars & Hlen).
    rewrite (runes_ascii c s Hlow). simpl.
    rewrite Hclass, Hfold, Hname, Hchars, Hlen. repeat split.
Qed.

Lemma systemGadgets_plain (sg : string) :
  In sg systemGadgets -> plainName sg = true /\ (1 <= String.length sg <= 50)%nat.
Proof.
  unfold systemGadgets. simpl.
  intros [<- | [<- | [<- | [<- | []]]]]; split; try reflexivity; simpl; lia.
Qed.

Lemma isSystemGadget_ignoring_case (name : string) :
  isSystemGadget name = true
  <-> exists sg, In sg systemGadgets /\ equalIgnoringCase name sg = true.
Proof.
  unfold isSystemGadget, equalIgnoringCase. rewrite existsb_exists.
  split; intros (sg & Hin & Heq); exists sg; split; try exact Hin.
  - rewrite <- EqualFold_sameFolded; [exact Heq |].
    now apply systemGadgets_plain.
  - rewrite EqualFold_sameFolded; [exact Heq |].
    now apply systemGadgets_plain.
Qed.

Lemma variant_is_system (name sg : string) :
  In sg systemGadgets -> asciiLower name = sg ->
  isSystemGadget name = true /\ isValidGadgetName name = true.
Proof.
  intros Hin Hlower.
  destruct (systemGadgets_plain sg Hin) as [Hplain Hlen].
  destruct (asciiLower_variant name sg Hlower Hplain) as (Hfold & Hchars & Hsame).
  split.
  - apply isSystemGadget_ignoring_case. exists sg. split; [exact Hin | exact Hfold].
  - rewrite isValidGadgetName_accepted. unfold nameAccepted.
    rewrite Hchars, Hsame.
    destruct (Nat.leb_spec 1 (String.length sg));
      destruct (Nat.leb_spec (String.length sg) 50); simpl; try reflexivity; lia.
Qed.

Context `{GadgetHost} {DB : Type} `{Adapter DB}.

Lemma ExecuteGadget_invalid (path : string) (e : RBAC.Enforcer DB) (c : Context) :
  isValidGadgetName (paramName c) = false ->
  ExecuteGadget path e c
  = ({| status := 400; body := ErrorBody "Invalid gadget name" |}, []).
Proof. intros Hinvalid. unfold ExecuteGadget. now rewrite Hinvalid. Qed.

Lemma ExecuteGadget_system_denied (path : string) (e : RBAC.Enforcer DB)
      (c : Context) (req : GadgetExecuteRequest) (claims : Auth.Claims) :
  isValidGadgetName (paramName c) = true ->
  bound c = inr req ->
  userClaims c = Some claims ->
  isSystemGadget (paramName c) = true ->
  RBAC.CheckPermission e (userClaims c) "system" "manage" = false ->
  ExecuteGadget path e c
  = ({| status := 403;
        body := GadgetErrorBody "System gadgets require admin permissions"
                                (paramName c) |}, []).
Proof.
  intros Hvalid Hbound Hclaims Hsystem Hdenied. unfold ExecuteGadget.
  rewrite Hvalid, Hbound. simpl negb. cbv iota.
  rewrite Hsystem, Hdenied, Hclaims. reflexivity.
Qed.

Lemma CheckPermission_lacking (e : RBAC.Enforcer DB) (claims : Auth.Claims)
      (object action : string) :
  fst (RBAC.Enforce e (Auth.Username claims) object action) = false ->
  (forall role, In role (Auth.Roles claims) ->
                fst (RBAC.Enforce e ("role:" ++ role) object action) = false) ->
  RBAC.CheckPermission e (Some claims) object action = false.
Proof.
  intros Hdirect Hroles. unfold RBAC.CheckPermission, RBAC.CheckUserPermission.
  destruct (RBAC.Enforce e (Auth.Username claims) object action)
    as [allowed err] eqn:Huser.
  simpl in Hdirect. subst allowed. rewrite andb_false_r.
  apply not_true_is_false. intros Hsome.
  apply existsb_exists in Hsome. destruct Hsome as (role & Hin & Hrole).
  specialize (Hroles role Hin).
  destruct (RBAC.Enforce e ("role:" ++ role) object action) as [allowed err'].
  simpl in Hroles. subst allowed. now rewrite andb_false_r in Hrole.
Qed.

(** C6: [isValidGadgetName] accepts a name exactly when it has 1 to 50
    characters, all of them among [A-Za-z0-9_-]; and the handler answers
    a name that is not valid with 400 before anything else, without
    spawning a command. *)
Theorem C6_gadget_name_validation (name : string) :
  (isValidGadgetName name = true
   <-> (1 <= String.length name <= 50)%nat
       /\ Forall (fun c => nameChar c = true) (list_ascii_of_string name))
  /\ (forall (path : string) (e : RBAC.Enforcer DB) (c : Context),
        paramName c = name ->
        isValidGadgetName name = false ->
        ExecuteGadget path e c
        = ({| status := 400; body := ErrorBody "Invalid gadget name" |}, [])).
Proof.
  split.
  - rewrite isValidGadgetName_accepted. unfold nameAccepted.
    rewrite !andb_true_iff, forallb_forall, Forall_forall.
    rewrite !Nat.leb_le. tauto.
  - intros path e c Hname Hinvalid. apply ExecuteGadget_invalid.
    now rewrite Hname.
Qed.

(** C10: every case variant of the name of a system gadget is a system
    gadget, and a valid name; [isSystemGadget] holds of a name exactly
    when it equals one of the four names without regard to case; and the
    execution of a variant by a caller without [(system, manage)] is
    refused with 403, nothing being spawned. *)
Theorem C10_system_gadget_ignores_case (name : string) :
  (forall sg, In sg systemGadgets -> asciiLower name = sg ->
              isSystemGadget name = true)
  /\ (isSystemGadget name = true
      <-> exists sg, In sg systemGadgets /\ equalIgnoringCase name sg = true)
  /\ (forall sg (path : string) (e : RBAC.Enforcer DB) (c : Context)
             (req : GadgetExecuteRequest) (claims : Auth.Claims),
        In sg systemGadgets -> asciiLower name = sg ->
        paramName c = name ->
        bound c = inr req ->
        userClaims c = Some claims ->
        RBAC.CheckPermission e (userClaims c) "system" "manage" = false ->
        ExecuteGadget path e c
        = ({| status := 403;
              body := GadgetErrorBody "System gadgets require admin permissions"
                                      name |}, [])).
Proof.
  split; [| split].
  - intros sg Hin Hlower. now apply (variant_is_system name sg).
  - apply isSystemGadget_ignoring_case.
  - intros sg path e c req claims Hin Hlower Hname Hbound Hclaims Hdenied.
    destruct (variant_is_system name sg Hin Hlower) as [Hsystem Hvalid].
    rewrite <- Hname in *.
    now apply (ExecuteGadget_system_denied path e c req claims).
Qed.

(** C2, as the code has it: for a system gadget and an authenticated
    caller who has [(system, manage)] neither directly nor through a
    role, nothing is spawned; the answer is 403 when the name is valid
    and the body of the request binds, and 400 otherwise: 400 with
    "Invalid gadget name" for a name that is not valid, and 400 with the
    error of the binding for a valid name whose body does not bind.  A
    gadget that is not a system gadget is run for such a caller as soon
    as the route lets the request through, that is with
    [(gadgets, execute)]. *)
Theorem C2_system_gadget_gate (path : string) (e : RBAC.Enforcer DB)
        (c : Context) (claims : Auth.Claims) :
  userClaims c = Some claims ->
  fst (RBAC.Enforce e (Auth.Username claims) "system" "manage") = false ->
  (forall role, In role (Auth.Roles claims) ->
                fst (RBAC.Enforce e ("role:" ++ role) "system" "manage") = false) ->
  (isSystemGadget (paramName c) = true ->
   snd (ExecuteGadget path e c) = []
   /\ (status (fst (ExecuteGadget path e c)) = 403
       \/ status (fst (ExecuteGadget path e c)) = 400)
   /\ (forall req, isValidGadgetName (paramName c) = true -> bound c = inr req ->
                   ExecuteGadget path e c
                   = ({| status := 403;
                         body := GadgetErrorBody
                                   "System gadgets require admin permissions"
                                   (paramName c) |}, []))
   /\ (isValidGadgetName (paramName c) = false ->
       ExecuteGadget path e c
       = ({| status := 400; body := ErrorBody "Invalid gadget name" |}, []))
   /\ (forall err, isValidGadgetName (paramName c) = true -> bound c = inl err ->
                   ExecuteGadget path e c
                   = ({| status := 400; body := ErrorBody err |}, []))
   /\ (status (fst (ExecuteGadget path e c)) = 403
       <-> isValidGadgetName (paramName c) = true
           /\ exists req, bound c = inr req)
   /\ (status (fst (ExecuteGadget path e c)) = 400
       <-> isValidGadgetName (paramName c) = false
           \/ exists err, bound c = inl err))
  /\ (isSystemGadget (paramName c) = false ->
      forall req, isValidGadgetName (paramName c) = true -> bound c = inr req ->
      RBAC.RequirePermission e "gadgets" "execute" (userClaims c) = RBAC.Next ->
      executeRoute path e c = ExecuteGadget path e c
      /\ snd (ExecuteGadget path e c)
         = [(path :: "run" :: paramName c :: Args req)%list]
      /\ (status (fst (ExecuteGadget path e c)) = 200
          \/ status (fst (ExecuteGadget path e c)) = 500)).
Proof.
  intros Hclaims Hdirect Hroles.
  assert (Hdenied : RBAC.CheckPermission e (userClaims c) "system" "manage" = false)
    by (rewrite Hclaims; now apply CheckPermission_lacking).
  split.
  - intros Hsystem.
    assert (Hgate : forall req, isValidGadgetName (paramName c) = true ->
                                bound c = inr req ->
                                ExecuteGadget path e c
                                = ({| status := 403;
                                      body := GadgetErrorBody
                                                "System gadgets require admin permissions"
                                                (paramName c) |}, []))
      by (intros req Hvalid Hbound;
          now apply (ExecuteGadget_system_denied path e c req claims)).
    assert (Hunbound : forall err, isValidGadgetName (paramName c) = true ->
                                   bound c = inl err ->
                                   ExecuteGadget path e c
                                   = ({| status := 400; body := ErrorBody err |},
                                      [])).
    { intros err Hvalid Hbound. unfold ExecuteGadget.
      now rewrite Hvalid, Hbound. }
    split; [| split; [| split; [exact Hgate |
                                split; [apply ExecuteGadget_invalid |
                                        split; [exact Hunbound |]]]]].
    + destruct (isValidGadgetName (paramName c)) eqn:Hvalid;
        [| now rewrite ExecuteGadget_invalid].
      destruct (bound c) as [err | req] eqn:Hbound;
        [| now rewrite (Hgate req)].
      now rewrite (Hunbound err).
    + destruct (isValidGadgetName (paramName c)) eqn:Hvalid;
        [| rewrite ExecuteGadget_invalid by assumption; now right].
      destruct (bound c) as [err | req] eqn:Hbound;
        [| rewrite (Hgate req) by reflexivity; now left].
      rewrite (Hunbound err) by reflexivity. now right.
    + destruct (isValidGadgetName (paramName c)) eqn:Hvalid.
      * destruct (bound c) as [err | req] eqn:Hbound.
        -- rewrite (Hunbound err) by reflexivity. cbn [fst status].
           split; split; intros Hyes; try discriminate.
           ++ destruct Hyes as [_ [req Hreq]]. discriminate.
           ++ right. now exists err.
           ++ reflexivity.
        -- rewrite (Hgate req) by reflexivity. cbn [fst status].
           split; split; intros Hyes; try discriminate.
           ++ split; [reflexivity | now exists req].
           ++ reflexivity.
           ++ destruct Hyes as [Hno | [err Herr]]; discriminate.
      * rewrite ExecuteGadget_invalid by assumption. cbn [fst status].
        split; split; intros Hyes; try discriminate.
        -- destruct Hyes as [Hno _]. discriminate.
        -- now left.
        -- reflexivity.
  - intros Hnormal req Hvalid Hbound Hroute.
    assert (Hrun : ExecuteGadget path e c
                   = (let '(response, spawned) :=
                        executeGadgetCommand path (paramName c) (Args req)
                                             (Auth.Username claims) in
                      if Success response
                      then ({| status := 200; body := ExecBody response |}, spawned)
                      else ({| status := 500; body := ExecBody response |}, spawned))).
    { unfold ExecuteGadget. rewrite Hvalid, Hbound, Hclaims, Hnormal. reflexivity. }
    split; [unfold executeRoute; now rewrite Hroute |].
    rewrite Hrun. unfold executeGadgetCommand.
    destruct (CombinedOutput path ("run" :: paramName c :: Args req)%list)
      as [output [| code text | text]]; simpl; split; auto.
Qed.

End SystemGadgets.

(** ** JSON-RPC frames *)

Section JSONValues.
Import GoString JSONString MCP.

Lemma marshalValue_slice (items : list GoValue) :
  marshalValue (GSlice items) = option_map JArray (marshalItems items).
Proof. reflexivity. Qed.

Lemma marshalValue_map (entries : list (string * GoValue)) :
  marshalValue (GMap entries) = option_map JObject (marshalEntries entries).
Proof. reflexivity. Qed.

Lemma toGo_array (items : list JSON) :
  toGo (JArray items) = option_map GSlice (toGoItems items).
Proof. reflexivity. Qed.

Lemma toGo_object (members : list (string * JSON)) :
  toGo (JObject members) = option_map GMap (toGoMembers members []).
Proof. reflexivity. Qed.

(** A key above all the keys of a map goes to its end. *)
Lemma mapInsert_last (k : string) (v : GoValue) (m : list (string * GoValue)) :
  forallb (fun k' => String.ltb k' k) (List.map fst m) = true ->
  mapInsert k v m = (m ++ [(k, v)])%list.
Proof.
  induction m as [| [k' v'] m IH]; intros Hbelow; [reflexivity |].
  simpl in Hbelow. apply andb_true_iff in Hbelow. destruct Hbelow as [Hk Hm].
  simpl. unfold String.ltb in Hk. rewrite String.compare_antisym.
  destruct (String.compare k' k); try discriminate. simpl.
  now rewrite IH.
Qed.

(** Decoding the members of a marshalled map, by increasing key, on top
    of smaller keys, gives the entries back in their order. *)
Lemma toGoMembers_sorted (entries : list (string * GoValue))
      (members : list (string * JSON)) (acc : list (string * GoValue)) :
  Forall (fun kv =>
            native (snd kv) = true ->
            exists j, marshalValue (snd kv) = Some j /\ toGo j = Some (snd kv))
         entries ->
  forallb (fun kv => ValidString (fst kv) && native (snd kv)) entries = true ->
  sortedKeys (List.map fst entries) = true ->
  (forall k1, In k1 (List.map fst acc) ->
              forallb (fun k' => String.ltb k1 k') (List.map fst entries) = true) ->
  exists members,
    marshalEntries entries = Some members
    /\ toGoMembers members acc = Some (acc ++ entries)%list.
Proof.
  clear members. revert acc.
  induction entries as [| [k v] entries IH]; intros acc Hround Hnative Hsorted Hacc.
  - exists []. split; [reflexivity |]. simpl. now rewrite app_nil_r.
  - inversion Hround as [| kv rest Hv Hrest]; subst.
    simpl in Hnative. apply andb_true_iff in Hnative.
    destruct Hnative as [Hkv Hnative].
    apply andb_true_iff in Hkv. destruct Hkv as [Hk Hvn].
    simpl in Hsorted. apply andb_true_iff in Hsorted.
    destruct Hsorted as [Hfirst Hsorted].
    destruct (Hv Hvn) as (j & Hmarshal & Hback). simpl in Hmarshal, Hback.
    assert (Hlast : mapInsert k v acc = (acc ++ [(k, v)])%list).
    { apply mapInsert_last. apply forallb_forall. intros k1 Hin1.
      specialize (Hacc k1 Hin1). simpl in Hacc.
      apply andb_true_iff in Hacc. tauto. }
    destruct (IH (acc ++ [(k, v)])%list Hrest Hnative Hsorted)
      as (members & Hmembers & Hdecoded).
    { intros k1 Hin1. rewrite map_app in Hin1. apply in_app_or in Hin1.
      destruct Hin1 as [Hin1 | [<- | []]].
      - specialize (Hacc k1 Hin1). simpl in Hacc.
        apply andb_true_iff in Hacc. tauto.
      - exact Hfirst. }
    exists ((k, j) :: members). split.
    + simpl. rewrite Hmarshal. fold marshalEntries. rewrite Hmembers.
      now rewrite (coerceUTF8_valid k Hk).
    + simpl. rewrite Hback. fold toGoMembers. rewrite Hlast, Hdecoded.
      now rewrite <- app_assoc.
Qed.

Lemma toGoItems_native (items : list GoValue) :
  Forall (fun v =>
            native v = true ->
            exists j, marshalValue v = Some j /\ toGo j = Some v) items ->
  forallb native items = true ->
  exists js, marshalItems items = Some js /\ toGoItems js = Some items.
Proof.
  induction items as [| v items IH]; intros Hround Hnative.
  - exists []. split; reflexivity.
  - inversion Hround as [| v' rest Hv Hrest]; subst.
    simpl in Hnative. apply andb_true_iff in Hnative.
    destruct Hnative as [Hvn Hnative].
    destruct (Hv Hvn) as (j & Hmarshal & Hback).
    destruct (IH Hrest Hnative) as (js & Hjs & Hitems).
    exists (j :: js). split.
    + simpl. rewrite Hmarshal. fold marshalItems. now rewrite Hjs.
    + simpl. rewrite Hback. fold toGoItems. now rewrite Hitems.
Qed.

(** A native value is marshalled without error and decodes to itself. *)
Lemma native_round_trip (v : GoValue) :
  native v = true ->
  exists j, marshalValue v = Some j /\ toGo j = Some v.
Proof.
  induction v as [| b | n | n | f | s | items IH | entries IH]
    using GoValue_induction; intros Hnative; simpl in Hnative;
    try discriminate.
  - exists JNull. split; reflexivity.
  - exists (JBool b). split; reflexivity.
  - exists (JFloat f). simpl. rewrite Hnative. split; reflexivity.
  - exists (JString s). simpl. rewrite (coerceUTF8_valid s Hnative).
    split; reflexivity.
  - destruct (toGoItems_native items IH Hnative) as (js & Hjs & Hitems).
    exists (JArray js). rewrite marshalValue_slice, toGo_array, Hjs, Hitems.
    split; reflexivity.
  - apply andb_true_iff in Hnative. destruct Hnative as [Hnative Hsorted].
    destruct (toGoMembers_sorted entries [] [] IH Hnative Hsorted)
      as (members & Hmembers & Hdecoded); [intros k1 [] |].
    exists (JObject members).
    rewrite marshalValue_map, toGo_object, Hmembers, Hdecoded.
    split; reflexivity.
Qed.

End JSONValues.

Section Frames.
Import GoString JSONString MCP.

Lemma isNil_eq (v : GoValue) : isNil v = true -> v = GNil.
Proof. destruct v; simpl; intros Hnil; try discriminate; reflexivity. Qed.

(** C4, as the code has it: a frame that [IsResponse] classifies as a
    response has an id, no method, and a result or an error, possibly
    both; [ValidateMessage] accepts such a frame exactly when its version
    is 2.0. *)
Theorem C4_response_shape (msg : Message) :
  IsResponse msg = true ->
  (isNil (ID msg) = false
   /\ Method msg = ""
   /\ (isNil (Result msg) = false \/ isNilError (Error msg) = false))
  /\ (ValidateMessage msg = None <-> JSONRPC msg = "2.0").
Proof.
  intros Hresponse. pose proof Hresponse as Hshape.
  unfold IsResponse in Hshape.
  apply andb_true_iff in Hshape. destruct Hshape as [Hshape Hcontent].
  apply andb_true_iff in Hshape. destruct Hshape as [Hid Hmethod].
  apply negb_true_iff in Hid. apply String.eqb_eq in Hmethod.
  apply orb_true_iff in Hcontent.
  split.
  - repeat split; [exact Hid | exact Hmethod |].
    destruct Hcontent as [Hr | He]; [left | right]; now apply negb_true_iff.
  - unfold ValidateMessage, validateRequest, validateResponse, IsRequest.
    rewrite Hresponse, Hid, Hmethod. simpl.
    destruct (String.eqb_spec (JSONRPC msg) "2.0") as [Hv | Hv]; simpl.
    + split; [intros _; exact Hv | intros _].
      destruct Hcontent as [Hr | He].
      * apply negb_true_iff in Hr. now rewrite Hr.
      * apply negb_true_iff in He. rewrite He. now rewrite andb_false_r.
    + split; [discriminate | intros Heq; now elim Hv].
Qed.

Section Decoding.
Context `{UnicodeTables}.

Lemma setFields_cons (m : Message) (k : string) (j : JSON)
      (rest : list (string * JSON)) :
  setFields m ((k, j) :: rest)
  = let '(m1, ok1) := setField m k j in
    let '(m2, ok2) := setFields m1 rest in
    (m2, ok1 && ok2).
Proof. reflexivity. Qed.

Lemma setField_jsonrpc (m : Message) (s : string) :
  setField m "jsonrpc" (JString s)
  = ({| JSONRPC := s; ID := ID m; Method := Method m; Params := Params m;
        Result := Result m; Error := Error m |}, true).
Proof. reflexivity. Qed.

Lemma setField_method (m : Message) (s : string) :
  setField m "method" (JString s)
  = ({| JSONRPC := JSONRPC m; ID := ID m; Method := s; Params := Params m;
        Result := Result m; Error := Error m |}, true).
Proof. reflexivity. Qed.

Lemma setField_id (m : Message) (j : JSON) (v : GoValue) :
  toGo j = Some v ->
  setField m "id" j
  = ({| JSONRPC := JSONRPC m; ID := v; Method := Method m; Params := Params m;
        Result := Result m; Error := Error m |}, true).
Proof.
  intros Hback. unfold setField.
  change (fieldOf ["jsonrpc"; "id"; "method"; "params"; "result"; "error"] "id")
    with (Some "id").
  cbv iota. now rewrite Hback.
Qed.

Lemma setField_params (m : Message) (j : JSON) (v : GoValue) :
  toGo j = Some v ->
  setField m "params" j
  = ({| JSONRPC := JSONRPC m; ID := ID m; Method := Method m; Params := v;
        Result := Result m; Error := Error m |}, true).
Proof.
  intros Hback. unfold setField.
  change (fieldOf ["jsonrpc"; "id"; "method"; "params"; "result"; "error"] "params")
    with (Some "params").
  cbv iota. now rewrite Hback.
Qed.

Lemma setField_result (m : Message) (j : JSON) (v : GoValue) :
  toGo j = Some v ->
  setField m "result" j
  = ({| JSONRPC := JSONRPC m; ID := ID m; Method := Method m; Params := Params m;
        Result := v; Error := Error m |}, true).
Proof.
  intros Hback. unfold setField.
  change (fieldOf ["jsonrpc"; "id"; "method"; "params"; "result"; "error"] "result")
    with (Some "result").
  cbv iota. now rewrite Hback.
Qed.

Lemma setField_error (m : Message) (members : list (string * JSON))
      (e : RPCError) :
  Error m = None ->
  setErrorFields zeroRPCError members = (e, true) ->
  setField m "error" (JObject members)
  = ({| JSONRPC := JSONRPC m; ID := ID m; Method := Method m; Params := Params m;
        Result := Result m; Error := Some e |}, true).
Proof.
  intros Hnone Hfields. unfold setField.
  change (fieldOf ["jsonrpc"; "id"; "method"; "params"; "result"; "error"] "error")
    with (Some "error").
  cbv iota. now rewrite Hnone, Hfields.
Qed.

Lemma setErrorField_data (e : RPCError) (j : JSON) (v : GoValue) :
  toGo j = Some v ->
  setErrorField e "data" j
  = ({| Code := Code e; ErrMessage := ErrMessage e; Data := v |}, true).
Proof.
  intros Hback. unfold setErrorField.
  change (fieldOf ["code"; "message"; "data"] "data") with (Some "data").
  cbv iota. now rewrite Hback.
Qed.

(** The error object of a native frame decodes to the error. *)
Lemma error_round_trip (e : RPCError) :
  nativeError (Some e) = true ->
  exists j members,
    marshalRPCError e = Some j /\ j = JObject members
    /\ setErrorFields zeroRPCError members = (e, true).
Proof.
  unfold nativeError. intros Hnative.
  apply andb_true_iff in Hnative. destruct Hnative as [Hnative Hdata].
  apply andb_true_iff in Hnative. destruct Hnative as [Hcode Hmessage].
  destruct (native_round_trip (Data e) Hdata) as (jdata & Hmarshal & Hback).
  unfold marshalRPCError. rewrite Hmarshal.
  rewrite (coerceUTF8_valid _ Hmessage).
  eexists. eexists. split; [reflexivity |]. split; [reflexivity |].
  destruct e as [code message data]. cbn [Code ErrMessage Data] in *.
  assert (Hhead : forall rest,
             setErrorFields zeroRPCError
               (("code", JInt code) :: ("message", JString message) :: rest)
             = (let '(e2, ok2) :=
                  setErrorFields
                    {| Code := code; ErrMessage := message; Data := GNil |} rest in
                (e2, ok2))).
  { intros rest. cbn [setErrorFields].
    unfold setErrorField at 1.
    change (fieldOf ["code"; "message"; "data"] "code") with (Some "code").
    cbv iota. rewrite Hcode.
    unfold setErrorField at 1.
    change (fieldOf ["code"; "message"; "data"] "message") with (Some "message").
    cbv iota. cbn [Code ErrMessage Data zeroRPCError].
    destruct (setErrorFields _ rest) as [e2 ok2]. reflexivity. }
  cbn [app]. rewrite Hhead.
  destruct (isNil data) eqn:Hnil; cbn [omitempty setErrorFields].
  - apply isNil_eq in Hnil. now subst data.
  - rewrite (setErrorField_data _ jdata data Hback). reflexivity.
Qed.

(** C5, as the code has it: a frame made of the values of a JSON
    decoder, its texts in valid UTF-8, is marshalled without error and
    decodes to itself, whether it is a valid frame or not. *)
Theorem C5_round_trip_native (msg : Message) :
  nativeMessage msg = true ->
  exists data,
    MarshalMessage msg = Some data /\ UnmarshalMessage data = Some msg.
Proof.
  unfold nativeMessage. intros Hnative.
  repeat match type of Hnative with
         | (_ && _) = true =>
             let H1 := fresh "Hn" in
             apply andb_true_iff in Hnative; destruct Hnative as [Hnative H1]
         end.
  rename Hnative into Hversion.
  destruct msg as [version id method params result error].
  cbn [JSONRPC ID Method Params Result Error] in *.
  destruct (native_round_trip id Hn3) as (jid & Hid & Hidback).
  destruct (native_round_trip params Hn1) as (jparams & Hparams & Hparamsback).
  destruct (native_round_trip result Hn0) as (jresult & Hresult & Hresultback).
  unfold MarshalMessage. cbn [JSONRPC ID Method Params Result Error].
  rewrite Hid, Hparams, Hresult.
  rewrite (coerceUTF8_valid _ Hversion), (coerceUTF8_valid _ Hn2).
  assert (Herror :
            exists jerror,
              match error with
              | Some e => marshalRPCError e
              | None => Some JNull
              end = Some jerror
              /\ forall m, Error m = None ->
                           setFields m (omitempty (isNilError error) "error" jerror)
                           = ({| JSONRPC := JSONRPC m; ID := ID m;
                                 Method := Method m; Params := Params m;
                                 Result := Result m; Error := error |}, true)).
  { destruct error as [e |].
    - destruct (error_round_trip e Hn) as (j & members & Hj & -> & Hfields).
      exists (JObject members). split; [exact Hj |].
      intros m Hnone. cbn [isNilError omitempty]. rewrite setFields_cons.
      rewrite (setField_error m members e Hnone Hfields). reflexivity.
    - exists JNull. split; [reflexivity |].
      intros m Hnone. cbn [isNilError omitempty setFields].
      destruct m; simpl in *; now subst. }
  destruct Herror as (jerror & Hjerror & Herrorback).
  rewrite Hjerror. eexists. split; [reflexivity |].
  unfold UnmarshalMessage. cbn [app]. rewrite setFields_cons, setField_jsonrpc.
  cbn [JSONRPC ID Method Params Result Error zeroMessage].
  destruct (isNil id) eqn:Hidnil; destruct (String.eqb_spec method "") as [Hm | Hm];
    destruct (isNil params) eqn:Hparamsnil; destruct (isNil result) eqn:Hresultnil;
    cbn [omitempty app];
    repeat match goal with
           | Hnil : isNil ?v = true |- _ => apply isNil_eq in Hnil; subst v
           end;
    subst;
    repeat (first [ rewrite setFields_cons
                  | rewrite (setField_id _ _ _ Hidback)
                  | rewrite setField_method
                  | rewrite (setField_params _ _ _ Hparamsback)
                  | rewrite (setField_result _ _ _ Hresultback) ];
            cbn [JSONRPC ID Method Params Result Error]);
    rewrite Herrorback by reflexivity;
    cbn [JSONRPC ID Method Params Result Error andb]; reflexivity.
Qed.

End Decoding.

End Frames.

Section FrameExamples.
Import GoString MCP.

(** C4 as stated fails: a frame with an id, a result and an error is
    classified as a response and accepted. *)
Lemma C4_result_and_error_counterexample :
  IsResponse bothResultAndError = true
  /\ isNil (Result bothResultAndError) = false
  /\ isNilError (Error bothResultAndError) = false
  /\ ValidateMessage bothResultAndError = None.
Proof. repeat split. Qed.

Lemma C4_response_shape_witness :
  (isNil (ID toolResponse) = false
   /\ Method toolResponse = ""
   /\ (isNil (Result toolResponse) = false
       \/ isNilError (Error toolResponse) = false))
  /\ (ValidateMessage toolResponse = None <-> JSONRPC toolResponse = "2.0").
Proof.
  apply (C4_response_shape toolResponse). reflexivity.
Defined.

(** C5 as stated fails: the request is a valid frame, and its id, the
    [uint64] 1, comes back from its JSON form as the [float64] 1. *)
Lemma C5_integer_id_counterexample :
  ValidateMessage listToolsRequest = None
  /\ ID listToolsRequest = GUint64 1
  /\ exists data,
       MarshalMessage listToolsRequest = Some data
       /\ @UnmarshalMessage asciiTables data
          = Some (CreateRequest (GFloat64 (float64OfInt 1)) "tools/list" GNil)
       /\ @UnmarshalMessage asciiTables data <> Some listToolsRequest.
Proof.
  split; [reflexivity |]. split; [reflexivity |].
  eexists. split; [reflexivity |]. split; [vm_compute; reflexivity |].
  vm_compute. discriminate.
Qed.

Lemma C5_round_trip_native_witness :
  exists data,
    MarshalMessage toolResponse = Some data
    /\ @UnmarshalMessage asciiTables data = Some toolResponse.
Proof.
  apply (@C5_round_trip_native asciiTables toolResponse).
  vm_compute. reflexivity.
Defined.

End FrameExamples.

Section GadgetExamples.
Import GoString Integration.

(** C2 as stated fails: bob has [(system, manage)] neither directly nor
    through his role, [process] is a system gadget, the route lets bob
    through, who has [(gadgets, execute)], and the request whose body
    does not bind is answered with 400. *)
Lemma C2_unbound_body_counterexample :
  @isSystemGadget asciiTables "process" = true
  /\ @RBAC.CheckPermission _ seededStore (Some bobClaims) "system" "manage" = false
  /\ @ExecuteGadget asciiTables echoHost _ gadgetBinary seededStore processUnbound
     = ({| status := 400; body := ErrorBody "EOF" |}, [])
  /\ @executeRoute asciiTables echoHost _ gadgetBinary seededStore processUnbound
     = ({| status := 400; body := ErrorBody "EOF" |}, []).
Proof. repeat split; vm_compute; reflexivity. Qed.

Lemma bob_lacks_system_manage :
  fst (@RBAC.Enforce _ seededStore (Auth.Username bobClaims) "system" "manage") = false
  /\ forall role, In role (Auth.Roles bobClaims) ->
                  fst (@RBAC.Enforce _ seededStore ("role:" ++ role) "system" "manage")
                  = false.
Proof.
  split; [vm_compute; reflexivity |].
  intros role [<- | []]. vm_compute. reflexivity.
Defined.

Lemma C2_system_gadget_gate_witness :
  @ExecuteGadget asciiTables echoHost _ gadgetBinary seededStore sysinfoBound
  = (forbidden "SysInfo", [])
  /\ @executeRoute asciiTables echoHost _ gadgetBinary seededStore echoBound
     = @ExecuteGadget asciiTables echoHost _ gadgetBinary seededStore echoBound
  /\ snd (@ExecuteGadget asciiTables echoHost _ gadgetBinary seededStore echoBound)
     = [[gadgetBinary; "run"; "echo"; "hi"]]
  /\ @ExecuteGadget asciiTables echoHost _ gadgetBinary seededStore processUnbound
     = ({| status := 400; body := ErrorBody "EOF" |}, []).
Proof.
  pose proof (@C2_system_gadget_gate asciiTables echoHost _
                gadgetBinary seededStore processUnbound bobClaims eq_refl
                (proj1 bob_lacks_system_manage) (proj2 bob_lacks_system_manage))
    as [Hunbound _].
  pose proof (@C2_system_gadget_gate asciiTables echoHost _
                gadgetBinary seededStore sysinfoBound bobClaims eq_refl
                (proj1 bob_lacks_system_manage) (proj2 bob_lacks_system_manage))
    as [Hsystem _].
  pose proof (@C2_system_gadget_gate asciiTables echoHost _
                gadgetBinary seededStore echoBound bobClaims eq_refl
                (proj1 bob_lacks_system_manage) (proj2 bob_lacks_system_manage))
    as [_ Hnormal].
  split; [| split; [| split]].
  - destruct (Hsystem eq_refl) as (_ & _ & Hgate & _).
    exact (Hgate helloRequest eq_refl eq_refl).
  - specialize (Hnormal eq_refl helloRequest eq_refl eq_refl eq_refl).
    now destruct Hnormal as (Hroute & _).
  - specialize (Hnormal eq_refl helloRequest eq_refl eq_refl eq_refl).
    now destruct Hnormal as (_ & Hspawned & _).
  - destruct (Hunbound eq_refl) as (_ & _ & _ & _ & Hrefused & _).
    exact (Hrefused "EOF" eq_refl eq_refl).
Defined.

Lemma C6_gadget_name_validation_witness :
  @ExecuteGadget asciiTables echoHost _ gadgetBinary seededStore shellBound
  = ({| status := 400; body := ErrorBody "Invalid gadget name" |}, []).
Proof.
  apply (proj2 (@C6_gadget_name_validation asciiTables echoHost _ "echo;ls")).
  - reflexivity.
  - vm_compute. reflexivity.
Defined.

(** The bounds of C6: one and fifty characters are accepted, none and
    fifty-one are refused. *)
Example gadget_name_bounds :
  isValidGadgetName "a" = true
  /\ isValidGadgetName "abcdefghijklmnopqrstuvwxyzABCDEFGHIJKLMNOPQRSTUVWX" = true
  /\ isValidGadgetName "" = false
  /\ isValidGadgetName "abcdefghijklmnopqrstuvwxyzABCDEFGHIJKLMNOPQRSTUVWXY" = false.
Proof. repeat split; vm_compute; reflexivity. Qed.

Lemma C10_system_gadget_ignores_case_witness :
  @isSystemGadget asciiTables "SysInfo" = true
  /\ @ExecuteGadget asciiTables echoHost _ gadgetBinary seededStore sysinfoBound
     = (forbidden "SysInfo", []).
Proof.
  pose proof (@C10_system_gadget_ignores_case asciiTables echoHost
                (list RBAC.Rule) "SysInfo") as (Hvariant & _ & Hgate).
  split.
  - apply (Hvariant "sysinfo"); [left | ]; reflexivity.
  - apply (Hgate "sysinfo" gadgetBinary seededStore sysinfoBound helloRequest
                 bobClaims).
    + left; reflexivity.
    + reflexivity.
    + reflexivity.
    + reflexivity.
    + reflexivity.
    + vm_compute. reflexivity.
Defined.

(** The long s folds to s: the name is a system gadget for
    [isSystemGadget], and not a valid name. *)
Example long_s_is_folded :
  @isSystemGadget asciiTables
    (String (ascii_of_nat 197) (String (ascii_of_nat 191) "ysinfo")) = true
  /\ isValidGadgetName
       (String (ascii_of_nat 197) (String (ascii_of_nat 191) "ysinfo")) = false.
Proof. split; vm_compute; reflexivity. Qed.

End GadgetExamples.

(** * Further properties *)

(** ** Frames: validation, kinds and identifiers *)

Section FrameKinds.
Import GoString MCP.

(** X1: [ValidateMessage] looks at the version and at nothing else: a
    frame is accepted exactly when its version is 2.0, and a frame that
    is refused is refused for its version.  The four other refusals of
    the function cannot be reached. *)
Theorem ValidateMessage_checks_version_only (msg : Message) :
  (ValidateMessage msg = None <-> JSONRPC msg = "2.0")
  /\ (forall err,
        ValidateMessage msg = Some err ->
        err = mcpError InvalidRequest "Invalid JSON-RPC version").
Proof.
  unfold ValidateMessage, validateRequest, validateResponse, IsRequest,
    IsResponse.
  destruct (String.eqb_spec (JSONRPC msg) "2.0") as [Hv | Hv]; simpl.
  - destruct (String.eqb (Method msg) ""), (isNil (ID msg)),
      (isNil (Result msg)), (isNilError (Error msg)); simpl;
      (split; [split; [intros _; exact Hv | reflexivity] | discriminate]).
  - split; [split; [discriminate | intros Heq; now elim Hv] |].
    intros err Herr. now inversion Herr.
Qed.

(** A frame is of one kind at most; a frame with an id and a method
    is a request whatever else it carries, and one with a method is
    never a response.  The constructors build frames that pass the
    validation; [CreateRequest] and [CreateErrorResponse] with an id
    build a request and an error response, [CreateNotification] a
    notification, when the method is not empty; [CreateResponse] builds
    a response unless the result is [nil], and then a frame of no kind. *)
Theorem frame_kinds (msg : Message) :
  (IsRequest msg && IsResponse msg = false
   /\ IsRequest msg && IsNotification msg = false
   /\ IsResponse msg && IsNotification msg = false)
  /\ (forall id method params,
        IsRequest (CreateRequest id method params)
        = negb (String.eqb method "") && negb (isNil id)
        /\ ValidateMessage (CreateRequest id method params) = None)
  /\ (forall method params,
        IsNotification (CreateNotification method params)
        = negb (String.eqb method "")
        /\ ValidateMessage (CreateNotification method params) = None)
  /\ (forall id code message data,
        IsResponse (CreateErrorResponse id code message data) = negb (isNil id)
        /\ IsError (CreateErrorResponse id code message data) = true
        /\ ValidateMessage (CreateErrorResponse id code message data) = None)
  /\ (forall id result,
        IsResponse (CreateResponse id result)
        = negb (isNil id) && negb (isNil result)
        /\ IsRequest (CreateResponse id result) = false
        /\ IsNotification (CreateResponse id result) = false
        /\ ValidateMessage (CreateResponse id result) = None).
Proof.
  split; [| split; [| split; [| split]]].
  - unfold IsRequest, IsResponse, IsNotification.
    destruct (String.eqb (Method msg) ""), (isNil (ID msg)),
      (isNil (Result msg)), (isNilError (Error msg)); repeat split.
  - intros id method params. split; [reflexivity |].
    unfold ValidateMessage, validateRequest, validateResponse, IsRequest,
      IsResponse. simpl.
    destruct (String.eqb method ""), (isNil id); reflexivity.
  - intros method params. split.
    + unfold IsNotification. simpl. now rewrite andb_true_r.
    + unfold ValidateMessage, validateRequest, validateResponse, IsRequest,
        IsResponse. simpl.
      destruct (String.eqb method ""); reflexivity.
  - intros id code message data. repeat split.
    + unfold IsResponse. simpl. now rewrite !andb_true_r.
    + unfold ValidateMessage, validateRequest, validateResponse, IsRequest,
        IsResponse. simpl.
      destruct (isNil id); reflexivity.
  - intros id result. repeat split.
    + unfold IsResponse. simpl. now rewrite orb_false_r, andb_true_r.
    + unfold ValidateMessage, validateRequest, validateResponse, IsRequest,
        IsResponse. simpl.
      destruct (isNil id), (isNil result); reflexivity.
Qed.

Lemma Next_small (counter : Z) :
  0 <= counter < 2 ^ 64 - 1 -> Next counter = (counter + 1, counter + 1).
Proof.
  intros Hrange. unfold Next. rewrite Z.mod_small by lia. reflexivity.
Qed.

Lemma ids_from (n : nat) (counter : Z) :
  0 <= counter -> counter + Z.of_nat n < 2 ^ 64 ->
  ids n counter = List.map (fun k => counter + Z.of_nat k) (seq 1 n).
Proof.
  revert counter. induction n as [| n IH]; intros counter Hlow Hhigh.
  - reflexivity.
  - cbn [ids]. rewrite Next_small by lia.
    rewrite IH by lia. cbn [seq List.map]. apply (f_equal2 cons); [lia |].
    rewrite <- (seq_shift n 1), map_map. apply map_ext. intros k. lia.
Qed.

(** X2: the ids of a new generator are 1, 2, 3, ... in this order, as
    long as fewer than 2^64 were drawn: they are not zero and no two of
    them are the same.  The id after 2^64 - 1 is 0. *)
Theorem generator_ids (n : nat) :
  Z.of_nat n < 2 ^ 64 ->
  ids n 0 = List.map Z.of_nat (seq 1 n)
  /\ NoDup (ids n 0)
  /\ ~ In 0 (ids n 0)
  /\ Next (2 ^ 64 - 1) = (0, 0).
Proof.
  intros Hn.
  assert (Hids : ids n 0 = List.map Z.of_nat (seq 1 n)).
  { rewrite ids_from by lia. apply map_ext. intros k. lia. }
  rewrite Hids. repeat split.
  - apply NoDup_map_NoDup_ForallPairs; [| apply seq_NoDup].
    intros a b _ _ Hab. lia.
  - intros Hzero. apply in_map_iff in Hzero.
    destruct Hzero as (k & Hk & Hin). apply in_seq in Hin. lia.
Qed.

Lemma generator_ids_witness :
  ids 3 0 = [1; 2; 3] /\ NoDup (ids 3 0) /\ ~ In 0 (ids 3 0)
  /\ Next (2 ^ 64 - 1) = (0, 0).
Proof.
  apply (generator_ids 3). reflexivity.
Defined.

End FrameKinds.

(** ** Frames read from JSON, and the client that waits for them *)

Section DecodedFrames.
Import GoString JSONString MCP MCPClient.

Lemma mapInsert_fromJSON (k : string) (v : GoValue) (m : list (string * GoValue)) :
  fromJSON v = true ->
  forallb (fun kv => fromJSON (snd kv)) m = true ->
  forallb (fun kv => fromJSON (snd kv)) (mapInsert k v m) = true.
Proof.
  intros Hv. induction m as [| [k' v'] m IH]; intros Hm.
  - simpl. now rewrite Hv.
  - simpl in Hm. apply andb_true_iff in Hm. destruct Hm as [Hv' Hm].
    simpl. destruct (String.compare k k'); simpl.
    + now rewrite Hv, Hm.
    + now rewrite Hv, Hv', Hm.
    + now rewrite Hv', IH.
Qed.

Lemma toGoItems_fromJSON (items : list JSON) :
  Forall (fun j => forall v, toGo j = Some v -> fromJSON v = true) items ->
  forall vs, toGoItems items = Some vs -> forallb fromJSON vs = true.
Proof.
  induction 1 as [| j items Hj Hitems IH]; intros vs Hvs.
  - inversion Hvs. reflexivity.
  - cbn [toGoItems] in Hvs. fold toGoItems in Hvs.
    destruct (toGo j) as [v |] eqn:Hv; [| discriminate].
    destruct (toGoItems items) as [rest |] eqn:Hrest; [| discriminate].
    inversion Hvs; subst. simpl. rewrite (Hj v eq_refl). now apply IH.
Qed.

Lemma toGoMembers_fromJSON (members : list (string * JSON)) :
  Forall (fun kj => forall v, toGo (snd kj) = Some v -> fromJSON v = true)
         members ->
  forall acc entries,
    forallb (fun kv => fromJSON (snd kv)) acc = true ->
    toGoMembers members acc = Some entries ->
    forallb (fun kv => fromJSON (snd kv)) entries = true.
Proof.
  induction 1 as [| [k j] members Hj Hmembers IH]; intros acc entries Hacc Hrun.
  - inversion Hrun; subst. exact Hacc.
  - cbn [toGoMembers] in Hrun. fold toGoMembers in Hrun.
    simpl in Hj. destruct (toGo j) as [v |] eqn:Hv; [| discriminate].
    apply (IH (mapInsert k v acc)); [| exact Hrun].
    apply mapInsert_fromJSON; [now apply Hj | exact Hacc].
Qed.

(** What [json.Unmarshal] stores in an [interface{}] holds no Go
    integer. *)
Lemma toGo_fromJSON (j : JSON) (v : GoValue) :
  toGo j = Some v -> fromJSON v = true.
Proof.
  revert v.
  induction j as [| b | n | f | s | items IH | members IH]
    using JSON_induction; intros v Hv; simpl in Hv.
  - now inversion Hv.
  - now inversion Hv.
  - destruct (isFinite (float64OfInt n)) eqn:Hfin; inversion Hv. exact Hfin.
  - destruct (isFinite f) eqn:Hfin; inversion Hv. exact Hfin.
  - now inversion Hv.
  - change (option_map GSlice (toGoItems items) = Some v) in Hv.
    destruct (toGoItems items) as [vs |] eqn:Hvs; inversion Hv.
    simpl. now apply (toGoItems_fromJSON items IH).
  - change (option_map GMap (toGoMembers members []) = Some v) in Hv.
    destruct (toGoMembers members []) as [entries |] eqn:Hentries;
      inversion Hv.
    simpl. now apply (toGoMembers_fromJSON members IH [] entries).
Qed.

Section Decoding.
Context `{UnicodeTables}.

Lemma setErrorField_fromJSON (e : RPCError) (key : string) (j : JSON) :
  fromJSON (Data e) = true ->
  fromJSON (Data (fst (setErrorField e key j))) = true.
Proof.
  intros He. unfold setErrorField.
  destruct (fieldOf _ key) as [name |]; [| exact He].
  repeat match goal with
         | |- context [match ?x with _ => _ end] =>
             match type of x with
             | string => destruct x
             | ascii => destruct x
             | bool => destruct x
             end; try exact He
         end;
    try (destruct j; try exact He;
         match goal with
         | |- context [if ?c then _ else _] => destruct c
         end; exact He);
    try (destruct j; exact He).
  destruct (toGo j) as [v |] eqn:Hv; [| exact He].
  simpl. now apply (toGo_fromJSON j).
Qed.

Lemma setErrorFields_fromJSON (members : list (string * JSON)) (e : RPCError) :
  fromJSON (Data e) = true ->
  fromJSON (Data (fst (setErrorFields e members))) = true.
Proof.
  revert e. induction members as [| [k j] members IH]; intros e He.
  - exact He.
  - cbn [setErrorFields].
    pose proof (setErrorField_fromJSON e k j He) as Hstep.
    destruct (setErrorField e k j) as [e1 ok1]. simpl in Hstep.
    specialize (IH e1 Hstep).
    destruct (setErrorFields e1 members) as [e2 ok2]. exact IH.
Qed.

Lemma setField_fromJSON (m : Message) (key : string) (j : JSON) :
  fromJSONMessage m = true ->
  fromJSONMessage (fst (setField m key j)) = true.
Proof.
  intros Hm. pose proof Hm as Hparts. unfold fromJSONMessage in Hparts.
  repeat (apply andb_true_iff in Hparts;
          let Hlast := fresh "Hpart" in destruct Hparts as [Hparts Hlast]).
  unfold setField.
  destruct (fieldOf _ key) as [name |]; [| exact Hm].
  repeat match goal with
         | |- context [match ?x with _ => _ end] =>
             match type of x with
             | string => destruct x
             | ascii => destruct x
             | bool => destruct x
             end; try exact Hm
         end;
    try (destruct (toGo j) as [v |] eqn:Hv; [| exact Hm];
         pose proof (toGo_fromJSON j v Hv) as Hfrom;
         unfold fromJSONMessage; cbn [fst ID Params Result Error];
         now rewrite ?Hfrom, ?Hparts, ?Hpart, ?Hpart0, ?Hpart1).
  all: destruct j; try exact Hm.
  all: try (unfold fromJSONMessage;
            cbn [fst ID Params Result Error JSONRPC fromJSONError];
            now rewrite ?Hparts, ?Hpart, ?Hpart0, ?Hpart1).
  assert (He0 : fromJSON (Data match Error m with
                                | Some e => e
                                | None => zeroRPCError
                                end) = true).
  { destruct (Error m); [exact Hpart | reflexivity]. }
  pose proof (setErrorFields_fromJSON members _ He0) as Hdata.
  destruct (setErrorFields _ members) as [e ok]. simpl in Hdata.
  unfold fromJSONMessage; cbn [fst ID Params Result Error fromJSONError].
  now rewrite ?Hparts, ?Hpart0, ?Hpart1, Hdata.
Qed.

Lemma setFields_fromJSON (members : list (string * JSON)) (m : Message) :
  fromJSONMessage m = true ->
  fromJSONMessage (fst (setFields m members)) = true.
Proof.
  revert m. induction members as [| [k j] members IH]; intros m Hm.
  - exact Hm.
  - cbn [setFields].
    pose proof (setField_fromJSON m k j Hm) as Hstep.
    destruct (setField m k j) as [m1 ok1]. simpl in Hstep.
    specialize (IH m1 Hstep).
    destruct (setFields m1 members) as [m2 ok2]. exact IH.
Qed.

Lemma UnmarshalMessage_fromJSON (data : JSON) (m : Message) :
  UnmarshalMessage data = Some m -> fromJSONMessage m = true.
Proof.
  intros Hread. unfold UnmarshalMessage in Hread.
  destruct data; try discriminate.
  - now inversion Hread.
  - pose proof (setFields_fromJSON members zeroMessage eq_refl) as Hm.
    destruct (setFields zeroMessage members) as [m' ok]. simpl in Hm.
    destruct ok; inversion Hread; subst. exact Hm.
Qed.

End Decoding.

End DecodedFrames.

Section ClientAndTransport.
Import GoString JSONString MCP MCPClient Transport.
Context `{UnicodeTables}.

(** X3: the frame that [UnmarshalMessage] reads holds, in its id, its
    parameters, its result and the data of its error, only the values
    of a JSON decoder: its id is never a Go integer, whatever the JSON
    text was. *)
Theorem decoded_frame_has_no_integer (data : JSON) (m : Message) :
  UnmarshalMessage data = Some m ->
  fromJSONMessage m = true
  /\ forall n, ID m <> GUint64 n /\ ID m <> GInt n.
Proof.
  intros Hread. pose proof (UnmarshalMessage_fromJSON data m Hread) as Hm.
  split; [exact Hm |].
  unfold fromJSONMessage in Hm.
  apply andb_true_iff in Hm. destruct Hm as [Hm _].
  apply andb_true_iff in Hm. destruct Hm as [Hm _].
  apply andb_true_iff in Hm. destruct Hm as [Hid _].
  intros n. split; intros Heq; rewrite Heq in Hid; discriminate.
Qed.

Lemma deliver_unknown (pending : Pending) (m : Message) :
  registeredByClient pending = true ->
  fromJSON (ID m) = true ->
  deliver pending m = UnknownRequest.
Proof.
  intros Hkeys Hid. induction pending as [| [k ch] pending IH].
  - reflexivity.
  - simpl in Hkeys. apply andb_true_iff in Hkeys.
    destruct Hkeys as [Hk Hkeys]. cbn [deliver].
    destruct k; try discriminate.
    destruct (ID m); try discriminate; cbn [ifaceEq]; now rewrite IH.
Qed.

Lemma register_uint64 (pending : Pending) (id : Z) :
  registeredByClient pending = true ->
  registeredByClient (register pending (GUint64 id)) = true.
Proof.
  induction pending as [| [k ch] pending IH]; intros Hkeys.
  - reflexivity.
  - simpl in Hkeys. apply andb_true_iff in Hkeys.
    destruct Hkeys as [Hk Hkeys]. cbn [register].
    destruct (ifaceEq k (GUint64 id)); simpl.
    + exact Hkeys.
    + now rewrite Hk, IH.
Qed.

Lemma deliver_registered (pending : Pending) (id : Z) (m : Message) :
  registeredByClient pending = true ->
  ID m = GUint64 id ->
  exists pending', deliver (register pending (GUint64 id)) m = Delivered pending'.
Proof.
  intros Hkeys Hid. induction pending as [| [k ch] pending IH].
  - cbn [register deliver]. rewrite Hid. cbn [ifaceEq]. rewrite Z.eqb_refl.
    eexists. reflexivity.
  - simpl in Hkeys. apply andb_true_iff in Hkeys.
    destruct Hkeys as [Hk Hkeys]. cbn [register].
    destruct (ifaceEq k (GUint64 id)) eqn:Hsame.
    + cbn [deliver]. rewrite Hid. cbn [ifaceEq]. rewrite Z.eqb_refl.
      eexists. reflexivity.
    + cbn [deliver]. rewrite Hid, Hsame.
      destruct (IH Hkeys) as (pending' & Hdelivered).
      rewrite Hdelivered. eexists. reflexivity.
Qed.

(** X4: [sendRequest] registers the channel of a request under the
    [uint64] id of the generator.  The response to that request is
    delivered when it reaches [handleMessages] as the Go value that was
    built for it; no frame that was read from JSON is ever delivered,
    neither to this request nor to another one that waits: its id is
    not a [uint64], and [handleResponse] finds no channel for it. *)
Theorem decoded_response_is_not_delivered
        (counter : Z) (pending : Pending) (method : string)
        (params result : GoValue) (data : JSON) (m : Message) :
  registeredByClient pending = true ->
  isNil result = false ->
  UnmarshalMessage data = Some m ->
  let '(counter', waiting, request) :=
    sendRequest counter pending method params in
  registeredByClient waiting = true
  /\ ID request = GUint64 counter'
  /\ (exists waiting',
        handleMessage waiting (CreateResponse (ID request) result)
        = Response (Delivered waiting'))
  /\ (forall waiting', handleMessage waiting m <> Response (Delivered waiting'))
  /\ (IsResponse m = true ->
      handleMessage waiting m = Response UnknownRequest
      \/ handleMessage waiting m = Response Panic
      \/ handleMessage waiting m = Dropped).
Proof.
  intros Hkeys Hresult Hread. unfold sendRequest, Next.
  set (id := (counter + 1) mod 2 ^ 64).
  pose proof (register_uint64 pending id Hkeys) as Hwaiting.
  split; [exact Hwaiting |]. split; [reflexivity |].
  pose proof (UnmarshalMessage_fromJSON data m Hread) as Hm.
  unfold fromJSONMessage in Hm.
  apply andb_true_iff in Hm. destruct Hm as [Hm _].
  apply andb_true_iff in Hm. destruct Hm as [Hm _].
  apply andb_true_iff in Hm. destruct Hm as [Hid _].
  pose proof (deliver_unknown _ m Hwaiting Hid) as Hunknown.
  split; [| split].
  - destruct (deliver_registered pending id
                (CreateResponse (GUint64 id) result) Hkeys eq_refl)
      as (waiting' & Hdelivered).
    exists waiting'.
    unfold handleMessage, processMessage, handleResponse, ValidateMessage,
      validateRequest, validateResponse, IsRequest, IsResponse.
    cbn [CreateRequest CreateResponse ID Method Result Error JSONRPC
         String.eqb Ascii.eqb Bool.eqb isNil isNilError negb andb orb
         hashable].
    rewrite Hresult. cbn [negb andb orb]. now rewrite Hdelivered.
  - intros waiting'. unfold handleMessage, processMessage, handleResponse.
    destruct (ValidateMessage m); [discriminate |].
    destruct (IsResponse m).
    + destruct (hashable (ID m)); cbn [negb]; [| discriminate].
      rewrite Hunknown. discriminate.
    + destruct (IsNotification m); [discriminate |].
      destruct (IsRequest m); discriminate.
  - intros Hresponse. unfold handleMessage, processMessage, handleResponse.
    destruct (ValidateMessage m); [now right; right |].
    rewrite Hresponse.
    destruct (hashable (ID m)); cbn [negb].
    + left. now rewrite Hunknown.
    + right. now left.
Qed.

End ClientAndTransport.

(** ** The in-memory transport and the factory *)

Section InMemory.
Import GoString MCP Transport.

Lemma sendAll_room (messages : list Message) (t : InMemoryTransport) :
  connected t = true -> closed t = false ->
  Z.of_nat (List.length (outgoing t)) + Z.of_nat (List.length messages) <= capacity ->
  sendAll t messages
  = (Ok tt, {| incoming := incoming t;
               outgoing := (outgoing t ++ messages)%list;
               connected := true; closed := false |}).
Proof.
  revert t. induction messages as [| message messages IH];
    intros t Hconnected Hopen Hroom.
  - cbn [sendAll]. rewrite app_nil_r. destruct t; simpl in *. now subst.
  - cbn [sendAll]. unfold Send, hasRoom. rewrite Hconnected, Hopen.
    cbn [negb List.length] in *.
    replace (Z.of_nat (List.length (outgoing t)) <? capacity) with true
      by (symmetry; apply Z.ltb_lt; lia).
    rewrite IH; cbn [connected closed outgoing incoming]; try reflexivity.
    + now rewrite <- app_assoc.
    + rewrite length_app. cbn [List.length]. lia.
Qed.

Lemma drain_outgoing (queue : list Message) (t : InMemoryTransport) :
  connected t = true -> outgoing t = queue ->
  drain (List.length queue) t = List.map Some queue.
Proof.
  revert t. induction queue as [| message queue IH]; intros t Hconnected Hqueue.
  - reflexivity.
  - cbn [List.length drain]. unfold ReceiveFromOutgoing.
    rewrite Hconnected, Hqueue. cbn [negb List.map].
    f_equal. now apply IH.
Qed.

(** X5: on a transport that was connected and holds nothing, up to 100
    messages are sent without an error, and [ReceiveFromOutgoing] gives
    them back in the order they were sent and as they were sent, the
    Go values of their fields unchanged.  After 100 of them the channel
    is full: one more [Send] is refused and leaves the transport as it
    was. *)
Theorem in_memory_transport_is_fifo (messages : list Message) :
  Z.of_nat (List.length messages) <= 100 ->
  exists t,
    sendAll (snd (Connect NewInMemoryTransport)) messages = (Ok tt, t)
    /\ outgoing t = messages
    /\ drain (List.length messages) t = List.map Some messages
    /\ (Z.of_nat (List.length messages) = 100 ->
        forall message, Send t message = (Err "outgoing channel full", t)).
Proof.
  intros Hlen. eexists. split; [| split; [| split]].
  - apply sendAll_room; try reflexivity. simpl. exact Hlen.
  - reflexivity.
  - now apply drain_outgoing.
  - intros Hfull message. unfold Send, hasRoom.
    cbn [connected closed outgoing incoming app negb Connect
         NewInMemoryTransport snd].
    now rewrite Hfull.
Qed.

(** X6: a transport that was closed is not one that can be used again.
    [Close] on a connected transport succeeds, and then every call
    answers that the transport is not connected and a second [Close]
    does nothing; after another [Connect], which succeeds, [Send] and
    [SendToIncoming] panic on the closed channels, as does [Close], and
    [Receive] returns the [nil] message without an error once the
    channel is empty. *)
Theorem closed_transport_is_not_reusable (t : InMemoryTransport)
        (message : Message) :
  connected t = true -> closed t = false ->
  exists t1 t2,
    Close t = (Ok tt, t1)
    /\ Send t1 message = (Err "transport not connected", t1)
    /\ Receive t1 = (Err "transport not connected", t1)
    /\ Close t1 = (Ok tt, t1)
    /\ Connect t1 = (Ok tt, t2)
    /\ Send t2 message = (Panics, t2)
    /\ SendToIncoming t2 message = (Panics, t2)
    /\ Close t2 = (Panics, t2)
    /\ (incoming t = [] -> Receive t2 = (Ok None, t2)).
Proof.
  intros Hconnected Hopen.
  exists {| incoming := incoming t; outgoing := outgoing t;
            connected := false; closed := true |}.
  exists {| incoming := incoming t; outgoing := outgoing t;
            connected := true; closed := true |}.
  unfold Close, Send, SendToIncoming, Receive, Connect.
  rewrite Hconnected, Hopen. cbn [connected closed negb incoming outgoing].
  repeat split. intros Hempty. now rewrite Hempty.
Qed.

(** X7: a configuration of a transport that was read from JSON never
    gives a TCP transport: [CreateTransport] asks for a port of type
    [int], and the numbers of a JSON text are read as [float64].  With
    a host that is a string the answer is that the transport requires
    a port. *)
Theorem tcp_transport_needs_go_int (j : JSON) (config : list (string * GoValue)) :
  toGo j = Some (GMap config) ->
  (forall address, CreateTransport config <> inr (Socket "tcp" address))
  /\ (index config "type" = Some (GString "tcp") ->
      forall host, index config "host" = Some (GString host) ->
      CreateTransport config = inl "tcp transport requires port").
Proof.
  intros Hread.
  assert (Hport : forall port, index config "port" <> Some (GInt port)).
  { intros port Hindex. unfold index in Hindex.
    destruct (List.find _ config) as [[k v] |] eqn:Hfind; [| discriminate].
    apply find_some in Hfind. destruct Hfind as [Hin _].
    simpl in Hindex. inversion Hindex; subst.
    pose proof (toGo_fromJSON j _ Hread) as Hvalues. simpl in Hvalues.
    rewrite forallb_forall in Hvalues. specialize (Hvalues _ Hin).
    discriminate. }
  split.
  - intros address. unfold CreateTransport.
    destruct (index config "type") as [[| | | | | transportType | |] |];
      try discriminate.
    destruct (String.eqb transportType "stdio").
    { destruct (index config "command") as [[| | | | | command | |] |];
        discriminate. }
    destruct (String.eqb_spec transportType "unix") as [Hunix | Hunix].
    { destruct (index config "path") as [[| | | | | path | |] |];
        discriminate. }
    destruct (String.eqb transportType "tcp").
    { destruct (index config "host") as [[| | | | | host | |] |];
        try discriminate.
      destruct (index config "port") as [[| | port | | | | |] |] eqn:Hp;
        try discriminate.
      now elim (Hport port). }
    destruct (String.eqb transportType "memory"); discriminate.
  - intros Htype host Hhost. unfold CreateTransport.
    rewrite Htype, Hhost. cbn [String.eqb Ascii.eqb Bool.eqb].
    destruct (index config "port") as [[| | port | | | | |] |] eqn:Hp;
      try reflexivity.
    now elim (Hport port).
Qed.

End InMemory.

(** ** Permissions: the middleware, the helper and the lists *)

Section Permissions.
Import GoString RBAC RBACManager.
Context {DB : Type} `{Adapter DB} `{RoleAdapter DB}.

Lemma Enforce_rules (e : Enforcer DB) (sub obj act : string) :
  Enforce e sub obj act = (existsb (grants e sub obj act) (policy e), None).
Proof.
  unfold Enforce, casbinEnforce, grants. reflexivity.
Qed.

Lemma hasLink_refl (level : nat) (g : list (string * string)) (a : string) :
  hasLink level g a a = true.
Proof. destruct level; simpl; now rewrite String.eqb_refl. Qed.

Lemma hasLink_direct (level : nat) (g : list (string * string)) (a b : string) :
  In (a, b) g -> hasLink (S level) g a b = true.
Proof.
  intros Hin.
  change (hasLink (S level) g a b)
    with (String.eqb a b
          || existsb (fun ur => String.eqb (fst ur) a
                                && hasLink level g (snd ur) b) g).
  apply orb_true_iff. right. apply existsb_exists. exists (a, b).
  split; [exact Hin |]. cbn [fst snd].
  rewrite String.eqb_refl. apply hasLink_refl.
Qed.

Lemma roleLoop_existsb (e : Enforcer DB) (roles : list string)
      (object action : string) :
  roleLoop e roles object action
  = if existsb (fun role =>
                  let '(allowed, err) := Enforce e ("role:" ++ role) object action in
                  isNil err && allowed) roles
    then Next else Abort 403 "insufficient permissions".
Proof.
  induction roles as [| role roles IH]; [reflexivity |].
  cbn [roleLoop existsb]. rewrite Enforce_rules.
  destruct (existsb _ (policy e)); [reflexivity |]. exact IH.
Qed.

Lemma RequirePermission_shape
      (e : Enforcer DB) (object action : string) (claims : option Auth.Claims) :
  RequirePermission e object action claims
  = match claims with
    | None => Abort 401 "authentication required"
    | Some _ =>
        if CheckPermission e claims object action then Next
        else Abort 403 "insufficient permissions"
    end.
Proof.
  destruct claims as [claims |]; [| reflexivity].
  unfold RequirePermission, CheckPermission, CheckUserPermission.
  rewrite Enforce_rules.
  destruct (existsb _ (policy e)); [reflexivity |].
  cbn [isNil andb]. apply roleLoop_existsb.
Qed.

(** X8: the middleware [RequirePermission] and the helper
    [CheckPermission] decide alike: the request goes on exactly when the
    helper says yes; without claims the answer is 401, and it is 403 in
    every other case. *)
Theorem RequirePermission_decides_as_CheckPermission
        (e : Enforcer DB) (object action : string)
        (claims : option Auth.Claims) :
  RequirePermission e object action claims
  = match claims with
    | None => Abort 401 "authentication required"
    | Some _ =>
        if CheckPermission e claims object action then Next
        else Abort 403 "insufficient permissions"
    end
  /\ (RequirePermission e object action claims = Next
      <-> CheckPermission e claims object action = true).
Proof.
  pose proof (RequirePermission_shape e object action claims) as Hshape.
  split; [exact Hshape |]. rewrite Hshape.
  destruct claims as [claims |].
  - destruct (CheckPermission e (Some claims) object action);
      split; try reflexivity; discriminate.
  - split; discriminate.
Qed.

Lemma CheckPermission_subjects
      (e : Enforcer DB) (claims : Auth.Claims) (object action : string) :
  CheckPermission e (Some claims) object action = true
  <-> exists sub psub,
        In sub (subjectsOf claims)
        /\ In (psub, object, action) (policy e)
        /\ hasLink 10 (grouping e) sub psub = true.
Proof.
  assert (Hgrant : forall sub,
    existsb (grants e sub object action) (policy e) = true
    <-> exists psub, In (psub, object, action) (policy e)
                     /\ hasLink 10 (grouping e) sub psub = true).
  { intros sub. rewrite existsb_exists. split.
    - intros ([[psub pobj] pact] & Hin & Hg). unfold grants in Hg.
      apply andb_true_iff in Hg. destruct Hg as [Hg Hact].
      apply andb_true_iff in Hg. destruct Hg as [Hlink Hobj].
      apply String.eqb_eq in Hobj, Hact. subst. now exists psub.
    - intros (psub & Hin & Hlink). exists (psub, object, action).
      split; [exact Hin |]. unfold grants.
      now rewrite Hlink, !String.eqb_refl. }
  unfold CheckPermission, CheckUserPermission, subjectsOf.
  rewrite Enforce_rules. cbn [isNil andb]. split.
  - destruct (existsb (grants e (Auth.Username claims) object action)
                      (policy e)) eqn:Hdirect.
    + intros _. apply Hgrant in Hdirect.
      destruct Hdirect as (psub & Hin & Hlink).
      exists (Auth.Username claims), psub. split; [now left | now split].
    + intros Hrole. apply existsb_exists in Hrole.
      destruct Hrole as (role & Hin & Hrole).
      rewrite Enforce_rules in Hrole. cbn [isNil andb] in Hrole.
      apply Hgrant in Hrole. destruct Hrole as (psub & Hp & Hlink).
      exists ("role:" ++ role), psub. split; [| now split].
      right. apply in_map_iff. now exists role.
  - intros (sub & psub & Hsub & Hp & Hlink).
    destruct Hsub as [Hsub | Hsub].
    + subst sub.
      replace (existsb (grants e (Auth.Username claims) object action)
                       (policy e)) with true; [reflexivity |].
      symmetry. apply Hgrant. now exists psub.
    + destruct (existsb (grants e (Auth.Username claims) object action)
                        (policy e)); [reflexivity |].
      apply in_map_iff in Hsub. destruct Hsub as (role & Hkey & Hin).
      apply existsb_exists. exists role. split; [exact Hin |].
      rewrite Enforce_rules. cbn [isNil andb].
      apply Hgrant. exists psub. now rewrite Hkey.
Qed.

(** X9: who is granted what.  [CheckPermission] says yes exactly when
    the policy holds a rule for the object and the action whose subject
    is reached, through the role links of the store, from the user name
    or from one of the roles of the token behind the prefix [role:].
    The user name is a subject like another: a user whose name is the
    key of a role has the rules of that role. *)
Theorem CheckPermission_granted_iff
        (e : Enforcer DB) (claims : Auth.Claims) (object action : string) :
  (CheckPermission e (Some claims) object action = true
   <-> exists sub psub,
         In sub (subjectsOf claims)
         /\ In (psub, object, action) (policy e)
         /\ hasLink 10 (grouping e) sub psub = true)
  /\ (forall psub,
        In (psub, object, action) (policy e) ->
        Auth.Username claims = psub ->
        CheckPermission e (Some claims) object action = true).
Proof.
  pose proof (CheckPermission_subjects e claims object action) as Hiff.
  split; [exact Hiff |].
  intros psub Hin Hname. apply Hiff.
  exists (Auth.Username claims), psub. split; [now left |].
  split; [exact Hin |]. rewrite Hname. apply hasLink_refl.
Qed.

Lemma GetRolePermissions_rules (e : Enforcer DB) (role : string) (p : Permission) :
  In p (fst (GetRolePermissions e role))
  <-> Subject p = "role:" ++ role
      /\ In (Subject p, Object p, Action p) (policy e).
Proof.
  unfold GetRolePermissions, GetFilteredPolicy. cbn [fst].
  rewrite in_map_iff. split.
  - intros ([[s o] a] & Hp & Hin). apply filter_In in Hin.
    destruct Hin as [Hin Hkeep]. subst p. cbn [Subject Object Action perm].
    cbn [String.eqb orb] in Hkeep. apply String.eqb_eq in Hkeep.
    now subst.
  - intros [Hsub Hin]. exists (Subject p, Object p, Action p).
    split; [now destruct p |].
    apply filter_In. split; [exact Hin |].
    cbn [String.eqb orb]. rewrite Hsub. apply String.eqb_refl.
Qed.

Lemma fold_left_app_In {A B : Type} (f : B -> list A) (l : list B)
      (acc : list A) (x : A) :
  In x (fold_left (fun all b => (all ++ f b)%list) l acc)
  <-> In x acc \/ exists b, In b l /\ In x (f b).
Proof.
  revert acc. induction l as [| b l IH]; intros acc; cbn [fold_left].
  - split; [now left | intros [Hacc | (b & [] & _)]; exact Hacc].
  - rewrite IH, in_app_iff. split.
    + intros [[Hacc | Hb] | (b' & Hin & Hx)].
      * now left.
      * right. exists b. split; [now left | exact Hb].
      * right. exists b'. split; [now right | exact Hx].
    + intros [Hacc | (b' & [Heq | Hin] & Hx)].
      * left. now left.
      * subst b'. left. now right.
      * right. now exists b'.
Qed.

(** X10: the list of [GetUserPermissions] is sound.  Every permission
    that it shows for a caller is a rule of the policy whose subject is
    one of the roles of the token, and [CheckPermission] grants it; the
    list holds every rule of every role of the token. *)
Theorem GetUserPermissions_are_granted
        (e : Enforcer DB) (claims : Auth.Claims) (permissions : list Permission) :
  GetUserPermissions e (Some claims) = inr permissions ->
  (forall p,
     In p permissions
     <-> exists role,
           In role (Auth.Roles claims)
           /\ Subject p = "role:" ++ role
           /\ In (Subject p, Object p, Action p) (policy e))
  /\ (forall p,
        In p permissions ->
        CheckPermission e (Some claims) (Object p) (Action p) = true).
Proof.
  intros Hlist. unfold GetUserPermissions in Hlist.
  injection Hlist as Hperms.
  assert (Hmem : forall p,
    In p permissions
    <-> exists role,
          In role (Auth.Roles claims)
          /\ Subject p = "role:" ++ role
          /\ In (Subject p, Object p, Action p) (policy e)).
  { intros p. rewrite <- Hperms.
    change (fun (allPermissions : list Permission) (role : string) =>
              match GetRolePermissions e role with
              | (_, Some _) => allPermissions
              | (rolePerms, None) => (allPermissions ++ rolePerms)%list
              end)
      with (fun (allPermissions : list Permission) (role : string) =>
              (allPermissions ++ fst (GetRolePermissions e role))%list).
    rewrite fold_left_app_In. split.
    - intros [[] | (role & Hin & Hp)].
      apply GetRolePermissions_rules in Hp. now exists role.
    - intros (role & Hin & Hsub & Hrule). right. exists role.
      split; [exact Hin |]. now apply GetRolePermissions_rules. }
  split; [exact Hmem |].
  intros p Hp. apply Hmem in Hp. destruct Hp as (role & Hin & Hsub & Hrule).
  apply CheckPermission_subjects.
  exists ("role:" ++ role), (Subject p). split; [| split].
  - right. apply in_map_iff. now exists role.
  - exact Hrule.
  - rewrite Hsub. apply hasLink_refl.
Qed.

End Permissions.

(** ** Roles and rules of the store *)

Section RolesAndRules.
Import GoString RBAC RBACManager.
Context {DB : Type} `{Adapter DB} `{RoleAdapter DB}.

Lemma ruleEqb_eq (a b : Rule) : ruleEqb a b = true <-> a = b.
Proof.
  destruct a as [[a1 a2] a3], b as [[b1 b2] b3]. unfold ruleEqb.
  rewrite !andb_true_iff, !String.eqb_eq. split.
  - intros [[-> ->] ->]. reflexivity.
  - intros Heq. inversion Heq. auto.
Qed.

Lemma linkEqb_eq (a b : string * string) : linkEqb a b = true <-> a = b.
Proof.
  destruct a as [a1 a2], b as [b1 b2]. unfold linkEqb. cbn [fst snd].
  rewrite andb_true_iff, !String.eqb_eq. split.
  - intros [-> ->]. reflexivity.
  - intros Heq. inversion Heq. auto.
Qed.

Lemma removeFirst_last {A : Type} (eqb : A -> bool) (l : list A) (x : A) :
  existsb eqb l = false -> eqb x = true ->
  removeFirst eqb (l ++ [x]) = l.
Proof.
  intros Habsent Hx. induction l as [| y l IH]; cbn [app removeFirst].
  - now rewrite Hx.
  - cbn [existsb] in Habsent. apply orb_false_iff in Habsent.
    destruct Habsent as [Hy Hl]. rewrite Hy. now rewrite IH.
Qed.

Lemma cleanRole_key (role : string) :
  role <> "" -> cleanRole ("role:" ++ role) = role.
Proof.
  intros Hrole. unfold cleanRole, len. cbn [append String.length take drop].
  destruct role as [| c role]; [now elim Hrole |].
  cbn [String.length].
  replace (5 <? Z.of_nat (S (S (S (S (S (S (String.length role))))))))
    with true by (symmetry; apply Z.ltb_lt; lia).
  reflexivity.
Qed.

Lemma GetUserRoles_links (e : Enforcer DB) (user role : string) :
  In role (fst (GetUserRoles e user))
  <-> exists key, In (user, key) (grouping e) /\ cleanRole key = role.
Proof.
  unfold GetUserRoles, GetRolesForUser. cbn [fst].
  rewrite in_map_iff. split.
  - intros (key & Hclean & Hin). apply in_map_iff in Hin.
    destruct Hin as ([u k] & Hk & Hin). cbn [snd] in Hk. subst k.
    apply filter_In in Hin. destruct Hin as [Hin Hu].
    cbn [fst] in Hu. apply String.eqb_eq in Hu. subst u. now exists key.
  - intros (key & Hin & Hclean). exists key. split; [exact Hclean |].
    apply in_map_iff. exists (user, key). split; [reflexivity |].
    apply filter_In. split; [exact Hin | apply String.eqb_refl].
Qed.

Lemma CheckUserRole_links (e : Enforcer DB) (user role : string) :
  CheckUserRole e user role
  = (existsb (fun g => String.eqb (fst g) user
                       && String.eqb (cleanRole (snd g)) role)
             (grouping e), None).
Proof.
  unfold CheckUserRole, GetUserRoles, GetRolesForUser. f_equal.
  induction (grouping e) as [| [u k] g IH]; [reflexivity |].
  cbn [filter fst snd existsb].
  destruct (String.eqb u user); cbn [List.map existsb andb orb].
  - now rewrite IH.
  - exact IH.
Qed.

(** X11: a role that was assigned is a role that the user has.  When
    [AssignRole] succeeds for a role whose name is not empty, the store
    holds one more link, from the user to the key of the role;
    [CheckUserRole] finds the role; the user has every permission of
    the rules of that role; a second [AssignRole] is refused and changes
    nothing; and a [RemoveRole] that succeeds brings the links back to
    what they were. *)
Theorem AssignRole_gives_the_role
        (e e1 : Enforcer DB) (user role : string) :
  role <> "" ->
  AssignRole e user role = (None, e1) ->
  grouping e1 = (grouping e ++ [(user, ("role:" ++ role)%string)])%list
  /\ policy e1 = policy e
  /\ CheckUserRole e1 user role = (true, None)
  /\ (forall object action,
        In ("role:" ++ role, object, action) (policy e1) ->
        CheckUserPermission e1 user object action = (true, None))
  /\ AssignRole e1 user role
     = (Some ("role already assigned: user " ++ user
              ++ " already has role " ++ role), e1)
  /\ (forall e2,
        RemoveRole e1 user role = (None, e2) ->
        grouping e2 = grouping e /\ policy e2 = policy e
        /\ CheckUserRole e2 user role = CheckUserRole e user role).
Proof.
  intros Hrole Hassign.
  pose proof (cleanRole_key role Hrole) as Hclean.
  unfold AssignRole, RemoveRole.
  unfold AssignRole in Hassign.
  remember ("role:" ++ role) as key eqn:Hkey.
  unfold AddRoleForUser in Hassign.
  destruct (existsb (linkEqb (user, key)) (grouping e)) eqn:Hnew;
    [discriminate |].
  destruct (adapterAddGrouping (db e) (user, key))
    as [[err |] db1] eqn:Hdb; [discriminate |].
  injection Hassign as He1. subst e1. cbn [grouping policy].
  assert (Hlinked :
    existsb (linkEqb (user, key)) (grouping e ++ [(user, key)])%list = true).
  { rewrite existsb_app. cbn [existsb].
    replace (linkEqb (user, key) (user, key))
      with true by (symmetry; now apply linkEqb_eq).
    now rewrite orb_true_r. }
  split; [reflexivity |]. split; [reflexivity |]. split; [| split; [| split]].
  - rewrite CheckUserRole_links. cbn [grouping]. f_equal.
    rewrite existsb_app. cbn [existsb fst snd].
    rewrite String.eqb_refl, Hclean, String.eqb_refl.
    now rewrite orb_true_r.
  - intros object action Hrule. unfold CheckUserPermission.
    rewrite Enforce_rules. f_equal. apply existsb_exists.
    exists (key, object, action). split; [exact Hrule |].
    unfold grants. rewrite !String.eqb_refl, !andb_true_r.
    cbn [grouping]. apply hasLink_direct. apply in_or_app. right. now left.
  - unfold AddRoleForUser. cbn [grouping]. now rewrite Hlinked.
  - intros e2 Hremove. unfold DeleteRoleForUser in Hremove.
    cbn [grouping policy db] in Hremove.
    destruct (adapterRemoveGrouping db1 (user, key))
      as [[err |] db2]; [discriminate |].
    rewrite Hlinked in Hremove. injection Hremove as He2. subst e2.
    cbn [grouping policy].
    assert (Hback :
      removeFirst (linkEqb (user, key)) (grouping e ++ [(user, key)])%list
      = grouping e).
    { apply removeFirst_last; [exact Hnew | now apply linkEqb_eq]. }
    split; [exact Hback |]. split; [reflexivity |].
    rewrite !CheckUserRole_links. cbn [grouping]. now rewrite Hback.
Qed.

Lemma grants_more_rules (e e1 : Enforcer DB) (sub obj act : string) :
  grouping e1 = grouping e ->
  (forall p, In p (policy e) -> In p (policy e1)) ->
  Enforce e sub obj act = (true, None) ->
  Enforce e1 sub obj act = (true, None).
Proof.
  intros Hlinks Hrules. rewrite !Enforce_rules. intros Hgranted.
  injection Hgranted as Hgranted. f_equal.
  apply existsb_exists in Hgranted. destruct Hgranted as (p & Hin & Hp).
  apply existsb_exists. exists p. split; [now apply Hrules |].
  unfold grants in *. now rewrite Hlinks.
Qed.

(** X12: a permission that was added is granted, and nothing that was
    granted is lost.  When [AddPermission] succeeds the policy holds one
    more rule, at its end; [Enforce] grants it; what [Enforce] granted
    before it still grants; a second [AddPermission] of the same rule is
    refused and changes nothing; and a [RemovePermission] that succeeds
    brings the policy back to what it was. *)
Theorem AddPermission_grants_the_rule
        (e e1 : Enforcer DB) (subject object action : string) :
  AddPermission e subject object action = (None, e1) ->
  policy e1 = (policy e ++ [(subject, object, action)])%list
  /\ grouping e1 = grouping e
  /\ Enforce e1 subject object action = (true, None)
  /\ (forall sub obj act,
        Enforce e sub obj act = (true, None) ->
        Enforce e1 sub obj act = (true, None))
  /\ AddPermission e1 subject object action
     = (Some ("permission already exists: "
              ++ subject ++ " " ++ object ++ " " ++ action), e1)
  /\ (forall e2,
        RemovePermission e1 subject object action = (None, e2) ->
        policy e2 = policy e /\ grouping e2 = grouping e).
Proof.
  intros Hadd. unfold AddPermission, AddPolicy in Hadd.
  destruct (existsb (ruleEqb (subject, object, action)) (policy e)) eqn:Hnew;
    [discriminate |].
  destruct (adapterAddPolicy (db e) (subject, object, action))
    as [[err |] db1] eqn:Hdb; [discriminate |].
  injection Hadd as He1.
  assert (Hpolicy : policy e1 = (policy e ++ [(subject, object, action)])%list)
    by now subst e1.
  assert (Hlinks : grouping e1 = grouping e) by now subst e1.
  assert (Hheld :
    existsb (ruleEqb (subject, object, action)) (policy e1) = true).
  { rewrite Hpolicy, existsb_app. cbn [existsb].
    replace (ruleEqb (subject, object, action) (subject, object, action))
      with true by (symmetry; now apply ruleEqb_eq).
    now rewrite orb_true_r. }
  split; [exact Hpolicy |]. split; [exact Hlinks |].
  split; [| split; [| split]].
  - rewrite Enforce_rules. f_equal. apply existsb_exists.
    exists (subject, object, action). split.
    + rewrite Hpolicy. apply in_or_app. right. now left.
    + unfold grants. now rewrite hasLink_refl, !String.eqb_refl.
  - intros sub obj act. apply grants_more_rules; [exact Hlinks |].
    intros p Hin. rewrite Hpolicy. apply in_or_app. now left.
  - unfold AddPermission, AddPolicy. now rewrite Hheld.
  - intros e2 Hremove. unfold RemovePermission, RemovePolicy in Hremove.
    destruct (adapterRemovePolicy (db e1) (subject, object, action))
      as [[err |] db2]; [discriminate |].
    rewrite Hheld in Hremove. injection Hremove as He2. subst e2.
    cbn [policy grouping]. split; [| exact Hlinks].
    rewrite Hpolicy. apply removeFirst_last; [exact Hnew |].
    now apply ruleEqb_eq.
Qed.

Lemma anyRoleLoop_existsb (e : Enforcer DB) (username : string)
      (roles : list string) :
  anyRoleLoop e username roles
  = if existsb (fun r => fst (CheckUserRole e username r)) roles
    then Next else Abort 403 "insufficient role".
Proof.
  induction roles as [| r roles IH]; [reflexivity |].
  cbn [anyRoleLoop existsb]. rewrite CheckUserRole_links. cbn [fst].
  destruct (existsb _ (grouping e)); [reflexivity | exact IH].
Qed.

Lemma allRolesLoop_forallb (e : Enforcer DB) (username : string)
      (roles : list string) :
  allRolesLoop e username roles
  = if forallb (fun r => fst (CheckUserRole e username r)) roles
    then Next else Abort 403 "insufficient roles".
Proof.
  induction roles as [| r roles IH]; [reflexivity |].
  cbn [allRolesLoop forallb]. rewrite CheckUserRole_links. cbn [fst].
  destruct (existsb _ (grouping e)); [exact IH | reflexivity].
Qed.

Lemma RequireRole_links (e : Enforcer DB) (r : string) (claims : Auth.Claims) :
  RequireRole e r (Some claims) = Next
  <-> fst (CheckUserRole e (Auth.Username claims) r) = true.
Proof.
  unfold RequireRole. rewrite CheckUserRole_links. cbn [fst].
  destruct (existsb _ (grouping e)); split; try reflexivity; discriminate.
Qed.

(** X13: the three role middlewares look at the role links of the
    store under the name of the caller, and at nothing else: the roles
    of the token play no part.  [RequireRole] lets a caller through
    exactly when a link of the store gives the role to the user name;
    [RequireAnyRole] when [RequireRole] would for one of the roles;
    [RequireAllRoles] when it would for each of them.  With no role to
    ask for, [RequireAnyRole] refuses every caller and
    [RequireAllRoles] lets every caller through.  Without claims the
    answer of the three is 401. *)
Theorem role_middlewares_read_the_store
        (e : Enforcer DB) (roles : list string) (claims : Auth.Claims) :
  (forall r,
     RequireRole e r (Some claims) = Next
     <-> exists key,
           In (Auth.Username claims, key) (grouping e) /\ cleanRole key = r)
  /\ (RequireAnyRole e roles (Some claims) = Next
      <-> exists r, In r roles /\ RequireRole e r (Some claims) = Next)
  /\ (RequireAllRoles e roles (Some claims) = Next
      <-> forall r, In r roles -> RequireRole e r (Some claims) = Next)
  /\ (forall other r,
        Auth.Username other = Auth.Username claims ->
        RequireRole e r (Some other) = RequireRole e r (Some claims)
        /\ RequireAnyRole e roles (Some other)
           = RequireAnyRole e roles (Some claims)
        /\ RequireAllRoles e roles (Some other)
           = RequireAllRoles e roles (Some claims))
  /\ RequireAnyRole e [] (Some claims) = Abort 403 "insufficient role"
  /\ RequireAllRoles e [] (Some claims) = Next
  /\ (forall r, RequireRole e r None = Abort 401 "authentication required")
  /\ RequireAnyRole e roles None = Abort 401 "authentication required"
  /\ RequireAllRoles e roles None = Abort 401 "authentication required".
Proof.
  split; [| split; [| split; [| split]]].
  - intros r. rewrite RequireRole_links, CheckUserRole_links. cbn [fst].
    rewrite existsb_exists. split.
    + intros ([u key] & Hin & Hmatch). cbn [fst snd] in Hmatch.
      apply andb_true_iff in Hmatch. destruct Hmatch as [Hu Hkey].
      apply String.eqb_eq in Hu, Hkey. subst u. now exists key.
    + intros (key & Hin & Hkey). exists (Auth.Username claims, key).
      split; [exact Hin |]. cbn [fst snd].
      now rewrite String.eqb_refl, Hkey, String.eqb_refl.
  - unfold RequireAnyRole. rewrite anyRoleLoop_existsb.
    destruct (existsb _ roles) eqn:Hany.
    + split; [intros _ | reflexivity].
      apply existsb_exists in Hany. destruct Hany as (r & Hin & Hr).
      exists r. split; [exact Hin | now apply RequireRole_links].
    + split; [discriminate |]. intros (r & Hin & Hr).
      apply RequireRole_links in Hr.
      assert (Hyes : existsb (fun r => fst (CheckUserRole e (Auth.Username claims) r))
                             roles = true)
        by (apply existsb_exists; now exists r).
      rewrite Hyes in Hany. discriminate.
  - unfold RequireAllRoles. rewrite allRolesLoop_forallb.
    destruct (forallb _ roles) eqn:Hall.
    + split; [intros _ | reflexivity].
      rewrite forallb_forall in Hall. intros r Hin.
      apply RequireRole_links. now apply Hall.
    + split; [discriminate |]. intros Hevery.
      assert (Hyes : forallb (fun r => fst (CheckUserRole e (Auth.Username claims) r))
                             roles = true).
      { apply forallb_forall. intros r Hin.
        apply RequireRole_links. now apply Hevery. }
      rewrite Hyes in Hall. discriminate.
  - intros other r Hname.
    unfold RequireRole, RequireAnyRole, RequireAllRoles.
    now rewrite Hname.
  - repeat split.
Qed.

End RolesAndRules.

(** ** The lists of roles and users, and the first administrator *)

Section Listings.
Import GoString RBAC RBACManager.
Context {DB : Type} `{Adapter DB} `{RoleAdapter DB}.

Lemma isRoleKey_key (name : string) :
  name <> "" -> isRoleKey ("role:" ++ name) = true /\ drop 5 ("role:" ++ name) = name.
Proof.
  intros Hname. unfold isRoleKey, len. cbn [append String.length take drop].
  destruct name as [| c name]; [now elim Hname |].
  cbn [String.length].
  replace (5 <? Z.of_nat (S (S (S (S (S (S (String.length name))))))))
    with true by (symmetry; apply Z.ltb_lt; lia).
  split; reflexivity.
Qed.

Lemma isRoleKey_inv (subject : string) :
  isRoleKey subject = true ->
  subject = "role:" ++ drop 5 subject /\ drop 5 subject <> "".
Proof.
  unfold isRoleKey, len. intros Hkey.
  apply andb_true_iff in Hkey. destruct Hkey as [Hlen Hprefix].
  apply Z.ltb_lt in Hlen. apply String.eqb_eq in Hprefix.
  split.
  - rewrite <- Hprefix. symmetry. apply take_drop.
  - intros Hempty.
    pose proof (length_drop 5 subject) as Hdrop. rewrite Hempty in Hdrop.
    simpl in Hdrop. lia.
Qed.

Lemma addRolePermission_names (roles : list Role) (name permission : string) :
  List.map Name (addRolePermission roles name permission)
  = setAdd (List.map Name roles) name.
Proof.
  unfold setAdd. induction roles as [| role roles IH].
  - cbn [addRolePermission]. destruct (getRoleDescription name). reflexivity.
  - cbn [addRolePermission List.map existsb].
    rewrite (String.eqb_sym name (Name role)).
    destruct (String.eqb (Name role) name); [reflexivity |].
    cbn [List.map orb]. rewrite IH.
    destruct (existsb (String.eqb name) (List.map Name roles)); reflexivity.
Qed.

Lemma GetAllRoles_names (e : Enforcer DB) :
  List.map Name (fst (GetAllRoles e)) = getRoleNames e.
Proof.
  unfold GetAllRoles, getRoleNames. cbn [fst].
  change (@nil string) with (List.map Name []).
  generalize (@nil Role). induction (GetPolicy e) as [| [[psub pobj] pact] l IH];
    intros roles; [reflexivity |].
  cbn [fold_left]. rewrite IH. f_equal.
  destruct (isRoleKey psub); [| reflexivity].
  apply addRolePermission_names.
Qed.

Lemma setAdd_NoDup (set : list string) (name : string) :
  NoDup set -> NoDup (setAdd set name).
Proof.
  intros Hset. unfold setAdd.
  destruct (existsb (String.eqb name) set) eqn:Hin; [exact Hset |].
  apply NoDup_app; [exact Hset | repeat constructor; intros [] |].
  intros x Hx [Heq | []]. subst x.
  assert (Hyes : existsb (String.eqb name) set = true)
    by (apply existsb_exists; exists name; split;
        [exact Hx | apply String.eqb_refl]).
  rewrite Hyes in Hin. discriminate.
Qed.

Lemma setAdd_In (set : list string) (name x : string) :
  In x (setAdd set name) <-> In x set \/ x = name.
Proof.
  unfold setAdd. destruct (existsb (String.eqb name) set) eqn:Hin.
  - apply existsb_exists in Hin. destruct Hin as (y & Hy & Heq).
    apply String.eqb_eq in Heq. subst y.
    split; [now left | intros [Hx | ->]; assumption].
  - rewrite in_app_iff. cbn [In]. split.
    + intros [Hx | [Heq | []]]; [now left | now right].
    + intros [Hx | Heq]; [now left | right; now left].
Qed.

Lemma getRoleNames_fold (l : list Rule) (set : list string) :
  NoDup set ->
  NoDup (fold_left (fun roleSet (p : Rule) =>
                      let '(psub, _, _) := p in
                      if isRoleKey psub then setAdd roleSet (drop 5 psub)
                      else roleSet) l set)
  /\ forall x,
       In x (fold_left (fun roleSet (p : Rule) =>
                          let '(psub, _, _) := p in
                          if isRoleKey psub then setAdd roleSet (drop 5 psub)
                          else roleSet) l set)
       <-> In x set
           \/ exists psub pobj pact,
                In (psub, pobj, pact) l /\ isRoleKey psub = true
                /\ drop 5 psub = x.
Proof.
  revert set. induction l as [| [[psub pobj] pact] l IH]; intros set Hset.
  - cbn [fold_left]. split; [exact Hset |].
    intros x. split; [now left | intros [Hx | (s & o & a & [] & _)]; exact Hx].
  - cbn [fold_left].
    destruct (isRoleKey psub) eqn:Hkey.
    + destruct (IH (setAdd set (drop 5 psub)) (setAdd_NoDup _ _ Hset))
        as [Hnodup Hmem].
      split; [exact Hnodup |]. intros x. rewrite Hmem, setAdd_In. split.
      * intros [[Hx | Heq] | (s & o & a & Hin & Hk & Hd)].
        -- now left.
        -- right. exists psub, pobj, pact. split; [now left | now split].
        -- right. exists s, o, a. split; [now right | now split].
      * intros [Hx | (s & o & a & [Heq | Hin] & Hk & Hd)].
        -- left. now left.
        -- injection Heq as -> -> ->. left. now right.
        -- right. now exists s, o, a.
    + destruct (IH set Hset) as [Hnodup Hmem].
      split; [exact Hnodup |]. intros x. rewrite Hmem. split.
      * intros [Hx | (s & o & a & Hin & Hk & Hd)]; [now left |].
        right. exists s, o, a. split; [now right | now split].
      * intros [Hx | (s & o & a & [Heq | Hin] & Hk & Hd)].
        -- now left.
        -- injection Heq as -> -> ->. rewrite Hkey in Hk. discriminate.
        -- right. now exists s, o, a.
Qed.

Lemma permissionTexts_app (seen l : list Rule) (name : string) :
  permissionTexts (seen ++ l) name
  = (permissionTexts seen name ++ permissionTexts l name)%list.
Proof. unfold permissionTexts. now rewrite filter_app, map_app. Qed.

Lemma key_injective (a b : string) : "role:" ++ a = "role:" ++ b -> a = b.
Proof. cbn [append]. intros Heq. now inversion Heq. Qed.

Lemma permissionTexts_other (seen : list Rule) (psub pobj pact name : string) :
  psub <> "role:" ++ name ->
  permissionTexts (seen ++ [(psub, pobj, pact)]) name = permissionTexts seen name.
Proof.
  intros Hother. rewrite permissionTexts_app. unfold permissionTexts at 2.
  cbn [filter]. destruct (String.eqb_spec psub ("role:" ++ name)) as [Heq | _];
    [now elim Hother |].
  cbn [List.map]. apply app_nil_r.
Qed.

Lemma permissionTexts_same (seen : list Rule) (pobj pact name : string) :
  permissionTexts (seen ++ [(("role:" ++ name)%string, pobj, pact)]) name
  = (permissionTexts seen name ++ [(pobj ++ ":" ++ pact)%string])%list.
Proof.
  rewrite permissionTexts_app. unfold permissionTexts at 2.
  cbn [filter]. now rewrite String.eqb_refl.
Qed.

Lemma addRolePermission_read (seen : list Rule) (name pobj pact : string)
      (roles : list Role) :
  name <> "" ->
  NoDup (List.map Name roles) ->
  Forall (roleRead seen) roles ->
  (~ In name (List.map Name roles) -> permissionTexts seen name = []) ->
  Forall (roleRead (seen ++ [(("role:" ++ name)%string, pobj, pact)]))
         (addRolePermission roles name (pobj ++ ":" ++ pact)).
Proof.
  intros Hname. induction roles as [| role roles IH]; intros Hnodup Hread Hnew.
  - cbn [addRolePermission].
    destruct (getRoleDescription name) as [desc ok] eqn:Hdesc.
    constructor; [| constructor]. unfold roleRead. cbn [Name Permissions Description].
    rewrite Hdesc, permissionTexts_same, Hnew by (intros []).
    repeat split. exact Hname.
  - inversion Hnodup as [| x xs Hfresh Hrest]; subst.
    inversion Hread as [| y ys Hrole Hroles]; subst.
    destruct Hrole as (Hnonempty & Hperms & Hdesc).
    assert (Hothers : forall seen',
      (forall n, n <> name -> permissionTexts seen' n = permissionTexts seen n) ->
      forall rs, Forall (roleRead seen) rs -> ~ In name (List.map Name rs) ->
                 Forall (roleRead seen') rs).
    { intros seen' Hsame rs Hrs Hnot. induction Hrs as [| r rs Hr Hrs IHrs];
        constructor.
      - destruct Hr as (H1 & H2 & H3). unfold roleRead.
        rewrite Hsame; [now repeat split |].
        intros Heq. apply Hnot. left. exact Heq.
      - apply IHrs. intros Hin. apply Hnot. now right. }
    assert (Hsame : forall n, n <> name ->
      permissionTexts (seen ++ [(("role:" ++ name)%string, pobj, pact)]) n
      = permissionTexts seen n).
    { intros n Hn. apply permissionTexts_other.
      intros Heq. apply key_injective in Heq. now elim Hn. }
    cbn [addRolePermission].
    destruct (String.eqb_spec (Name role) name) as [Heq | Hneq].
    + constructor.
      * unfold roleRead. cbn [Name Permissions Description].
        rewrite Heq in *. rewrite permissionTexts_same, Hperms.
        now repeat split.
      * apply Hothers; [exact Hsame | exact Hroles |].
        now rewrite <- Heq.
    + constructor.
      * unfold roleRead. rewrite Hsame by exact Hneq. now repeat split.
      * apply IH; [exact Hrest | exact Hroles |].
        intros Hnot. apply Hnew. intros [Hhead | Htail]; [now elim Hneq |].
        now elim Hnot.
Qed.

Lemma GetAllRoles_fold (l seen : list Rule) (roles : list Role) :
  NoDup (List.map Name roles) ->
  Forall (roleRead seen) roles ->
  (forall n, n <> "" -> ~ In n (List.map Name roles) ->
             permissionTexts seen n = []) ->
  Forall (roleRead (seen ++ l))
         (fold_left (fun roles (p : Rule) =>
                       let '(psub, pobj, pact) := p in
                       if isRoleKey psub
                       then addRolePermission roles (drop 5 psub)
                                              (pobj ++ ":" ++ pact)
                       else roles) l roles).
Proof.
  revert seen roles. induction l as [| [[psub pobj] pact] l IH];
    intros seen roles Hnodup Hread Hnew.
  - cbn [fold_left]. now rewrite app_nil_r.
  - cbn [fold_left].
    change (seen ++ (psub, pobj, pact) :: l)%list
      with (seen ++ ([(psub, pobj, pact)] ++ l))%list.
    rewrite app_assoc.
    destruct (isRoleKey psub) eqn:Hkey.
    + destruct (isRoleKey_inv psub Hkey) as [Hsub Hname].
      set (name := drop 5 psub) in *.
      apply IH.
      * rewrite addRolePermission_names. now apply setAdd_NoDup.
      * rewrite Hsub. apply addRolePermission_read; try assumption.
        intros Hnot. now apply Hnew.
      * intros n Hn Hnot. rewrite addRolePermission_names in Hnot.
        rewrite setAdd_In in Hnot.
        rewrite permissionTexts_other.
        -- apply Hnew; [exact Hn |]. intros Hin. apply Hnot. now left.
        -- rewrite Hsub. intros Heq. apply key_injective in Heq.
           apply Hnot. now right.
    + assert (Hsame : forall n, n <> "" ->
        permissionTexts (seen ++ [(psub, pobj, pact)]) n
        = permissionTexts seen n).
      { intros n Hn. apply permissionTexts_other. intros Heq.
        destruct (isRoleKey_key n Hn) as [Hyes _].
        rewrite <- Heq in Hyes. rewrite Hyes in Hkey. discriminate. }
      apply IH.
      * exact Hnodup.
      * clear - Hread Hsame. induction Hread as [| r rs Hr Hrs IHrs];
          constructor; [| exact IHrs].
        destruct Hr as (H1 & H2 & H3). unfold roleRead.
        rewrite Hsame by exact H1. now repeat split.
      * intros n Hn Hnot. rewrite Hsame by exact Hn. now apply Hnew.
Qed.

Lemma GetRole_read (e : Enforcer DB) (role : Role) :
  roleRead (policy e) role -> GetRole e (Name role) = role.
Proof.
  intros (Hname & Hperms & Hdesc). unfold GetRole, GetRolePermissions.
  destruct (getRoleDescription (Name role)) as [desc ok].
  destruct role as [name description permissions].
  cbn [Name Permissions Description] in *. subst description permissions.
  f_equal. unfold permissionTexts, GetFilteredPolicy.
  rewrite map_map.
  replace (String.eqb ("role:" ++ name) "") with false by reflexivity.
  cbn [orb]. apply map_ext_in_iff.
  induction (policy e) as [| [[s o] a] l IH]; [intros x [] |].
  cbn [filter]. destruct (String.eqb s ("role:" ++ name)).
  - intros x [<- | Hin]; [reflexivity | now apply IH].
  - exact IH.
Qed.

(** X14: the list of roles, the page of one role and the statistics
    agree.  [GetAllRoles] shows every role once; a name is shown
    exactly when it is not empty and the policy holds a rule under its
    key; what is shown for a role (its permissions, in the order of the
    rules, and its description) is what [GetRole] shows for its name;
    and the count of roles of [GetPolicyStats] is the length of the
    list. *)
Theorem roles_listing_is_consistent (e : Enforcer DB) :
  NoDup (List.map Name (fst (GetAllRoles e)))
  /\ (forall role,
        In role (fst (GetAllRoles e)) ->
        Name role <> "" /\ GetRole e (Name role) = role)
  /\ (forall name,
        In name (List.map Name (fst (GetAllRoles e)))
        <-> name <> ""
            /\ exists object action,
                 In ("role:" ++ name, object, action) (policy e))
  /\ roles (GetPolicyStats e) = Z.of_nat (List.length (fst (GetAllRoles e)))
  /\ snd (GetAllRoles e) = None.
Proof.
  destruct (getRoleNames_fold (policy e) [] (NoDup_nil _)) as [Hnodup Hmem].
  pose proof (GetAllRoles_names e) as Hnames.
  split; [| split; [| split; [| split]]].
  - rewrite Hnames. exact Hnodup.
  - intros role Hin.
    pose proof (GetAllRoles_fold (policy e) [] [] (NoDup_nil _)
                  (Forall_nil _) (fun n _ _ => eq_refl)) as Hread.
    cbn [app] in Hread. rewrite Forall_forall in Hread.
    specialize (Hread role Hin). split; [apply Hread |].
    now apply GetRole_read.
  - intros name. rewrite Hnames. unfold getRoleNames, GetPolicy.
    rewrite Hmem. split.
    + intros [[] | (psub & pobj & pact & Hin & Hkey & Hdrop)].
      destruct (isRoleKey_inv psub Hkey) as [Hsub Hne].
      rewrite Hdrop in *. split; [exact Hne |].
      exists pobj, pact. now rewrite <- Hsub.
    + intros (Hne & object & action & Hin). right.
      destruct (isRoleKey_key name Hne) as [Hkey Hdrop].
      now exists ("role:" ++ name), object, action.
  - unfold GetPolicyStats. cbn [roles]. rewrite <- Hnames.
    now rewrite length_map.
  - reflexivity.
Qed.

Lemma addUserRole_roles (users : list User) (username role r : string) :
  (exists user, In user (addUserRole users username role) /\ In r (Roles user))
  <-> (exists user, In user users /\ In r (Roles user)) \/ r = role.
Proof.
  induction users as [| user users IH]; cbn [addUserRole].
  - split.
    + intros (user & [<- | []] & Hr). cbn [Roles] in Hr.
      destruct Hr as [<- | []]. now right.
    + intros [(user & [] & _) | ->]. eexists. split; [now left |].
      cbn [Roles]. now left.
  - destruct (String.eqb (Username user) username).
    + split.
      * intros (u & [<- | Hin] & Hr).
        -- cbn [Roles] in Hr. apply in_app_iff in Hr.
           destruct Hr as [Hr | [<- | []]]; [| now right].
           left. exists user. split; [now left | exact Hr].
        -- left. exists u. split; [now right | exact Hr].
      * intros [(u & [<- | Hin] & Hr) | ->].
        -- eexists. split; [now left |]. cbn [Roles].
           apply in_app_iff. now left.
        -- exists u. split; [now right | exact Hr].
        -- eexists. split; [now left |]. cbn [Roles].
           apply in_app_iff. right. now left.
    + split.
      * intros (u & [<- | Hin] & Hr).
        -- left. exists user. split; [now left | exact Hr].
        -- assert (Hex : exists user0,
                     In user0 (addUserRole users username role)
                     /\ In r (Roles user0)) by now exists u.
           apply IH in Hex. destruct Hex as [(u' & Hin' & Hr') | ->];
             [| now right].
           left. exists u'. split; [now right | exact Hr'].
      * intros [(u & [<- | Hin] & Hr) | ->].
        -- exists user. split; [now left | exact Hr].
        -- assert (Hex : exists user0,
                     In user0 (addUserRole users username role)
                     /\ In r (Roles user0))
             by (apply IH; left; now exists u).
           destruct Hex as (u' & Hin' & Hr').
           exists u'. split; [now right | exact Hr'].
        -- assert (Hex : exists user0,
                     In user0 (addUserRole users username role)
                     /\ In role (Roles user0))
             by (apply IH; now right).
           destruct Hex as (u' & Hin' & Hr').
           exists u'. split; [now right | exact Hr'].
Qed.

Lemma GetAllUsers_roles (l : list (string * string)) (users : list User)
      (r : string) :
  (exists user,
     In user (fold_left (fun users g =>
                           addUserRole users (fst g) (cleanRole (snd g)))
                        l users)
     /\ In r (Roles user))
  <-> (exists user, In user users /\ In r (Roles user))
      \/ exists g, In g l /\ cleanRole (snd g) = r.
Proof.
  revert users. induction l as [| g l IH]; intros users; cbn [fold_left].
  - split; [now left | intros [Hu | (g & [] & _)]; exact Hu].
  - rewrite IH, addUserRole_roles. split.
    + intros [[Hu | ->] | (g' & Hin & Hg)].
      * now left.
      * right. exists g. split; [now left | reflexivity].
      * right. exists g'. split; [now right | exact Hg].
    + intros [Hu | (g' & [<- | Hin] & Hg)].
      * left. now left.
      * left. right. now symmetry.
      * right. now exists g'.
Qed.

Lemma createDefaultAdmin_test (e : Enforcer DB) :
  existsb (fun user => existsb (fun role => String.eqb role "admin")
                               (Roles user))
          (fst (GetAllUsers e))
  = hasAdmin e.
Proof.
  apply eq_true_iff_eq. unfold hasAdmin, GetAllUsers, GetGroupingPolicy.
  cbn [fst]. rewrite !existsb_exists. split.
  - intros (user & Hin & Hrole). apply existsb_exists in Hrole.
    destruct Hrole as (role & Hr & Heq). apply String.eqb_eq in Heq. subst role.
    assert (Hex : exists user0,
              In user0 (fold_left (fun users g =>
                                     addUserRole users (fst g) (cleanRole (snd g)))
                                  (grouping e) [])
              /\ In "admin" (Roles user0)) by now exists user.
    apply GetAllUsers_roles in Hex.
    destruct Hex as [(u & [] & _) | (g & Hg & Hclean)].
    exists g. split; [exact Hg |]. rewrite Hclean. reflexivity.
  - intros (g & Hg & Hclean). apply String.eqb_eq in Hclean.
    assert (Hex : exists user0,
              In user0 (fold_left (fun users g =>
                                     addUserRole users (fst g) (cleanRole (snd g)))
                                  (grouping e) [])
              /\ In "admin" (Roles user0))
      by (apply GetAllUsers_roles; right; now exists g).
    destruct Hex as (user & Hin & Hr). exists user. split; [exact Hin |].
    apply existsb_exists. exists "admin". split; [exact Hr | reflexivity].
Qed.

Lemma hasAdmin_user (e : Enforcer DB) :
  hasAdmin e = true
  <-> exists user, CheckUserRole e user "admin" = (true, None).
Proof.
  unfold hasAdmin. rewrite existsb_exists. split.
  - intros ([u key] & Hin & Hclean). exists u.
    rewrite CheckUserRole_links. f_equal. apply existsb_exists.
    exists (u, key). split; [exact Hin |]. cbn [fst snd] in *.
    now rewrite String.eqb_refl.
  - intros (user & Hcheck). rewrite CheckUserRole_links in Hcheck.
    injection Hcheck as Hcheck. apply existsb_exists in Hcheck.
    destruct Hcheck as (g & Hin & Hmatch).
    apply andb_true_iff in Hmatch. destruct Hmatch as [_ Hclean].
    now exists g.
Qed.

Lemma AssignRole_links (e e1 : Enforcer DB) (user role : string) :
  AssignRole e user role = (None, e1) ->
  grouping e1 = (grouping e ++ [(user, ("role:" ++ role)%string)])%list
  /\ policy e1 = policy e.
Proof.
  unfold AssignRole, AddRoleForUser. intros Hassign.
  destruct (existsb _ (grouping e)); [discriminate |].
  destruct (adapterAddGrouping _ _) as [[err |] db1]; [discriminate |].
  injection Hassign as <-. split; reflexivity.
Qed.

(** X15: the start of the server leaves an administrator.  When
    [createDefaultAdmin] returns without an error, some user has the
    role [admin]; the policy is as it was; a second run changes
    nothing.  When a user had the role already, nothing is changed at
    all.  When none had it, the user [admin] gets it, and then
    [AdminOnly] lets a caller through exactly when the name of the
    caller is [admin]. *)
Theorem createDefaultAdmin_leaves_an_admin (e e1 : Enforcer DB) :
  createDefaultAdmin e = (None, e1) ->
  (exists user, CheckUserRole e1 user "admin" = (true, None))
  /\ policy e1 = policy e
  /\ createDefaultAdmin e1 = (None, e1)
  /\ ((exists user, CheckUserRole e user "admin" = (true, None)) -> e1 = e)
  /\ ((forall user, CheckUserRole e user "admin" = (false, None)) ->
      grouping e1 = (grouping e ++ [("admin", "role:admin")])%list
      /\ forall claims,
           AdminOnly e1 (Some claims) = Next
           <-> Auth.Username claims = "admin").
Proof.
  intros Hrun. unfold createDefaultAdmin in Hrun.
  pose proof (createDefaultAdmin_test e) as Htest.
  change (GetAllUsers e) with (fst (GetAllUsers e), @None string) in Hrun.
  cbv iota beta in Hrun. rewrite Htest in Hrun.
  destruct (hasAdmin e) eqn:Hadmin.
  - injection Hrun as <-.
    split; [now apply hasAdmin_user |]. split; [reflexivity |].
    split; [| split].
    + unfold createDefaultAdmin.
      change (GetAllUsers e) with (fst (GetAllUsers e), @None string).
      cbv iota beta. now rewrite Htest.
    + reflexivity.
    + intros Hnone. apply hasAdmin_user in Hadmin.
      destruct Hadmin as (user & Hyes). rewrite Hnone in Hyes. discriminate.
  - destruct (AssignRole_links e e1 "admin" "admin" Hrun) as [Hlinks Hpolicy].
    assert (Hnow : hasAdmin e1 = true).
    { unfold hasAdmin. rewrite Hlinks, existsb_app. cbn [existsb snd].
      replace (String.eqb (cleanRole ("role:" ++ "admin")) "admin") with true
        by reflexivity.
      now rewrite orb_true_r. }
    split; [now apply hasAdmin_user |]. split; [exact Hpolicy |].
    split; [| split].
    + unfold createDefaultAdmin.
      change (GetAllUsers e1) with (fst (GetAllUsers e1), @None string).
      cbv iota beta. now rewrite (createDefaultAdmin_test e1), Hnow.
    + intros Hsome. apply hasAdmin_user in Hsome.
      rewrite Hsome in Hadmin. discriminate.
    + intros Hnone. split; [exact Hlinks |]. intros claims.
      unfold AdminOnly. rewrite RequireRole_links, CheckUserRole_links.
      cbn [fst]. rewrite Hlinks, existsb_app.
      specialize (Hnone (Auth.Username claims)).
      rewrite CheckUserRole_links in Hnone. injection Hnone as Hnone.
      rewrite Hnone. cbn [existsb orb fst snd].
      replace (String.eqb (cleanRole ("role:" ++ "admin")) "admin") with true
        by reflexivity.
      rewrite andb_true_r, orb_false_r.
      rewrite String.eqb_eq. split; intros Heq; now symmetry.
Qed.

End Listings.

(** ** Tokens: what is accepted, what is refused, and the middlewares *)

Section TokenVerdicts.
Import GoString JSONString Auth AuthHTTP.
Context `{MAC (Header * Claims)}.

Lemma isHMAC_registered (a : string) :
  isHMAC a = true -> registeredMethod a = true.
Proof. unfold registeredMethod. intros ->. reflexivity. Qed.

Lemma validateClaims_window (now : Z) (c : Claims) :
  validateClaims now c = None
  <-> (forall exp, ExpiresAt (Registered c) = Some exp -> now < exp)
      /\ (forall nbf, NotBefore (Registered c) = Some nbf -> nbf <= now).
Proof.
  unfold validateClaims.
  destruct (ExpiresAt (Registered c)) as [exp |],
    (NotBefore (Registered c)) as [nbf |];
    repeat match goal with
           | |- context [?a <? ?b] => destruct (Z.ltb_spec a b)
           end; cbn [negb];
    (split;
     [ try discriminate; intros _; split; intros x Hx; inversion Hx; subst; lia
     | intros [Hexp Hnbf]; try reflexivity;
       try (specialize (Hexp _ eq_refl); lia);
       try (specialize (Hnbf _ eq_refl); lia) ]).
Qed.

(** X16: [ValidateToken] accepts a token only when it was signed with
    the key of the manager by a method of the HMAC family, and when the
    instant of the check is before its expiry and not before its
    not-before date, each when the token has one; it then returns the
    claims of the token as they are.  A token whose header names
    another method ([none], [RS256], ...) is refused whatever its
    signature is. *)
Theorem ValidateToken_accepts_only_signed
        (j : JWTManager) (now : Z) (token : TokenString) (claims : Claims) :
  (ValidateToken j now token = inr claims
   <-> exists header,
         token = Compact header claims
                         (hmac (alg header) (secretKey j) (header, claims))
         /\ isHMAC (alg header) = true
         /\ (forall exp, ExpiresAt (Registered claims) = Some exp -> now < exp)
         /\ (forall nbf, NotBefore (Registered claims) = Some nbf -> nbf <= now))
  /\ (forall header payload signature,
        isHMAC (alg header) = false ->
        ValidateToken j now (Compact header payload signature)
        = inl (ErrInvalidTokenBecause ErrTokenUnverifiable)).
Proof.
  split.
  - unfold ValidateToken, ParseWithClaims. split.
    + destruct token as [header payload signature | raw]; [| discriminate].
      destruct (registeredMethod (alg header)); cbn [negb]; [| discriminate].
      destruct (isHMAC (alg header)) eqn:Hmethod; cbn [negb]; [| discriminate].
      destruct (String.eqb_spec signature
                  (hmac (alg header) (secretKey j) (header, payload)))
        as [Hsig | Hsig]; cbn [negb]; [| discriminate].
      destruct (validateClaims now payload) as [err |] eqn:Hwindow.
      { destruct (isExpired err); discriminate. }
      intros Heq. injection Heq as <-. exists header.
      apply validateClaims_window in Hwindow. destruct Hwindow as [Hexp Hnbf].
      subst signature. repeat split; assumption.
    + intros (header & -> & Hmethod & Hexp & Hnbf).
      rewrite (isHMAC_registered _ Hmethod), Hmethod, String.eqb_refl.
      cbn [negb].
      replace (validateClaims now claims) with (@None JWTError)
        by (symmetry; now apply validateClaims_window).
      reflexivity.
  - intros header payload signature Hmethod.
    unfold ValidateToken, ParseWithClaims. rewrite Hmethod.
    destruct (registeredMethod (alg header)); reflexivity.
Qed.

(** X17: the error [ErrTokenExpired] is kept for the tokens that
    carry a good signature.  [ValidateToken] answers with it exactly
    when the token parses, names an HMAC method, is signed with the key
    of the manager, and has an expiry that is not after the instant of
    the check.  A token that is expired and whose signature is wrong is
    refused as not valid, like any other forged token. *)
Theorem ErrTokenExpired_only_with_good_signature
        (j : JWTManager) (now : Z) (token : TokenString) :
  (ValidateToken j now token = inl ErrTokenExpired
   <-> exists header payload exp,
         token = Compact header payload
                         (hmac (alg header) (secretKey j) (header, payload))
         /\ isHMAC (alg header) = true
         /\ ExpiresAt (Registered payload) = Some exp
         /\ exp <= now)
  /\ (forall header payload signature,
        isHMAC (alg header) = true ->
        signature <> hmac (alg header) (secretKey j) (header, payload) ->
        ValidateToken j now (Compact header payload signature)
        = inl (ErrInvalidTokenBecause ErrTokenSignatureInvalid)).
Proof.
  split.
  - unfold ValidateToken, ParseWithClaims. split.
    + destruct token as [header payload signature | raw]; [| discriminate].
      destruct (registeredMethod (alg header)); cbn [negb]; [| discriminate].
      destruct (isHMAC (alg header)) eqn:Hmethod; cbn [negb]; [| discriminate].
      destruct (String.eqb_spec signature
                  (hmac (alg header) (secretKey j) (header, payload)))
        as [Hsig | Hsig]; cbn [negb]; [| discriminate].
      unfold validateClaims.
      destruct (ExpiresAt (Registered payload)) as [exp |] eqn:Hexp.
      * destruct (Z.ltb_spec now exp) as [Hlt | Hge]; cbn [negb].
        -- destruct (NotBefore (Registered payload)) as [nbf |];
             [destruct (now <? nbf) |]; discriminate.
        -- intros _. exists header, payload, exp. subst signature.
           repeat split; try assumption.
      * destruct (NotBefore (Registered payload)) as [nbf |];
          [destruct (now <? nbf) |]; discriminate.
    + intros (header & payload & exp & -> & Hmethod & Hexp & Hpast).
      rewrite (isHMAC_registered _ Hmethod), Hmethod, String.eqb_refl.
      cbn [negb]. unfold validateClaims. rewrite Hexp.
      replace (now <? exp) with false by (symmetry; apply Z.ltb_ge; lia).
      cbn [negb].
      destruct (NotBefore (Registered payload)) as [nbf |];
        [destruct (now <? nbf) |]; reflexivity.
  - intros header payload signature Hmethod Hsig.
    unfold ValidateToken, ParseWithClaims.
    rewrite (isHMAC_registered _ Hmethod), Hmethod. cbn [negb].
    destruct (String.eqb_spec signature
                (hmac (alg header) (secretKey j) (header, payload)))
      as [Heq | _]; [now elim Hsig | reflexivity].
Qed.

End TokenVerdicts.

Section AuthMiddlewares.
Import GoString JSONString Auth AuthHTTP.
Context `{MAC (Header * Claims)}.
Variable parse : string -> TokenString.

Lemma HasPrefix_app (pre rest : string) : HasPrefix (pre ++ rest) pre = true.
Proof.
  unfold HasPrefix. induction pre as [| c pre IH]; cbn [append String.prefix].
  - now destruct rest.
  - destruct (ascii_dec c c) as [_ | Hneq]; [exact IH | now elim Hneq].
Qed.

Lemma drop_app (pre rest : string) : drop (String.length pre) (pre ++ rest) = rest.
Proof. induction pre as [| c pre IH]; [now destruct rest | exact IH]. Qed.

(** X18: where the token is read.  A header [Authorization] that
    starts with [Bearer ] gives the token, which is what follows the
    prefix, and the query parameter is not looked at, even when the
    header gives an empty token; any other header, and no header, leave
    the token to the query parameter.  The middleware refuses an empty
    token with 401 as a missing one; otherwise it lets the request
    through exactly when [ValidateToken] accepts the token, and the
    keys it sets are the claims of the token; every refusal is a 401
    with the error of [ValidateToken]. *)
Theorem Middleware_reads_and_checks_the_token
        (j : JWTManager) (now : Z) (r : Request) :
  (forall token,
     Authorization r = "Bearer " ++ token -> extractToken r = token)
  /\ (HasPrefix (Authorization r) "Bearer " = false ->
      extractToken r = QueryToken r)
  /\ (extractToken r = "" ->
      Middleware parse j now r = Aborted 401 ErrMissingToken)
  /\ (extractToken r <> "" ->
      forall claims,
        ValidateToken j now (parse (extractToken r)) = inr claims ->
        Middleware parse j now r
        = Continue {| user_claims := claims; user_id := UserID claims;
                      username := Username claims;
                      user_roles := Roles claims |})
  /\ (forall keys,
        Middleware parse j now r = Continue keys ->
        extractToken r <> ""
        /\ ValidateToken j now (parse (extractToken r)) = inr (user_claims keys)
        /\ GetUserFromContext (Some keys) = inr (user_claims keys))
  /\ (forall status err,
        Middleware parse j now r = Aborted status err -> status = 401).
Proof.
  split; [| split; [| split; [| split; [| split]]]].
  - intros token Hheader. unfold extractToken, TrimPrefix. rewrite Hheader.
    rewrite (HasPrefix_app "Bearer " token). cbn [negb andb].
    apply (drop_app "Bearer " token).
  - intros Hother. unfold extractToken. rewrite Hother.
    now rewrite andb_false_r.
  - intros Hempty. unfold Middleware. now rewrite Hempty.
  - intros Hsome claims Hvalid. unfold Middleware.
    destruct (String.eqb_spec (extractToken r) "") as [Heq | _];
      [now elim Hsome |].
    now rewrite Hvalid.
  - intros keys. unfold Middleware.
    destruct (String.eqb_spec (extractToken r) "") as [Heq | Hne];
      [discriminate |].
    destruct (ValidateToken j now (parse (extractToken r))) as [err | claims];
      [discriminate |].
    intros Heq. injection Heq as <-. repeat split. exact Hne.
  - intros status err. unfold Middleware.
    destruct (String.eqb (extractToken r) "").
    + intros Heq. now injection Heq as <- _.
    + destruct (ValidateToken j now (parse (extractToken r)));
        [| discriminate].
      intros Heq. now injection Heq as <- _.
Qed.

Lemma CheckRole_shared (userRoles requiredRoles : list string) :
  CheckRole userRoles requiredRoles = true
  <-> requiredRoles = []
      \/ exists role, In role userRoles /\ In role requiredRoles.
Proof.
  unfold CheckRole. destruct requiredRoles as [| required rest].
  - split; [now left | reflexivity].
  - cbn [List.length].
    replace (Z.of_nat (S (List.length rest)) =? 0) with false
      by (symmetry; apply Z.eqb_neq; lia).
    rewrite existsb_exists. split.
    + intros (role & Hin & Hany). right. apply existsb_exists in Hany.
      destruct Hany as (role' & Hin' & Heq). apply String.eqb_eq in Heq.
      subst role'. now exists role.
    + intros [Hnil | (role & Hin & Hreq)]; [discriminate |].
      exists role. split; [exact Hin |]. apply existsb_exists.
      exists role. split; [exact Hreq | apply String.eqb_refl].
Qed.

(** X19: [CheckRole] says yes exactly when no role is required, or
    when one of the roles of the user is one of the required roles, the
    names compared as they are written.  The middleware [RequireRole]
    of the tokens answers 401 without claims, lets the request through
    when [CheckRole] says yes for the roles of the token, and answers
    403 otherwise; with no role to require it lets every caller with
    claims through. *)
Theorem RequireRole_of_the_token
        (requiredRoles : list string) (keys : Keys) :
  (CheckRole (Roles (user_claims keys)) requiredRoles = true
   <-> requiredRoles = []
       \/ exists role,
            In role (Roles (user_claims keys)) /\ In role requiredRoles)
  /\ (AuthHTTP.RequireRole requiredRoles (Some keys) = RBAC.Next
      <-> CheckRole (Roles (user_claims keys)) requiredRoles = true)
  /\ (CheckRole (Roles (user_claims keys)) requiredRoles = false ->
      AuthHTTP.RequireRole requiredRoles (Some keys)
      = RBAC.Abort 403 "insufficient role permissions")
  /\ AuthHTTP.RequireRole requiredRoles None
     = RBAC.Abort 401 "authentication required"
  /\ AuthHTTP.RequireRole [] (Some keys) = RBAC.Next.
Proof.
  split; [apply CheckRole_shared |]. unfold AuthHTTP.RequireRole.
  split; [| split; [| split]].
  - destruct (CheckRole _ requiredRoles); cbn [negb];
      split; try reflexivity; discriminate.
  - now intros ->.
  - reflexivity.
  - reflexivity.
Qed.

(** X20: a token that is refreshed keeps the identity and gets a new
    window.  When [ValidateToken] accepts the old token, [RefreshToken]
    gives a new one that is accepted from the instant of the refresh to
    its own expiry, which is counted from the refresh and owes nothing
    to the expiry of the old token; it carries the user id, the user
    name and the roles of the old token, and the issuer of the manager,
    whatever the issuer of the old token was. *)
Theorem RefreshToken_keeps_the_identity
        (j : JWTManager) (now now' later : Z) (old : TokenString)
        (claims : Claims) :
  ValidateToken j now old = inr claims ->
  ValidString (UserID claims) = true ->
  ValidString (Username claims) = true ->
  forallb ValidString (Roles claims) = true ->
  ValidString (issuer j) = true ->
  now' <= later ->
  later < NewNumericDate (now' + tokenExpiry j) ->
  exists fresh refreshed,
    RefreshToken j now now' old = inr fresh
    /\ ValidateToken j later fresh = inr refreshed
    /\ UserID refreshed = UserID claims
    /\ Username refreshed = Username claims
    /\ Roles refreshed = Roles claims
    /\ Issuer (Registered refreshed) = issuer j
    /\ Subject (Registered refreshed) = UserID claims
    /\ ExpiresAt (Registered refreshed)
       = Some (NewNumericDate (now' + tokenExpiry j))
    /\ IssuedAt (Registered refreshed) = Some (NewNumericDate now').
Proof.
  intros Hold Hu Hd Hr Hiss Hafter Hbefore.
  unfold RefreshToken. rewrite Hold.
  eexists. eexists. split; [reflexivity |].
  unfold jsonClaims. simpl.
  rewrite (coerceUTF8_valid _ Hu), (coerceUTF8_valid _ Hd),
    (map_coerceUTF8_valid _ Hr), (coerceUTF8_valid (issuer j) Hiss).
  change (coerceUTF8 "") with "".
  unfold ValidateToken, ParseWithClaims. simpl.
  rewrite String.eqb_refl. simpl.
  unfold validateClaims. simpl.
  pose proof (NewNumericDate_le now') as Hnbf.
  replace (later <? NewNumericDate (now' + tokenExpiry j)) with true
    by (symmetry; apply Z.ltb_lt; lia).
  replace (later <? NewNumericDate now') with false
    by (symmetry; apply Z.ltb_ge; lia).
  split; [reflexivity |]. repeat split.
Qed.

End AuthMiddlewares.

(** ** The sandbox: what it lets through, and what it writes down *)

Section SandboxChecks.
Import GoString Filepath SafeFS SafeFSOps.
Context `{UnicodeTables} {W Info File : Type} `{Host W} `{HostFiles W Info File}.

(** X21: the check of a directory is the check of a file without the
    test of the extension.  What [validatePathForDirectory] refuses,
    [ValidatePath] refuses with the same error; what [ValidatePath]
    refuses for another reason than the extension,
    [validatePathForDirectory] refuses with the same error; without an
    allow-list of extensions the two agree.  So [ListDir] reads a
    directory that [ValidatePath] would refuse for its extension
    only. *)
Theorem directory_check_skips_the_extension
        (fs : SafeFS) (w : W) (path user : string) :
  (forall err,
     validatePathForDirectory fs w path = Some err ->
     ValidatePath fs w path = Some err)
  /\ (forall err,
        ValidatePath fs w path = Some err -> err <> ErrExtNotAllowed ->
        validatePathForDirectory fs w path = Some err)
  /\ (ValidatePath fs w path = None ->
      validatePathForDirectory fs w path = None)
  /\ (allowedExts fs = [] ->
      ValidatePath fs w path = validatePathForDirectory fs w path)
  /\ (ValidatePath fs w path = Some ErrExtNotAllowed ->
      validatePathForDirectory fs w path = None
      /\ fst (ListDir fs w path user)
         = match ReadDir w path with
           | inl err => inl (ErrWrap "failed to read directory" err)
           | inr entries => inr (fileInfos entries)
           end).
Proof.
  assert (Hshape :
    ValidatePath fs w path
    = match validatePathForDirectory fs w path with
      | Some err => Some err
      | None =>
          match Abs (Getwd w) (Clean path) with
          | inl _ => None
          | inr absPath =>
              if (0 <? Z.of_nat (List.length (allowedExts fs)))
                 && negb (inExts (allowedExts fs) (ToLower (Ext absPath)))
              then Some ErrExtNotAllowed else None
          end
      end).
  { unfold ValidatePath, validatePathForDirectory.
    destruct (Contains (Clean path) ".."); [reflexivity |].
    destruct (Abs (Getwd w) (Clean path)) as [err | absPath]; [reflexivity |].
    destruct (negb (existsb _ (basePaths fs))); [reflexivity |].
    destruct (existsb _ (deniedPaths fs)); reflexivity. }
  split; [| split; [| split; [| split]]].
  - intros err Hdir. now rewrite Hshape, Hdir.
  - intros err Hfile Hother. rewrite Hshape in Hfile.
    destruct (validatePathForDirectory fs w path) as [err' |]; [exact Hfile |].
    destruct (Abs (Getwd w) (Clean path)) as [e | absPath]; [discriminate |].
    destruct (_ && _); [| discriminate].
    injection Hfile as <-. now elim Hother.
  - intros Hfile. rewrite Hshape in Hfile.
    destruct (validatePathForDirectory fs w path); [discriminate | reflexivity].
  - intros Hnone. rewrite Hshape, Hnone.
    destruct (validatePathForDirectory fs w path); [reflexivity |].
    destruct (Abs (Getwd w) (Clean path)); reflexivity.
  - intros Hext.
    assert (Hdir : validatePathForDirectory fs w path = None).
    { rewrite Hshape in Hext.
      destruct (validatePathForDirectory fs w path) as [err |] eqn:Hdir;
        [| reflexivity].
      injection Hext as ->. unfold validatePathForDirectory in Hdir.
      destruct (Contains (Clean path) ".."); [discriminate |].
      destruct (Abs (Getwd w) (Clean path)); [discriminate |].
      destruct (negb (existsb _ (basePaths fs))); [discriminate |].
      destruct (existsb _ (deniedPaths fs)); discriminate. }
    split; [exact Hdir |]. unfold ListDir. rewrite Hdir.
    destruct (ReadDir w path); reflexivity.
Qed.

Lemma auditLog_once (fs : SafeFS) (op path user : string) (ok : bool)
      (detail : string) :
  auditedOnce fs op path user ok (auditLog fs op path user ok detail).
Proof.
  unfold auditedOnce, auditLog. destruct (auditLogger fs); [| reflexivity].
  now exists detail.
Qed.

(** X22: every call is written down once.  [ReadFile], [WriteFile],
    [ListDir] and [CopyFile] emit, when the sandbox has a logger,
    exactly one audit record at each call, refused or not; the record
    names the operation, the path (for a copy, the source and the
    destination around an arrow) and the user of the call, and says
    that the call succeeded exactly when it returned no error.  Without
    a logger nothing is emitted. *)
Theorem every_call_is_audited_once
        (fs : SafeFS) (w : W) (path other user data : string) (perm : Z) :
  auditedOnce fs "read" path user
              (succeeded (fst (ReadFile fs w path user)))
              (snd (ReadFile fs w path user))
  /\ auditedOnce fs "write" path user
                 (noError (fst (fst (WriteFile fs w path user data perm))))
                 (snd (WriteFile fs w path user data perm))
  /\ auditedOnce fs "list" path user
                 (succeeded (fst (ListDir fs w path user)))
                 (snd (ListDir fs w path user))
  /\ auditedOnce fs "copy" (path ++ " -> " ++ other) user
                 (noError (fst (fst (CopyFile fs w path other user))))
                 (snd (CopyFile fs w path other user)).
Proof.
  split; [| split; [| split]].
  - unfold ReadFile.
    destruct (ValidatePath fs w path); [apply auditLog_once |].
    destruct (Stat w path); [apply auditLog_once |].
    destruct (_ && _); [apply auditLog_once |].
    destruct (osReadFile w path); apply auditLog_once.
  - unfold WriteFile, writeThrough.
    destruct (ValidatePath fs w path); [apply auditLog_once |].
    destruct (_ && _); [apply auditLog_once |].
    destruct (MkdirAll w (Dir path) 493) as [[err |] w1];
      [apply auditLog_once |].
    destruct (osWriteFile w1 path data perm) as [[err |] w2];
      apply auditLog_once.
  - unfold ListDir.
    destruct (validatePathForDirectory fs w path); [apply auditLog_once |].
    destruct (ReadDir w path); apply auditLog_once.
  - unfold CopyFile.
    destruct (ValidatePath fs w path); [apply auditLog_once |].
    destruct (ValidatePath fs w other); [apply auditLog_once |].
    destruct (osOpen w path) as [err | srcFile]; [apply auditLog_once |].
    destruct (fileStat w srcFile) as [err | size]; [apply auditLog_once |].
    destruct (_ && _); [apply auditLog_once |].
    destruct (MkdirAll w (Dir other) 493) as [[err |] w1];
      [apply auditLog_once |].
    destruct (osCreate w1 other) as [[err | dstFile] w2];
      [apply auditLog_once |].
    destruct (ioCopy w2 dstFile srcFile) as [[err | written] w3];
      apply auditLog_once.
Qed.

(** X23: [ReadFile] gives the content of a file only when
    [ValidatePath] accepts the path and, under a positive cap, when the
    size that the host reports is not above the cap; the content is
    then what the host reads at the path.  A file above the cap is
    refused as too large. *)
Theorem ReadFile_returns_only_checked_files
        (fs : SafeFS) (w : W) (path user : string) :
  (forall data,
     fst (ReadFile fs w path user) = inr data ->
     ValidatePath fs w path = None
     /\ osReadFile w path = inr data
     /\ exists size,
          Stat w path = inr size
          /\ (0 < maxFileSize fs -> size <= maxFileSize fs))
  /\ (forall size,
        ValidatePath fs w path = None ->
        Stat w path = inr size ->
        0 < maxFileSize fs < size ->
        fst (ReadFile fs w path user) = inl ErrFileTooBig)
  /\ (forall size data,
        ValidatePath fs w path = None ->
        Stat w path = inr size ->
        (0 < maxFileSize fs -> size <= maxFileSize fs) ->
        osReadFile w path = inr data ->
        fst (ReadFile fs w path user) = inr data).
Proof.
  unfold ReadFile. split; [| split].
  - intros data.
    destruct (ValidatePath fs w path); [discriminate |].
    destruct (Stat w path) as [err | size]; [discriminate |].
    destruct (Z.ltb_spec 0 (maxFileSize fs)) as [Hcap | Hcap];
      destruct (Z.ltb_spec (maxFileSize fs) size) as [Hbig | Hsmall];
      cbn [andb fst]; try discriminate;
      (destruct (osReadFile w path) as [err | data']; [discriminate |];
       cbn [fst]; intros Heq; injection Heq as <-;
       split; [reflexivity |]; split; [reflexivity |];
       exists size; split; [reflexivity | lia]).
  - intros size -> -> [Hcap Hbig].
    apply Z.ltb_lt in Hcap, Hbig. now rewrite Hcap, Hbig.
  - intros size data -> -> Hfits ->.
    destruct (Z.ltb_spec 0 (maxFileSize fs)) as [Hcap | Hcap]; cbn [andb].
    + replace (maxFileSize fs <? size) with false
        by (symmetry; apply Z.ltb_ge; lia).
      reflexivity.
    + reflexivity.
Qed.

(** X24: [CopyFile] touches the host only after both paths were
    accepted.  When [ValidatePath] refuses the source or the
    destination the host is left as it was, no file is opened, and the
    error is the error of the validation under its context, the source
    being checked first; a source that the host reports above a
    positive cap is refused as too large, the host left as it was, with
    the bare error [ErrFileTooBig]. *)
Theorem CopyFile_checks_before_it_writes
        (fs : SafeFS) (w : W) (srcPath dstPath user : string) :
  (forall err,
     ValidatePath fs w srcPath = Some err ->
     fst (CopyFile fs w srcPath dstPath user)
     = (Some (Validation "source path validation failed" err), w))
  /\ (forall err,
        ValidatePath fs w srcPath = None ->
        ValidatePath fs w dstPath = Some err ->
        fst (CopyFile fs w srcPath dstPath user)
        = (Some (Validation "destination path validation failed" err), w))
  /\ (forall srcFile size,
        ValidatePath fs w srcPath = None ->
        ValidatePath fs w dstPath = None ->
        osOpen w srcPath = inr srcFile ->
        fileStat w srcFile = inr size ->
        0 < maxFileSize fs < size ->
        fst (CopyFile fs w srcPath dstPath user) = (Some (Plain ErrFileTooBig), w))
  /\ (snd (fst (CopyFile fs w srcPath dstPath user)) <> w ->
      ValidatePath fs w srcPath = None /\ ValidatePath fs w dstPath = None)
  /\ (fst (fst (CopyFile fs w srcPath dstPath user)) = None ->
      ValidatePath fs w srcPath = None /\ ValidatePath fs w dstPath = None).
Proof.
  unfold CopyFile. split; [| split; [| split; [| split]]].
  - now intros err ->.
  - now intros err -> ->.
  - intros srcFile size -> -> -> -> [Hcap Hbig].
    apply Z.ltb_lt in Hcap, Hbig. now rewrite Hcap, Hbig.
  - destruct (ValidatePath fs w srcPath); [intros Hw; now elim Hw |].
    destruct (ValidatePath fs w dstPath); [intros Hw; now elim Hw |].
    intros _. split; reflexivity.
  - destruct (ValidatePath fs w srcPath); [discriminate |].
    destruct (ValidatePath fs w dstPath); [discriminate |].
    intros _. split; reflexivity.
Qed.

End SandboxChecks.

Section Containment.
Import GoString Filepath SafeFS SafeFSOps.
Context `{UnicodeTables} {W : Type} `{Host W}.

Lemma IsAbs_slash (body : string) : IsAbs ("/" ++ body) = true.
Proof. destruct body; reflexivity. Qed.

Lemma IsAbs_Clean (path : string) : IsAbs path = true -> IsAbs (Clean path) = true.
Proof.
  intros Habs. unfold Clean. rewrite Habs.
  destruct (String.eqb_spec path "") as [-> | _]; [discriminate |].
  apply IsAbs_slash.
Qed.

Lemma IsAbs_app (a b : string) : IsAbs a = true -> IsAbs (a ++ b) = true.
Proof.
  unfold IsAbs, HasPrefix. destruct a as [| c a]; [discriminate |].
  cbn [append String.prefix]. destruct (ascii_dec "/"%char c); [| discriminate].
  intros _. now destruct (a ++ b).
Qed.

Lemma Abs_rooted (getwd : string + string) (path absPath : string) :
  (forall wd, getwd = inr wd -> IsAbs wd = true) ->
  Abs getwd path = inr absPath -> IsAbs absPath = true.
Proof.
  intros Hwd. unfold Abs. destruct (IsAbs path) eqn:Hpath.
  - intros Heq. injection Heq as <-. now apply IsAbs_Clean.
  - destruct getwd as [err | wd]; [discriminate |].
    intros Heq. injection Heq as <-. specialize (Hwd wd eq_refl).
    unfold Join2.
    destruct (String.eqb_spec wd "") as [-> | _]; [discriminate |].
    cbn [negb]. apply IsAbs_Clean. now apply IsAbs_app.
Qed.

Lemma stripCommon_prefix (b t b' t' : list string) :
  stripCommon b t = (b', t') ->
  exists common, b = (common ++ b')%list /\ t = (common ++ t')%list.
Proof.
  revert t. induction b as [| x b IH]; intros t Hstrip.
  - cbn [stripCommon] in Hstrip. injection Hstrip as <- <-. now exists [].
  - destruct t as [| y t].
    + cbn [stripCommon] in Hstrip. injection Hstrip as <- <-. now exists [].
    + cbn [stripCommon] in Hstrip.
      destruct (String.eqb_spec x y) as [-> | Hneq].
      * destruct (IH t Hstrip) as (common & Hb & Ht).
        exists (y :: common). cbn [app]. now rewrite <- Hb, <- Ht.
      * injection Hstrip as <- <-. now exists [].
Qed.

Lemma Join_dotdot (rest : list string) : HasPrefix (Join (".." :: rest) "/") ".." = true.
Proof. destruct rest; reflexivity. Qed.

(** A target that [Rel] places under a rooted base, without climbing,
    has the elements of the base as its first elements. *)
Lemma Rel_under (basepath targpath rel : string) :
  IsAbs (Clean basepath) = true ->
  Rel basepath targpath = Some rel ->
  HasPrefix rel ".." = false ->
  exists rest,
    elems (Clean targpath) = (elems (Clean basepath) ++ rest)%list.
Proof.
  intros Hrooted. unfold Rel.
  destruct (String.eqb_spec (Clean targpath) (Clean basepath)) as [Heq | _].
  - intros _ _. exists []. now rewrite Heq, app_nil_r.
  - destruct (String.eqb_spec (Clean basepath) ".") as [Hdot | _].
    { rewrite Hdot in Hrooted. discriminate. }
    destruct (negb (Bool.eqb (IsAbs (Clean basepath)) (IsAbs (Clean targpath))));
      [discriminate |].
    destruct (stripCommon (elems (Clean basepath)) (elems (Clean targpath)))
      as [b' t'] eqn:Hstrip.
    destruct (stripCommon_prefix _ _ _ _ Hstrip) as (common & Hb & Ht).
    destruct b' as [| x b'].
    + intros _ _. exists t'. rewrite Hb, Ht. now rewrite app_nil_r.
    + destruct t' as [| y t'].
      * intros Hrel Hclimb. injection Hrel as <-.
        pose proof (Join_dotdot (List.map (fun _ => "..") b')) as Hyes.
        change (HasPrefix (Join (List.map (fun _ => "..") (x :: b')) "/") ".."
                = true) in Hyes.
        exfalso. exact (eq_true_false_abs _ Hyes Hclimb).
      * destruct (String.eqb x ".."); [discriminate |].
        intros Hrel Hclimb. injection Hrel as <-.
        pose proof (Join_dotdot (List.map (fun _ => "..") b' ++ y :: t')%list)
          as Hyes.
        change (HasPrefix
                  (Join (List.map (fun _ => "..") (x :: b') ++ y :: t')%list "/")
                  ".." = true) in Hyes.
        exfalso. exact (eq_true_false_abs _ Hyes Hclimb).
Qed.

(** X25: what the sandbox lets through lies under a base root.  On a
    host whose working directory is an absolute path, a path that
    [ValidatePath] or [validatePathForDirectory] accepts has an
    absolute form whose elements, once cleaned, begin with all the
    elements of the absolute form of one of the base roots; with no
    base root, every path is refused. *)
Theorem accepted_path_is_under_a_base_root
        (fs : SafeFS) (w : W) (path : string) :
  (forall wd, Getwd w = inr wd -> IsAbs wd = true) ->
  ValidatePath fs w path = None \/ validatePathForDirectory fs w path = None ->
  (exists absPath basePath absBase rest,
     Abs (Getwd w) (Clean path) = inr absPath
     /\ In basePath (basePaths fs)
     /\ Abs (Getwd w) basePath = inr absBase
     /\ elems (Clean absPath) = (elems (Clean absBase) ++ rest)%list)
  /\ basePaths fs <> [].
Proof.
  intros Hwd Heither.
  assert (Hvalid : validatePathForDirectory fs w path = None).
  { destruct Heither as [Hfile | Hdir]; [| exact Hdir].
    unfold ValidatePath in Hfile. unfold validatePathForDirectory.
    destruct (Contains (Clean path) ".."); [discriminate |].
    destruct (Abs (Getwd w) (Clean path)); [discriminate |].
    destruct (negb (existsb _ (basePaths fs))); [discriminate |].
    destruct (existsb _ (deniedPaths fs)); [discriminate | reflexivity]. }
  clear Heither. unfold validatePathForDirectory in Hvalid.
  destruct (Contains (Clean path) ".."); [discriminate |].
  destruct (Abs (Getwd w) (Clean path)) as [err | absPath] eqn:Habs;
    [discriminate |].
  destruct (existsb (underBase w absPath) (basePaths fs)) eqn:Hbase;
    cbn [negb] in Hvalid; [| discriminate].
  apply existsb_exists in Hbase. destruct Hbase as (basePath & Hin & Hunder).
  split.
  - unfold underBase in Hunder.
    destruct (Abs (Getwd w) basePath) as [err | absBase] eqn:Hbaseabs;
      [discriminate |].
    destruct (Rel absBase absPath) as [rel |] eqn:Hrel; [| discriminate].
    apply negb_true_iff in Hunder.
    pose proof (Abs_rooted _ _ _ Hwd Hbaseabs) as Hrooted.
    apply IsAbs_Clean in Hrooted.
    destruct (Rel_under absBase absPath rel Hrooted Hrel Hunder) as (rest & Hrest).
    now exists absPath, basePath, absBase, rest.
  - intros Hnone. rewrite Hnone in Hin. exact Hin.
Qed.

End Containment.

Section FileRoutes.
Import GoString Filepath SafeFS SafeFSOps.
Context `{UnicodeTables} {W : Type} `{Host W} {DB : Type} `{Adapter DB}.

(** X26: the file routes serve the callers that the policy allows,
    within the sandbox.  The read route writes the content of a file
    only for a caller to whom [CheckPermission] grants
    [(filesystem, read)] and for a path that [ValidatePath] accepts,
    and the content is what the host reads there; the write route
    changes the host only for a caller who is granted
    [(filesystem, write)], for a body that binds and a path that
    [ValidatePath] accepts.  A caller without the permission is refused
    with 401 or 403 before the sandbox is asked, so that nothing is
    audited; and behind the middleware the handlers always find the
    claims that they read without a test. *)
Theorem file_routes_are_guarded
        (e : RBAC.Enforcer DB) (fs : SafeFS) (w : W) (path : string)
        (bound : string + string * string) (claims : option Auth.Claims) :
  (forall shown content size,
     fst (fileReadRoute e fs w path claims) = FileRead shown content size ->
     shown = path
     /\ RBAC.CheckPermission e claims "filesystem" "read" = true
     /\ ValidatePath fs w path = None
     /\ osReadFile w path = inr content
     /\ size = len content)
  /\ (snd (fst (fileWriteRoute e fs w bound claims)) <> w ->
      RBAC.CheckPermission e claims "filesystem" "write" = true
      /\ exists target content,
           bound = inr (target, content) /\ ValidatePath fs w target = None)
  /\ (RBAC.CheckPermission e claims "filesystem" "read" = false ->
      exists status error,
        fileReadRoute e fs w path claims = (Refused status error, [])
        /\ (status = 401 \/ status = 403))
  /\ (RBAC.CheckPermission e claims "filesystem" "write" = false ->
      exists status error,
        fileWriteRoute e fs w bound claims = (Refused status error, w, [])
        /\ (status = 401 \/ status = 403))
  /\ fst (fileReadRoute e fs w path claims) <> NilClaims
  /\ fst (fst (fileWriteRoute e fs w bound claims)) <> NilClaims.
Proof.
  unfold fileReadRoute, fileWriteRoute.
  rewrite !RequirePermission_shape.
  split; [| split; [| split; [| split; [| split]]]].
  - intros shown content size.
    destruct claims as [claims |]; [| discriminate].
    destruct (RBAC.CheckPermission e (Some claims) "filesystem" "read");
      [| discriminate].
    unfold fileReadHandler.
    destruct (String.eqb path ""); [discriminate |].
    unfold ReadFile.
    destruct (ValidatePath fs w path); [discriminate |].
    destruct (Stat w path); [discriminate |].
    destruct (_ && _); [discriminate |].
    destruct (osReadFile w path) as [err | data]; [discriminate |].
    cbn [fst]. intros Heq. injection Heq as <- <- <-. repeat split.
  - destruct claims as [claims |]; [| intros Hw; now elim Hw].
    destruct (RBAC.CheckPermission e (Some claims) "filesystem" "write");
      [| intros Hw; now elim Hw].
    unfold fileWriteHandler.
    destruct bound as [err | [target content]]; [intros Hw; now elim Hw |].
    unfold WriteFile.
    destruct (ValidatePath fs w target) eqn:Hvalid; [intros Hw; now elim Hw |].
    intros _. split; [reflexivity |]. now exists target, content.
  - intros Hdenied. destruct claims as [claims |].
    + rewrite Hdenied. exists 403, "insufficient permissions".
      split; [reflexivity | now right].
    + exists 401, "authentication required". split; [reflexivity | now left].
  - intros Hdenied. destruct claims as [claims |].
    + rewrite Hdenied. exists 403, "insufficient permissions".
      split; [reflexivity | now right].
    + exists 401, "authentication required". split; [reflexivity | now left].
  - destruct claims as [claims |]; [| discriminate].
    destruct (RBAC.CheckPermission e (Some claims) "filesystem" "read");
      [| discriminate].
    unfold fileReadHandler.
    destruct (String.eqb path ""); [discriminate |].
    destruct (ReadFile fs w path (Auth.Username claims)) as [[err | data] audit];
      discriminate.
  - destruct claims as [claims |]; [| discriminate].
    destruct (RBAC.CheckPermission e (Some claims) "filesystem" "write");
      [| discriminate].
    unfold fileWriteHandler.
    destruct bound as [err | [target content]]; [discriminate |].
    destruct (WriteFile fs w target (Auth.Username claims) content 420)
      as [[[err |] w'] audit]; discriminate.
Qed.

End FileRoutes.

(** ** The gadget runner: what is spawned *)

Section Spawned.
Import GoString Integration GadgetAPI.
Context `{UnicodeTables} `{GadgetHost} `{GadgetOutput} {DB : Type} `{Adapter DB}.



End Spawned.

(** ** The gadget framework *)

Section Framework.
Import GoString Gadget Command GoGoGadget.

Lemma Get_In (m : Manager) (name : string) (g : Gadget) :
  NoDup (List.map fst m) ->
  (Get m name = Some g <-> In (name, g) m).
Proof.
  unfold Get. induction m as [| [key g'] m IH]; intros Hnodup.
  - split; [discriminate | intros []].
  - inversion Hnodup as [| x xs Hfresh Hrest]; subst.
    cbn [List.find fst]. destruct (String.eqb_spec key name) as [-> | Hneq].
    + cbn [option_map snd]. split.
      * intros Heq. injection Heq as ->. now left.
      * intros [Heq | Hin]; [now injection Heq as -> |].
        elim Hfresh. apply in_map_iff. now exists (name, g).
    + rewrite (IH Hrest). split; [now right |].
      intros [Heq | Hin]; [| exact Hin]. injection Heq as -> _. now elim Hneq.
Qed.

Lemma Get_missing (m : Manager) (name : string) :
  Get m name = None -> ~ In name (List.map fst m).
Proof.
  unfold Get. induction m as [| [key g] m IH]; [intros _ [] |].
  cbn [List.find fst]. destruct (String.eqb_spec key name) as [-> | Hneq];
    [discriminate |].
  intros Hnone [Heq | Hin]; [now elim Hneq | now apply IH].
Qed.

Lemma insertInfo_In (info x : Info) (sorted : list Info) :
  In x (insertInfo info sorted) <-> x = info \/ In x sorted.
Proof.
  induction sorted as [| first rest IH]; cbn [insertInfo].
  - split; [intros [<- | []]; now left | intros [-> | []]; now left].
  - destruct (String.ltb (InfoName info) (InfoName first)).
    + cbn [In]. split; [intros [<- | Hin]; [now left | now right]
                       | intros [-> | Hin]; [now left | now right]].
    + cbn [In]. rewrite IH. tauto.
Qed.

Lemma sortInfos_In (x : Info) (infos : list Info) :
  In x (sortInfos infos) <-> In x infos.
Proof.
  unfold sortInfos. induction infos as [| info infos IH]; [reflexivity |].
  cbn [fold_right]. rewrite insertInfo_In, IH. cbn [In].
  split; intros [Heq | Hin]; auto.
Qed.

(** X28: the manager is a register of gadgets by name.  The new
    manager is empty.  [Register] refuses the [nil] gadget, a gadget
    without a name and a name that is taken, and leaves the manager as
    it was; a gadget that it takes is found by [Get] under its name, and
    what [Get] found under the other names is unchanged.  [List] shows
    an info for each gadget of the manager, and only those. *)
Theorem Register_then_Get (m m' : Manager) (g : Gadget) :
  wellKeyed m ->
  Register m (Some g) = (None, m') ->
  wellKeyed m'
  /\ Name g <> "" /\ Get m (Name g) = None
  /\ Get m' (Name g) = Some g
  /\ (forall name, name <> Name g -> Get m' name = Get m name)
  /\ Register m' (Some g) = (Some (AlreadyRegistered (Name g)), m')
  /\ (forall info,
        In info (List m')
        <-> exists g', Get m' (InfoName info) = Some g' /\ info = infoOf g')
  /\ Register m None = (Some GadgetIsNil, m)
  /\ wellKeyed NewManager.
Proof.
  intros [Hnodup Hkeys] Hregister. unfold Register in Hregister.
  destruct (String.eqb_spec (Name g) "") as [Hempty | Hname]; [discriminate |].
  destruct (Get m (Name g)) as [taken |] eqn:Hfree; [discriminate |].
  injection Hregister as <-.
  assert (Hwell : wellKeyed ((Name g, g) :: m)).
  { split.
    - cbn [List.map fst]. constructor; [now apply Get_missing | exact Hnodup].
    - intros key g' [Heq | Hin].
      + injection Heq as <- <-. now split.
      + now apply Hkeys. }
  assert (Hfound : Get ((Name g, g) :: m) (Name g) = Some g).
  { unfold Get. cbn [List.find fst]. now rewrite String.eqb_refl. }
  split; [exact Hwell |]. split; [exact Hname |]. split; [reflexivity |].
  split; [exact Hfound |]. split; [| split; [| split; [| split]]].
  - intros name Hother. unfold Get. cbn [List.find fst].
    destruct (String.eqb_spec (Name g) name) as [Heq | _];
      [now elim Hother | reflexivity].
  - unfold Register.
    destruct (String.eqb_spec (Name g) "") as [Hempty | _]; [now elim Hname |].
    now rewrite Hfound.
  - intros info. unfold List. rewrite sortInfos_In, in_map_iff.
    destruct Hwell as [Hnodup' Hkeys']. split.
    + intros ([key g'] & <- & Hin). exists g'. cbn [snd InfoName].
      destruct (Hkeys' key g' Hin) as [Hkey _]. subst key.
      split; [now apply Get_In | reflexivity].
    + intros (g' & Hget & ->). apply Get_In in Hget; [| exact Hnodup'].
      exists (InfoName (infoOf g'), g'). split; [reflexivity | exact Hget].
  - reflexivity.
  - split; [constructor | intros key g' []].
Qed.

Section Binary.
Variable sysinfoText : string.
Variable launch : string -> list string -> Launch.

(** X29: the runner of the server and the binary of the framework.
    The command that the runner spawns is the binary with [run], the
    name and the arguments.  When the process runs to its end, it runs
    the gadget of that name with these arguments as they are, and ends
    with the status 0 whatever the gadget did, since [main] drops the
    error of [Execute]: the runner reports a success whose output is
    what the gadget printed, and for a name that is no gadget of the
    framework a success with an empty output.  When the process is not
    started or is killed at the end of the 30 seconds, the runner
    reports a failure with the exit code -1 and the error of the
    command; it reports a success in no other case than a process that
    ran to its end. *)
Theorem runner_meets_the_framework
        (path name user : string) (args : list string) :
  let builtins := registerBuiltins sysinfoText NewManager in
  let command := ("run" :: name :: args)%list in
  let run :=
    @Integration.executeGadgetCommand (binary sysinfoText launch)
                                      path name args user in
  main sysinfoText command = fst (ManagerRun builtins name args)
  /\ snd run = [(path :: command)%list]
  /\ (launch path command = Ran ->
      fst run
      = {| Integration.Success := true;
           Integration.Output := fst (ManagerRun builtins name args);
           Integration.Error := "";
           Integration.ExitCode := 0;
           Integration.GadgetName := name |})
  /\ (forall err,
        launch path command = NotStarted err ->
        fst run
        = {| Integration.Success := false;
             Integration.Output := "";
             Integration.Error := err;
             Integration.ExitCode := -1;
             Integration.GadgetName := name |})
  /\ (forall output err,
        launch path command = Killed output err ->
        fst run
        = {| Integration.Success := false;
             Integration.Output := output;
             Integration.Error := err;
             Integration.ExitCode := -1;
             Integration.GadgetName := name |})
  /\ (Integration.Success (fst run) = true <-> launch path command = Ran)
  /\ (name <> "echo" -> name <> "sysinfo" ->
      ManagerRun builtins name args = ("", Some (unknownGadget name)))
  /\ (args <> [] ->
      ManagerRun builtins "echo" args
      = (String.concat "" (List.map Println args), None))
  /\ ManagerRun builtins "sysinfo" args = (sysinfoText, None).
Proof.
  cbv zeta.
  assert (Hmain :
    main sysinfoText ("run" :: name :: args)
    = fst (ManagerRun (registerBuiltins sysinfoText NewManager) name args))
    by reflexivity.
  split; [exact Hmain |].
  unfold Integration.executeGadgetCommand. cbn [CombinedOutput binary].
  rewrite Hmain.
  destruct (launch path ("run" :: name :: args)) as [| err | output err];
    cbn [fst snd Integration.Success].
  all: split; [reflexivity |].
  all: split; [intros Hran; try discriminate; reflexivity |].
  all: split; [intros err' Hnot; try discriminate;
               try (injection Hnot as <-); reflexivity |].
  all: split; [intros output' err' Hkilled; try discriminate;
               try (injection Hkilled as <- <-); reflexivity |].
  all: split; [split; intros Hyes; try discriminate; reflexivity |].
  all: split; [| split].
  all: try (intros Hargs; destruct args as [| a args];
            [now elim Hargs | reflexivity]).
  all: try reflexivity.
  all: intros Hecho Hsysinfo;
    change (registerBuiltins sysinfoText NewManager)
      with [("sysinfo", sysInfoGadget sysinfoText); ("echo", echoGadget)];
    unfold ManagerRun, Get; cbn [List.find fst];
    (destruct (String.eqb_spec "sysinfo" name) as [Heq | _];
       [now elim Hsysinfo |]);
    (destruct (String.eqb_spec "echo" name) as [Heq | _];
       [now elim Hecho |]);
    reflexivity.
Qed.

End Binary.

End Framework.

(** ** The list of gadgets read from the output of the binary *)

Section GadgetList.
Import GoString GoSpace Integration GadgetAPI.

Lemma take_nonempty (w : nat) (c : ascii) (s : string) :
  (1 <= w)%nat -> take w (String c s) <> "".
Proof. destruct w as [| w]; [lia | discriminate]. Qed.

Lemma append_nonempty (a b : string) : b <> "" -> a ++ b <> "".
Proof.
  intros Hb Heq. destruct a as [| c a]; [now elim Hb | discriminate].
Qed.

Lemma fieldsFrom_nonempty (fuel : nat) (s : string) (current : option string) :
  (forall field, current = Some field -> field <> "") ->
  Forall (fun field => field <> "") (fieldsFrom fuel s current).
Proof.
  revert s current. induction fuel as [| fuel IH]; intros s current Hcurrent.
  - cbn [fieldsFrom]. destruct current as [field |]; [| constructor].
    constructor; [now apply Hcurrent | constructor].
  - destruct s as [| c s].
    + cbn [fieldsFrom]. destruct current as [field |]; [| constructor].
      constructor; [now apply Hcurrent | constructor].
    + cbn [fieldsFrom].
      pose proof (DecodeRune_width c s) as Hwidth.
      destruct (DecodeRuneInString (String c s)) as [r w]. cbn [snd] in Hwidth.
      destruct (IsSpace r).
      * destruct current as [field |].
        -- constructor; [now apply Hcurrent |]. apply IH. discriminate.
        -- apply IH. discriminate.
      * apply IH. intros field Hfield. injection Hfield as <-.
        destruct current as [field |].
        -- apply append_nonempty. apply take_nonempty. lia.
        -- apply take_nonempty. lia.
Qed.

Lemma parseLine_names (line : string) (g : GadgetInfo) :
  In g (parseLine line) ->
  Name g <> "" /\ Category g = "" /\ Version g = "" /\ Author g = "".
Proof.
  unfold parseLine. destruct (_ || _); [intros [] |].
  pose proof (fieldsFrom_nonempty (String.length (TrimSpace line))
                (TrimSpace line) None) as Hfields.
  fold (Fields (TrimSpace line)) in Hfields.
  destruct (Fields (TrimSpace line)) as [| name rest]; [intros [] |].
  intros [<- | []]. cbn [Name Category Version Author].
  repeat split.
  assert (Hall : Forall (fun field => field <> "") (name :: rest))
    by (apply Hfields; discriminate).
  now inversion Hall.
Qed.

Lemma parseLine_one (line : string) : (List.length (parseLine line) <= 1)%nat.
Proof.
  unfold parseLine. destruct (_ || _); [cbn; lia |].
  destruct (Fields (TrimSpace line)); cbn; lia.
Qed.

(** X30: the gadgets that [parseGadgetList] reads.  Every gadget of the
    list has a name that is not empty, and no category, version or
    author; a line gives one gadget at most, so that the list is not
    longer than the output has lines; an output of white space gives no
    gadget.  What the binary of the framework prints for an empty
    register is read as one gadget, of the name [No]; what it prints
    for its own two gadgets is read as these two, each with its
    description. *)
Theorem parseGadgetList_reads_names (output : string) :
  (forall g,
     In g (parseGadgetList output) ->
     Name g <> "" /\ Category g = "" /\ Version g = "" /\ Author g = "")
  /\ (List.length (parseGadgetList output)
      <= List.length (Split (TrimSpace output) newline))%nat
  /\ (TrimSpace output = "" -> parseGadgetList output = [])
  /\ parseGadgetList (fst (Command.Execute (Some Gadget.NewManager) ["list"]))
     = [ {| Name := "No"; Description := "gadgets registered.";
            Category := ""; Version := ""; Author := "" |} ]
  /\ (forall sysinfoText,
        parseGadgetList (GoGoGadget.main sysinfoText ["list"])
        = [ {| Name := "echo";
               Description := "Echoes provided arguments back to the console";
               Category := ""; Version := ""; Author := "" |};
            {| Name := "sysinfo";
               Description := "Prints basic system information";
               Category := ""; Version := ""; Author := "" |} ]).
Proof.
  split; [| split; [| split; [| split]]].
  - intros g Hin. unfold parseGadgetList in Hin.
    apply in_flat_map in Hin. destruct Hin as (line & _ & Hg).
    now apply (parseLine_names line).
  - unfold parseGadgetList.
    induction (Split (TrimSpace output) newline) as [| line lines IH];
      [reflexivity |].
    cbn [flat_map List.length]. rewrite length_app.
    pose proof (parseLine_one line). lia.
  - intros Hblank. unfold parseGadgetList. rewrite Hblank. reflexivity.
  - vm_compute. reflexivity.
  - intros sysinfoText. vm_compute. reflexivity.
Qed.

End GadgetList.

(** ** The properties at the inputs of the examples *)

Section FurtherFrameExamples.
Import GoString JSONString MCP MCPClient Transport.

Lemma decoded_frame_has_no_integer_witness :
  exists m,
    @UnmarshalMessage asciiTables wireResponse = Some m
    /\ fromJSONMessage m = true
    /\ forall n, ID m <> GUint64 n /\ ID m <> GInt n.
Proof.
  eexists. split; [vm_compute; reflexivity |].
  apply (@decoded_frame_has_no_integer asciiTables wireResponse).
  vm_compute. reflexivity.
Defined.

Lemma decoded_response_is_not_delivered_witness :
  exists m,
    @UnmarshalMessage asciiTables wireResponse = Some m
    /\ IsResponse m = true
    /\ (exists waiting',
          handleMessage [(GUint64 1, None)]
                        (CreateResponse (GUint64 1) (GString "ok"))
          = Response (Delivered waiting'))
    /\ (forall waiting',
          handleMessage [(GUint64 1, None)] m <> Response (Delivered waiting')).
Proof.
  eexists. split; [vm_compute; reflexivity |].
  split; [vm_compute; reflexivity |].
  pose proof (@decoded_response_is_not_delivered asciiTables 0 []
                "tools/list" GNil (GString "ok") wireResponse _
                eq_refl eq_refl eq_refl) as Hclient.
  cbv beta iota delta [sendRequest] in Hclient.
  destruct Hclient as (_ & _ & Hdelivered & Hdropped & _).
  split; [exact Hdelivered | exact Hdropped].
Defined.

Lemma in_memory_transport_is_fifo_witness :
  exists t,
    sendAll openTransport [pingNotification; listToolsRequest] = (Ok tt, t)
    /\ outgoing t = [pingNotification; listToolsRequest]
    /\ drain 2 t = [Some pingNotification; Some listToolsRequest].
Proof.
  destruct (in_memory_transport_is_fifo [pingNotification; listToolsRequest])
    as (t & Hsent & Hqueue & Hdrained & _).
  - vm_compute. discriminate.
  - exists t. split; [exact Hsent |]. split; [exact Hqueue | exact Hdrained].
Defined.

Lemma closed_transport_is_not_reusable_witness :
  exists t1 t2,
    Close openTransport = (Ok tt, t1)
    /\ Send t1 pingNotification = (Err "transport not connected", t1)
    /\ Receive t1 = (Err "transport not connected", t1)
    /\ Close t1 = (Ok tt, t1)
    /\ Connect t1 = (Ok tt, t2)
    /\ Send t2 pingNotification = (Panics, t2)
    /\ SendToIncoming t2 pingNotification = (Panics, t2)
    /\ Close t2 = (Panics, t2)
    /\ (incoming openTransport = [] -> Receive t2 = (Ok None, t2)).
Proof.
  apply (closed_transport_is_not_reusable openTransport pingNotification).
  - reflexivity.
  - reflexivity.
Defined.

Lemma tcp_transport_needs_go_int_witness :
  exists config,
    toGo tcpConfigJSON = Some (GMap config)
    /\ (forall address, CreateTransport config <> inr (Socket "tcp" address))
    /\ CreateTransport config = inl "tcp transport requires port".
Proof.
  eexists. split; [vm_compute; reflexivity |].
  pose proof (tcp_transport_needs_go_int tcpConfigJSON _ eq_refl)
    as [Hnever Hport].
  split; [exact Hnever |].
  apply (Hport eq_refl "localhost" eq_refl).
Defined.

End FurtherFrameExamples.

Section FurtherRBACExamples.
Import GoString RBAC RBACManager.

Lemma GetUserPermissions_are_granted_witness :
  exists permissions,
    @GetUserPermissions (list Rule) seededStore (Some bobClaims)
    = inr permissions
    /\ List.length permissions = 3%nat
    /\ (forall p,
          In p permissions ->
          CheckPermission seededStore (Some bobClaims) (Object p) (Action p)
          = true).
Proof.
  eexists. split; [vm_compute; reflexivity |]. split; [reflexivity |].
  apply (@GetUserPermissions_are_granted (list Rule) seededStore bobClaims).
  vm_compute. reflexivity.
Defined.

Lemma AssignRole_gives_the_role_witness :
  exists e1,
    @AssignRole _ listRoleAdapter seededStore "carol" "user" = (None, e1)
    /\ grouping e1 = [("alice", "role:admin"); ("carol", "role:user")]
    /\ @CheckUserRole (list Rule) e1 "carol" "user" = (true, None)
    /\ @AssignRole _ listRoleAdapter e1 "carol" "user"
       = (Some "role already assigned: user carol already has role user", e1).
Proof.
  eexists. split; [vm_compute; reflexivity |].
  pose proof (@AssignRole_gives_the_role _ listRoleAdapter
                seededStore _ "carol" "user"
                ltac:(discriminate) eq_refl)
    as (Hlinks & _ & Hrole & _ & Hagain & _).
  split; [exact Hlinks |]. split; [exact Hrole | exact Hagain].
Defined.

Lemma AddPermission_grants_the_rule_witness :
  exists e1,
    @AddPermission _ listAdapter seededStore "role:user" "reports" "read"
    = (None, e1)
    /\ Enforce e1 "role:user" "reports" "read" = (true, None)
    /\ @AddPermission _ listAdapter e1 "role:user" "reports" "read"
       = (Some "permission already exists: role:user reports read", e1).
Proof.
  eexists. split; [vm_compute; reflexivity |].
  pose proof (@AddPermission_grants_the_rule _ listAdapter listRoleAdapter
                seededStore _ "role:user" "reports" "read" eq_refl)
    as (_ & _ & Hgranted & _ & Hagain & _).
  split; [exact Hgranted | exact Hagain].
Defined.

Lemma createDefaultAdmin_leaves_an_admin_witness :
  (exists user, @CheckUserRole (list Rule) startedStore user "admin"
                = (true, None))
  /\ policy startedStore = policy freshStore
  /\ @createDefaultAdmin _ listRoleAdapter startedStore = (None, startedStore).
Proof.
  pose proof (@createDefaultAdmin_leaves_an_admin _ listRoleAdapter
                freshStore startedStore eq_refl)
    as (Hadmin & Hpolicy & Hagain & _).
  split; [exact Hadmin |]. split; [exact Hpolicy | exact Hagain].
Defined.

End FurtherRBACExamples.

Section FurtherAuthExamples.
Import GoString Auth AuthHTTP.

Lemma RefreshToken_keeps_the_identity_witness :
  exists fresh refreshed,
    @RefreshToken plainMAC serverJWT (1000 * Second) (1500 * Second)
                  foreignToken = inr fresh
    /\ @ValidateToken plainMAC serverJWT (3000 * Second) fresh = inr refreshed
    /\ UserID refreshed = "mallory"
    /\ Roles refreshed = ["admin"]
    /\ Issuer (Registered refreshed) = "inspector-gadget-os".
Proof.
  destruct (@RefreshToken_keeps_the_identity plainMAC serverJWT
              (1000 * Second) (1500 * Second) (3000 * Second)
              foreignToken foreignClaims)
    as (fresh & refreshed & Hfresh & Hvalid & Hid & _ & Hroles & Hissuer & _).
  - vm_compute. reflexivity.
  - vm_compute. reflexivity.
  - vm_compute. reflexivity.
  - vm_compute. reflexivity.
  - vm_compute. reflexivity.
  - vm_compute. discriminate.
  - vm_compute. reflexivity.
  - exists fresh, refreshed.
    split; [exact Hfresh |]. split; [exact Hvalid |].
    split; [exact Hid |]. split; [exact Hroles | exact Hissuer].
Defined.

End FurtherAuthExamples.

Section FurtherSandboxExamples.
Import GoString Filepath SafeFS.

Lemma accepted_path_is_under_a_base_root_witness :
  @ValidatePath asciiTables _ memoryHost tmpSandbox [] "/tmp/notes/a.txt" = None
  /\ exists absPath basePath absBase rest,
       Abs (@Getwd _ memoryHost []) (Clean "/tmp/notes/a.txt") = inr absPath
       /\ In basePath (basePaths tmpSandbox)
       /\ Abs (@Getwd _ memoryHost []) basePath = inr absBase
       /\ elems (Clean absPath) = (elems (Clean absBase) ++ rest)%list.
Proof.
  split; [vm_compute; reflexivity |].
  apply (@accepted_path_is_under_a_base_root asciiTables _ memoryHost
           tmpSandbox [] "/tmp/notes/a.txt").
  - intros wd Hwd. injection Hwd as <-. reflexivity.
  - left. vm_compute. reflexivity.
Defined.

End FurtherSandboxExamples.

Section FurtherGadgetExamples.
Import GoString Gadget GoGoGadget.

Lemma Register_then_Get_witness :
  Get [("echo", echoGadget)] "echo" = Some echoGadget
  /\ Register [("echo", echoGadget)] (Some echoGadget)
     = (Some (AlreadyRegistered "echo"), [("echo", echoGadget)]).
Proof.
  pose proof (Register_then_Get NewManager [("echo", echoGadget)] echoGadget)
    as Hregistered.
  destruct Hregistered as (_ & _ & _ & Hfound & _ & Hagain & _).
  - split; [constructor | intros key g' []].
  - reflexivity.
  - split; [exact Hfound | exact Hagain].
Defined.

End FurtherGadgetExamples.

Section FurtherEvaluations.
Import GoString Filepath SafeFS SafeFSOps GadgetAPI.

(** A copy within the base root is made and audited; a copy to a path
    outside of it is refused and leaves the host as it was. *)
Example CopyFile_inside_and_outside :
  @CopyFile asciiTables _ _ _ memoryHost memoryFiles tmpSandbox
            [("/tmp/a.txt", "hello")] "/tmp/a.txt" "/tmp/b.txt" "bob"
  = (None,
     [("/tmp/b.txt", "hello"); ("/tmp/b.txt", ""); ("/tmp/a.txt", "hello")],
     @auditLog tmpSandbox "copy" "/tmp/a.txt -> /tmp/b.txt" "bob" true
               "copied 5 bytes")
  /\ fst (@CopyFile asciiTables _ _ _ memoryHost memoryFiles tmpSandbox
                    [("/tmp/a.txt", "hello")] "/tmp/a.txt" "/etc/b.txt" "bob")
     = (Some (Validation "destination path validation failed"
                         ErrPathOutsideBase),
        [("/tmp/a.txt", "hello")]).
Proof. split; vm_compute; reflexivity. Qed.

(** bob, a user, reads a file of the sandbox through the route and is
    refused when he writes. *)
Example file_routes_of_a_user :
  fst (@fileReadRoute asciiTables _ memoryHost _ seededStore tmpSandbox
                      [("/tmp/a.txt", "hello")] "/tmp/a.txt" (Some bobClaims))
  = FileRead "/tmp/a.txt" "hello" 5
  /\ @fileWriteRoute asciiTables _ memoryHost _ seededStore tmpSandbox
                     [("/tmp/a.txt", "hello")] (inr ("/tmp/b.txt", "x"))
                     (Some bobClaims)
     = (Refused 403 "insufficient permissions", [("/tmp/a.txt", "hello")], []).
Proof. split; vm_compute; reflexivity. Qed.

(** The runner over the binary of the framework: [echo] prints its
    argument, a name that is no gadget gives a success with an empty
    output, and an argument with a NUL byte a failure with the exit
    code -1. *)
Example runner_on_the_framework :
  fst (@Integration.executeGadgetCommand
         (GoGoGadget.binary "" strictLaunch) gadgetBinary "echo" ["hi"] "bob")
  = {| Integration.Success := true;
       Integration.Output := GoString.Join ["hi"; ""] (String newline "");
       Integration.Error := "";
       Integration.ExitCode := 0;
       Integration.GadgetName := "echo" |}
  /\ fst (@Integration.executeGadgetCommand
            (GoGoGadget.binary "" strictLaunch) gadgetBinary "nope" ["hi"] "bob")
     = {| Integration.Success := true;
          Integration.Output := "";
          Integration.Error := "";
          Integration.ExitCode := 0;
          Integration.GadgetName := "nope" |}
  /\ fst (@Integration.executeGadgetCommand
            (GoGoGadget.binary "" strictLaunch) gadgetBinary "echo"
            [String Ascii.zero "hi"] "bob")
     = {| Integration.Success := false;
          Integration.Output := "";
          Integration.Error :=
            "fork/exec /usr/local/bin/go-go-gadget: invalid argument";
          Integration.ExitCode := -1;
          Integration.GadgetName := "echo" |}.
Proof. repeat split; vm_compute; reflexivity. Qed.

(** The list of the server over the binary of the framework. *)
Example ListGadgets_of_the_framework :
  @ListGadgets (frameworkOutput "") gadgetBinary
  = (Responded 200
       (ListBody
          {| Gadgets :=
               [ {| Name := "echo";
                    Description :=
                      "Echoes provided arguments back to the console";
                    Category := ""; Version := ""; Author := "" |};
                 {| Name := "sysinfo";
                    Description := "Prints basic system information";
                    Category := ""; Version := ""; Author := "" |} ];
             Count := 2 |}),
     [[gadgetBinary; "list"]]).
Proof. vm_compute. reflexivity. Qed.

End FurtherEvaluations.
